(** * The PDF viewer page: load cycle, page rendering and click hit-test

    A shallow embedding of the script of
    [src/app/pages/pdf-viewer/[pdfId].vue] (functions [fetchPdfData],
    [loadAndRenderPdf], [drawBoundingBoxes], [handleCanvasClick], the
    [onMounted] hook, the watcher on [route.params.pdfId] and the set-up of
    the PDF.js worker), of the conditions under which its template shows
    its blocks, and of the two variants of the Nuxt configuration.

    Modelling conventions.
    - A JavaScript [number] is an IEEE-754 binary64 value: the primitive
      [float] of the kernel, with its rounding, infinities and NaN; [*],
      [+], [-], [/] and [<=?] are the operations of JavaScript.
    - The reactive refs of the component and the part of the DOM the script
      touches (the canvas with its 2D context, the input fields, the focus)
      form one record [World] that every function threads explicitly.  The
      document holds at most one canvas element, so the element a suspended
      call has captured is the one [getElementById] returns.
    - The template shows its canvas and its fields only while
      [!isLoading && !error] (line 12); Vue patches the document after each
      event.  [patch_document] is that patch and [step_alone] the event loop
      of the component in a document of its own.  The functions of the
      script are also stated for a document in which a canvas is found
      whatever the refs say (one that the hosting page or a test harness
      provides): the canvas is then a hypothesis of the statement.
    - An [async] function is cut at its [await]s: the code up to the first
      [await] is a function returning the new world and what the call is
      waiting for ([Pending]); each continuation is a function of the
      settled value.  The event loop is the step function of [System].
    - Calls that leave the component (network, rasterisation engine, canvas
      operations, focus) are appended to the [effects] trace of the world;
      console output goes to [console]. *)

From Stdlib Require Import Floats ZArith QArith Qpower Lqa Lia.
From Stdlib Require Import String List Bool Arith.
Import ListNotations.

Local Open Scope string_scope.
Local Open Scope float_scope.

(** ** JavaScript values *)

(** A field that holds a string or is absent ([undefined]: the key is not
    in the record).  A key that is present with the JSON value [null] is
    falsy as well but prints as "null"; such records are outside this model,
    and no statement below depends on how an absent identifier prints. *)
Definition truthy (v : option string) : bool :=
  match v with
  | Some s => negb (String.eqb s "")
  | None => false
  end.

(** [a || b] *)
Definition js_or (a b : option string) : option string :=
  if truthy a then a else b.

(** A value inside a template literal: [`${v}`]. *)
Definition template (v : option string) : string :=
  match v with
  | Some s => s
  | None => "undefined"
  end.

(** What is thrown, rejected with or stored in [error.value]: an [Error]
    object ([name], [message]) or a plain string. *)
Inductive ErrorValue : Type :=
| ErrorObject (name message : string)
| ErrorText (s : string).

Definition new_Error (message : string) : ErrorValue :=
  ErrorObject "Error" message.

(** [e instanceof Error ? e.message : String(e)] *)
Definition error_message (e : ErrorValue) : string :=
  match e with
  | ErrorObject _ m => m
  | ErrorText s => s
  end.

(** A settled promise. *)
Inductive Settled (A : Type) : Type :=
| Fulfilled (a : A)
| Rejected (reason : ErrorValue).
Arguments Fulfilled {A} a.
Arguments Rejected {A} reason.

(** ** Data model *)

(** [interface BoundingBox]; the raw records of the metadata payload have
    the same shape, with [element_id] and/or [id] possibly absent. *)
Record BoundingBox : Type := mkBox {
  element_id : option string;
  id : option string;
  x : float;
  y : float;
  width : float;
  height : float;
  text : string
}.

(** The object returned by [page.getViewport]. *)
Record Viewport : Type := mkViewport {
  scale : float;
  vwidth : float;
  vheight : float
}.

(** What has been painted on the canvas bitmap. *)
Inductive Paint : Type :=
| PageImage (label : string) (vp : Viewport)
| Outline (style : string) (line : float) (rx ry rw rh : float).

(** [CanvasRenderingContext2D] *)
Record Context2D : Type := mkContext {
  bitmap : list Paint;
  strokeStyle : string;
  lineWidth : float
}.

(** The [<canvas id="pdf-canvas">] element. *)
Record Canvas : Type := mkCanvas {
  cwidth : float;
  cheight : float;
  context2d : option Context2D;   (* [getContext('2d')], [null] when unavailable *)
  clickListener : bool            (* [handleCanvasClick] registered on 'click' *)
}.

(** Handles of the rasterisation engine. *)
Record PdfDocument : Type := mkDocument { source : string }.

Record PdfPage : Type := mkPage {
  page_label : string;
  getViewport : float -> Viewport
}.

(** The metadata payload.  [boundingBoxes] may be missing ([undefined]),
    [null], or hold something else that is not an array (and has no [map]
    method). *)
Inductive BoxesField : Type :=
| BoxesAbsent
| BoxesNull
| BoxesNotArray
| BoxesArray (boxes : list BoundingBox).

Record Metadata : Type := mkMetadata {
  cloudStoragePath : option string;
  boundingBoxes_field : BoxesField
}.

(** The [error] ref returned by [useFetch]. *)
Record FetchError : Type := mkFetchError {
  statusMessage : option string;
  message : option string;
  as_string : string
}.

(** What [await useFetch(url)] yields: the [data] and [error] refs. *)
Record FetchResult : Type := mkFetchResult {
  data : option Metadata;
  fetch_error : option FetchError
}.

(** Calls that leave the component, in the order they are made. *)
Inductive Effect : Type :=
| NetFetch (url : string)
| ClearRect (rx ry rw rh : float)
| GetDocument (url : string)
| GetPage (index : nat)
| GetViewportCall (s : float)
| SetCanvasHeight (h : float)
| SetCanvasWidth (w : float)
| RenderCall (label : string) (vp : Viewport)
| StrokeRect (rx ry rw rh : float)
| RemoveClickListener
| AddClickListener
| FocusInput (input_id : string).

Inductive ConsoleEntry : Type :=
| ConsoleError (label : string) (detail : option ErrorValue)
| ConsoleLog (line : string).

(** The component's refs, the configuration, the route and the DOM.

    [canvas] and [inputs] are what the document holds at the moment of a
    lookup, whoever put it there.  The functions of the script are stated
    over any such document.  The template itself (lines 12-29) puts its
    canvas and fields into the document only while nothing is loading and
    no error is shown: [patch_document] below ties them to the refs, and
    [step_alone] is the component in a document that holds nothing but what
    its own template renders. *)
Record World : Type := mkWorld {
  apiBaseUrl : option string;          (* [config.public.apiBaseUrl] *)
  pdfId : string;
  boundingBoxes : list BoundingBox;
  pdfFileUrl : option string;
  isLoading : bool;
  error : option ErrorValue;
  pdfPageView : option Viewport;
  canvas : option Canvas;              (* [document.getElementById('pdf-canvas')], now *)
  inputs : list string;                (* ids of the input elements in the document, now *)
  activeElement : option string;
  effects : list Effect;
  console : list ConsoleEntry
}.

(** *** Field updates *)

(** Assignments to one ref; the world is taken apart once, so that nested
    updates evaluate from the inside. *)

Definition set_pdfId (v : string) (w : World) : World :=
  let (base, _, boxes, url, loading, err, view, cv, ins, active, eff, con) := w in
  mkWorld base v boxes url loading err view cv ins active eff con.

Definition set_boundingBoxes (v : list BoundingBox) (w : World) : World :=
  let (base, cur, _, url, loading, err, view, cv, ins, active, eff, con) := w in
  mkWorld base cur v url loading err view cv ins active eff con.

Definition set_pdfFileUrl (v : option string) (w : World) : World :=
  let (base, cur, boxes, _, loading, err, view, cv, ins, active, eff, con) := w in
  mkWorld base cur boxes v loading err view cv ins active eff con.

Definition set_isLoading (v : bool) (w : World) : World :=
  let (base, cur, boxes, url, _, err, view, cv, ins, active, eff, con) := w in
  mkWorld base cur boxes url v err view cv ins active eff con.

Definition set_error (v : option ErrorValue) (w : World) : World :=
  let (base, cur, boxes, url, loading, _, view, cv, ins, active, eff, con) := w in
  mkWorld base cur boxes url loading v view cv ins active eff con.

Definition set_pdfPageView (v : option Viewport) (w : World) : World :=
  let (base, cur, boxes, url, loading, err, _, cv, ins, active, eff, con) := w in
  mkWorld base cur boxes url loading err v cv ins active eff con.

Definition set_canvas (v : option Canvas) (w : World) : World :=
  let (base, cur, boxes, url, loading, err, view, _, ins, active, eff, con) := w in
  mkWorld base cur boxes url loading err view v ins active eff con.

Definition set_activeElement (v : option string) (w : World) : World :=
  let (base, cur, boxes, url, loading, err, view, cv, ins, _, eff, con) := w in
  mkWorld base cur boxes url loading err view cv ins v eff con.

(** Appends a call to the trace. *)
Definition emit (e : Effect) (w : World) : World :=
  let (base, cur, boxes, url, loading, err, view, cv, ins, active, eff, con) := w in
  mkWorld base cur boxes url loading err view cv ins active (eff ++ [e]) con.

(** Appends a line to the console. *)
Definition print (c : ConsoleEntry) (w : World) : World :=
  let (base, cur, boxes, url, loading, err, view, cv, ins, active, eff, con) := w in
  mkWorld base cur boxes url loading err view cv ins active eff (con ++ [c]).

(** *** Canvas operations *)

Definition set_bitmap (b : list Paint) (c : Context2D) : Context2D :=
  let (_, style, line) := c in mkContext b style line.

Definition with_context (f : Context2D -> Context2D) (c : Canvas) : Canvas :=
  let (cw, ch, ctx, listener) := c in mkCanvas cw ch (option_map f ctx) listener.

(** Applies [f] to the canvas element when the document has one. *)
Definition on_canvas (f : Canvas -> Canvas) (w : World) : World :=
  let (base, cur, boxes, url, loading, err, view, cv, ins, active, eff, con) := w in
  mkWorld base cur boxes url loading err view (option_map f cv) ins active eff con.

(** [context.clearRect(0, 0, canvas.width, canvas.height)]: the whole
    bitmap becomes blank. *)
Definition clearRect_all (c : Canvas) (w : World) : World :=
  emit (ClearRect 0 0 (cwidth c) (cheight c))
       (on_canvas (with_context (set_bitmap [])) w).

(** The bitmap of the canvas of the document; a document without canvas, or
    a canvas without 2D context, has no raster content. *)
Definition raster (w : World) : list Paint :=
  match canvas w with
  | Some c => match context2d c with
              | Some ctx => bitmap ctx
              | None => []
              end
  | None => []
  end.

(** ** Viewport transform (lines 211-214 and 246-249) *)

Definition canvasX (viewport : Viewport) (box : BoundingBox) : float := x box * scale viewport.
Definition canvasY (viewport : Viewport) (box : BoundingBox) : float := y box * scale viewport.
Definition canvasWidth (viewport : Viewport) (box : BoundingBox) : float := width box * scale viewport.
Definition canvasHeight (viewport : Viewport) (box : BoundingBox) : float := height box * scale viewport.

(** The test of lines 216-217:
    [x >= canvasX && x <= canvasX + canvasWidth &&
     y >= canvasY && y <= canvasY + canvasHeight] *)
Definition containsPoint (viewport : Viewport) (box : BoundingBox) (px py : float) : bool :=
  (canvasX viewport box <=? px)
  && (px <=? canvasX viewport box + canvasWidth viewport box)
  && (canvasY viewport box <=? py)
  && (py <=? canvasY viewport box + canvasHeight viewport box).

(** ** Click handling (lines 201-226) *)

Record MouseEvent : Type := mkMouseEvent {
  clientX : float;
  clientY : float;
  rect_left : float;     (* [event.target.getBoundingClientRect().left] *)
  rect_top : float
}.

Definition has_input (input_id : string) (w : World) : bool :=
  existsb (String.eqb input_id) (inputs w).

(** Lines 218-222: log the box, look its input up and focus it. *)
Definition focus_box (box : BoundingBox) (w : World) : World :=
  let w := print (ConsoleLog ("Clicked on box: " ++ template (element_id box))) w in
  let input_id := "input-" ++ template (element_id box) in
  if has_input input_id w
  then emit (FocusInput input_id) (set_activeElement (Some input_id) w)
  else w.

(** The [for (const box of boundingBoxes.value)] loop with its early
    [return]. *)
Fixpoint click_loop (viewport : Viewport) (px py : float)
         (boxes : list BoundingBox) (w : World) : World :=
  match boxes with
  | [] => w
  | box :: rest =>
      if containsPoint viewport box px py
      then focus_box box w
      else click_loop viewport px py rest w
  end.

Definition handleCanvasClick (event : MouseEvent) (w : World) : World :=
  let px := clientX event - rect_left event in
  let py := clientY event - rect_top event in
  match pdfPageView w with
  | None => w
  | Some viewport => click_loop viewport px py (boundingBoxes w) w
  end.

(** ** Overlay drawing (lines 228-253) *)

(** [context.strokeRect(...)] with the context's current style. *)
Definition strokeRect (rx ry rw rh : float) (w : World) : World :=
  emit (StrokeRect rx ry rw rh)
       (on_canvas (with_context (fun ctx =>
          set_bitmap (bitmap ctx ++ [Outline (strokeStyle ctx) (lineWidth ctx) rx ry rw rh]) ctx)) w).

Definition stroke_box (viewport : Viewport) (w : World) (box : BoundingBox) : World :=
  strokeRect (canvasX viewport box) (canvasY viewport box)
             (canvasWidth viewport box) (canvasHeight viewport box) w.

Definition drawBoundingBoxes (w : World) : World :=
  match canvas w with
  | None => w
  | Some c =>
      match context2d c, pdfPageView w with
      | Some _, Some viewport =>
          let w := on_canvas (with_context (fun ctx => mkContext (bitmap ctx) "red" 2)) w in
          let w := fold_left (stroke_box viewport) (boundingBoxes w) w in
          print (ConsoleLog "Bounding boxes drawn.") w
      | _, _ =>
          if negb (isLoading w)
          then print (ConsoleError
                 "Canvas context or PDF page view not available for drawing bounding boxes."
                 None) w
          else w
      end
  end.

(** ** The load cycle (lines 85-172) *)

(** What a suspended call of [fetchPdfData] is waiting for, with the
    locals it still needs. *)
Inductive Pending : Type :=
| AwaitMetadata (id : string)                                   (* line 97 *)
| AwaitDocument (url : string)                                  (* line 151 *)
| AwaitPage (url : string) (pdf : PdfDocument)                  (* line 152 *)
| AwaitRender (url : string) (page : PdfPage) (viewport : Viewport). (* line 159 *)

Definition placeholder : string := "REPLACE_WITH_YOUR_ACTUAL_API_BASE_URL".

(** [apiBaseUrl === 'REPLACE_WITH_YOUR_ACTUAL_API_BASE_URL' || !apiBaseUrl] *)
Definition not_configured (base : option string) : bool :=
  match base with
  | Some s => String.eqb s placeholder
  | None => false
  end
  || negb (truthy base).

Definition config_error : ErrorValue :=
  new_Error "API base URL is not configured in nuxt.config.ts. Please replace the placeholder.".

(** Lines 123-127 and 188-192: clear the canvas when the document has one
    and it gives a 2D context. *)
Definition clear_canvas (w : World) : World :=
  match canvas w with
  | Some c =>
      match context2d c with
      | Some _ => clearRect_all c w
      | None => w
      end
  | None => w
  end.

(** The [catch] block of [fetchPdfData] (lines 118-127). *)
Definition catch_fetch (e : ErrorValue) (w : World) : World :=
  let w := print (ConsoleError "Error in fetchPdfData:" (Some e)) w in
  let w := set_error (Some e) w in
  let w := set_boundingBoxes [] w in
  let w := set_pdfFileUrl None w in
  clear_canvas w.

(** The [finally] block of [fetchPdfData] (lines 128-130); it runs when the
    call is over, not while it is suspended. *)
Definition finally_fetch (r : World * option Pending) : World * option Pending :=
  match snd r with
  | None => (set_isLoading false (fst r), None)
  | Some _ => r
  end.

(** [throw e] inside the [try] of [fetchPdfData]. *)
Definition throw_fetch (e : ErrorValue) (w : World) : World * option Pending :=
  finally_fetch (catch_fetch e w, None).

(** Lines 86-97: up to [await useFetch(metadataUrl)]. *)
Definition fetchPdfData (id : string) (w : World) : World * option Pending :=
  let w := set_isLoading true w in
  let w := set_error None w in
  if not_configured (apiBaseUrl w)
  then throw_fetch config_error w
  else
    let metadataUrl := template (apiBaseUrl w) ++ "/documents/" ++ id in
    (emit (NetFetch metadataUrl) w, Some (AwaitMetadata id)).

(** Lines 108-109: [{ ...box, element_id: box.element_id || box.id }] *)
Definition normalize (box : BoundingBox) : BoundingBox :=
  mkBox (js_or (element_id box) (id box)) (id box)
        (x box) (y box) (width box) (height box) (text box).

(** [fetchErrorVal.value.statusMessage || fetchErrorVal.value.message ||
     fetchErrorVal.value] inside the template literal of line 100. *)
Definition fetch_error_text (fe : FetchError) : string :=
  if truthy (statusMessage fe) then template (statusMessage fe)
  else if truthy (message fe) then template (message fe)
  else as_string fe.

(** The [catch] block of [loadAndRenderPdf] (lines 168-171). *)
Definition catch_render (e : ErrorValue) (w : World) : World :=
  let w := print (ConsoleError "Error loading/rendering PDF:" (Some e)) w in
  set_error (Some (ErrorText ("Failed to load PDF: " ++ error_message e))) w.

(** Lines 134-151: [loadAndRenderPdf] up to [await loadingTask.promise]. *)
Definition loadAndRenderPdf (url : string) (w : World) : World * option Pending :=
  match canvas w with
  | None =>
      let w := set_error (Some (ErrorText "Canvas element not found.")) w in
      let w := print (ConsoleError "Canvas element not found." None) w in
      (w, None)
  | Some c =>
      match context2d c with
      | None =>
          let w := print (ConsoleError "Failed to get canvas context" None) w in
          let w := set_error (Some (ErrorText "Failed to get canvas context")) w in
          (w, None)
      | Some _ =>
          let w := clearRect_all c w in
          (emit (GetDocument url) w, Some (AwaitDocument url))
      end
  end.

(** [canvas.height = h], [canvas.width = w] *)
Definition set_cheight (h : float) (c : Canvas) : Canvas :=
  let (cw, _, ctx, listener) := c in mkCanvas cw h ctx listener.

Definition set_cwidth (w : float) (c : Canvas) : Canvas :=
  let (_, ch, ctx, listener) := c in mkCanvas w ch ctx listener.

Definition set_clickListener (b : bool) (c : Canvas) : Canvas :=
  let (cw, ch, ctx, _) := c in mkCanvas cw ch ctx b.

(** Line 152, after [loadingTask.promise] settled. *)
Definition afterDocument (url : string) (r : Settled PdfDocument) (w : World)
  : World * option Pending :=
  match r with
  | Fulfilled pdf => (emit (GetPage 1) w, Some (AwaitPage url pdf))
  | Rejected e => (catch_render e w, None)
  end.

(** Lines 153-159, after [pdf.getPage(1)] settled. *)
Definition afterPage (url : string) (r : Settled PdfPage) (w : World)
  : World * option Pending :=
  match r with
  | Fulfilled page =>
      let viewport := getViewport page 1.5 in
      let w := emit (GetViewportCall 1.5) w in
      let w := set_pdfPageView (Some viewport) w in
      let w := emit (SetCanvasHeight (vheight viewport))
                 (on_canvas (set_cheight (vheight viewport)) w) in
      let w := emit (SetCanvasWidth (vwidth viewport))
                 (on_canvas (set_cwidth (vwidth viewport)) w) in
      (emit (RenderCall (page_label page) viewport) w, Some (AwaitRender url page viewport))
  | Rejected e => (catch_render e w, None)
  end.

(** Lines 160-165, after [page.render(renderContext).promise] settled; a
    fulfilled render has painted the page into the context. *)
Definition afterRender (url : string) (page : PdfPage) (viewport : Viewport)
           (r : Settled unit) (w : World) : World * option Pending :=
  match r with
  | Fulfilled _ =>
      let w := on_canvas (with_context (fun ctx =>
                 set_bitmap (bitmap ctx ++ [PageImage (page_label page) viewport]) ctx)) w in
      let w := print (ConsoleLog ("PDF rendered successfully from URL: " ++ url)) w in
      let w := drawBoundingBoxes w in
      let w := emit RemoveClickListener (on_canvas (set_clickListener false) w) in
      let w := emit AddClickListener (on_canvas (set_clickListener true) w) in
      (w, None)
  | Rejected e => (catch_render e w, None)
  end.

(** What the engine throws when [.map] is called on something that has no
    such method.  That it is a [TypeError] is fixed by the language; its
    message is the engine's (below: the wording of V8) and not the code's, so
    the statements about these errors leave the message open. *)
Definition type_error (message : string) : ErrorValue :=
  ErrorObject "TypeError" message.

(** Lines 99-116, after [useFetch] settled. *)
Definition afterMetadata (id : string) (r : FetchResult) (w : World)
  : World * option Pending :=
  match fetch_error r with
  | Some fe =>
      throw_fetch (new_Error ("Error fetching metadata: " ++ fetch_error_text fe)) w
  | None =>
      match data r with
      | None => throw_fetch (new_Error "No data returned from metadata API.") w
      | Some metadata =>
          let w := set_pdfFileUrl (cloudStoragePath metadata) w in
          match boundingBoxes_field metadata with
          | BoxesAbsent =>
              throw_fetch (type_error "Cannot read properties of undefined (reading 'map')") w
          | BoxesNull =>
              throw_fetch (type_error "Cannot read properties of null (reading 'map')") w
          | BoxesNotArray =>
              throw_fetch
                (type_error "metadataResponse.value.boundingBoxes.map is not a function") w
          | BoxesArray boxes =>
              let w := set_boundingBoxes (map normalize boxes) w in
              match pdfFileUrl w with
              | Some url =>
                  if truthy (pdfFileUrl w)
                  then finally_fetch (loadAndRenderPdf url w)
                  else throw_fetch
                         (new_Error "PDF cloud storage path not provided in API response.") w
              | None =>
                  throw_fetch
                    (new_Error "PDF cloud storage path not provided in API response.") w
              end
          end
      end
  end.

(** The value a pending call is resumed with. *)
Inductive Answer : Type :=
| MetadataSettled (r : FetchResult)
| DocumentSettled (r : Settled PdfDocument)
| PageSettled (r : Settled PdfPage)
| RenderSettled (r : Settled unit).

(** Resuming a suspended [fetchPdfData]; [None] when the answer is not the
    one the call waits for. *)
Definition resume (p : Pending) (a : Answer) (w : World)
  : option (World * option Pending) :=
  match p, a with
  | AwaitMetadata id, MetadataSettled r => Some (afterMetadata id r w)
  | AwaitDocument url, DocumentSettled r => Some (finally_fetch (afterDocument url r w))
  | AwaitPage url _, PageSettled r => Some (finally_fetch (afterPage url r w))
  | AwaitRender url page viewport, RenderSettled r =>
      Some (finally_fetch (afterRender url page viewport r w))
  | _, _ => None
  end.

(** ** Mount hook and route watcher (lines 174-199) *)

(** [route.params.pdfId] *)
Inductive RouteParam : Type :=
| ParamMissing
| ParamString (s : string)
| ParamArray (l : list string).

Definition onMounted (w : World) : World * option Pending :=
  if negb (String.eqb (pdfId w) "")
  then fetchPdfData (pdfId w) w
  else (w, None).

(** Lines 185-196: what the watcher does before it calls [fetchPdfData]. *)
Definition reset_for (newId : string) (w : World) : World :=
  let w := set_pdfId newId w in
  let w := set_boundingBoxes [] w in
  let w := set_pdfFileUrl None w in
  let w := clear_canvas w in
  let w := set_pdfPageView None w in
  let w := set_error None w in
  set_isLoading true w.

Definition watch_pdfId (newId : RouteParam) (w : World) : World * option Pending :=
  match newId with
  | ParamString s =>
      if negb (String.eqb s "") && negb (String.eqb s (pdfId w))
      then fetchPdfData s (reset_for s w)
      else (w, None)
  | _ => (w, None)
  end.

(** ** The event loop *)

(** The component between two events: the shared world and the calls of
    [fetchPdfData] that are suspended at an [await], oldest first. *)
Record System : Type := mkSystem {
  world : World;
  tasks : list Pending
}.

Inductive Event : Type :=
| Mounted
| RouteChanged (newId : RouteParam)
| Settle (n : nat) (a : Answer)      (* the promise awaited by task [n] settles *)
| Click (event : MouseEvent).

Definition spawn (r : World * option Pending) (ts : list Pending) : System :=
  match snd r with
  | Some p => mkSystem (fst r) (ts ++ [p])
  | None => mkSystem (fst r) ts
  end.

Fixpoint replace_task (n : nat) (p : option Pending) (ts : list Pending) : list Pending :=
  match n, ts with
  | _, [] => []
  | O, _ :: rest => match p with Some p' => p' :: rest | None => rest end
  | S m, t :: rest => t :: replace_task m p rest
  end.

Definition step (s : System) (e : Event) : System :=
  match e with
  | Mounted => spawn (onMounted (world s)) (tasks s)
  | RouteChanged newId => spawn (watch_pdfId newId (world s)) (tasks s)
  | Settle n a =>
      match nth_error (tasks s) n with
      | Some p =>
          match resume p a (world s) with
          | Some r => mkSystem (fst r) (replace_task n (snd r) (tasks s))
          | None => s
          end
      | None => s
      end
  | Click event =>
      match canvas (world s) with
      | Some c =>
          if clickListener c
          then mkSystem (handleCanvasClick event (world s)) (tasks s)
          else s
      | None => s
      end
  end.

Definition run (s : System) (events : list Event) : System :=
  fold_left step events s.

(** *** One load cycle run to its end *)

(** What the collaborators answer during one cycle. *)
Record Engine : Type := mkEngine {
  metadata_answer : FetchResult;
  document_answer : Settled PdfDocument;
  page_answer : Settled PdfPage;
  render_answer : Settled unit
}.

Definition answer (env : Engine) (p : Pending) : Answer :=
  match p with
  | AwaitMetadata _ => MetadataSettled (metadata_answer env)
  | AwaitDocument _ => DocumentSettled (document_answer env)
  | AwaitPage _ _ => PageSettled (page_answer env)
  | AwaitRender _ _ _ => RenderSettled (render_answer env)
  end.

Fixpoint drive (fuel : nat) (env : Engine) (r : World * option Pending)
  : World * option Pending :=
  match fuel, snd r with
  | S n, Some p =>
      match resume p (answer env p) (fst r) with
      | Some r' => drive n env r'
      | None => r
      end
  | _, _ => r
  end.

(** [fetchPdfData(id)] with every [await] answered by [env]; the call has
    four [await]s at most. *)
Definition load_cycle (env : Engine) (id : string) (w : World) : World * option Pending :=
  drive 4 env (fetchPdfData id w).

(** ** Sample data (the test suite's and the specification's scenarios) *)

Module Sample.

Definition box1 : BoundingBox :=
  mkBox (Some "box1") None 50 100 150 30 "Text for box 1".
Definition box2 : BoundingBox :=
  mkBox (Some "box2") None 70 180 200 40 "Text for box 2".

Definition viewport15 : Viewport := mkViewport 1.5 600 800.

Definition page1 : PdfPage := mkPage "sample.pdf#1" (fun s => mkViewport s 600 800).

Definition blank_canvas : Canvas :=
  mkCanvas 300 150 (Some (mkContext [] "#000000" 1)) false.

(** The refs as the top level of the script creates them, in a document
    that holds a canvas of its own (the one of a test harness). *)
Definition initial (base : option string) (id : string) : World :=
  mkWorld base id [] None true None None (Some blank_canvas) [] None [] [].

Definition ok_metadata (path : string) (boxes : list BoundingBox) : FetchResult :=
  mkFetchResult (Some (mkMetadata (Some path) (BoxesArray boxes))) None.

Definition engine_ok (path : string) (boxes : list BoundingBox) : Engine :=
  mkEngine (ok_metadata path boxes) (Fulfilled (mkDocument path))
           (Fulfilled page1) (Fulfilled tt).

End Sample.

(** ** Worker set-up (lines 70-82) *)

(** [pdfjsLib.GlobalWorkerOptions.workerSrc]: not set, a string (empty in a
    fresh library) or, when the imported module has no usable default
    export, the module object itself. *)
Inductive WorkerSrc : Type :=
| SrcUndefined
| SrcString (s : string)
| SrcModuleObject.

Definition src_truthy (v : WorkerSrc) : bool :=
  match v with
  | SrcUndefined => false
  | SrcString s => negb (String.eqb s "")
  | SrcModuleObject => true
  end.

(** The part of [pdfjsLib] the set-up reads and writes. *)
Record PdfJs : Type := mkPdfJs {
  workerSrc : WorkerSrc;
  version : string
}.

(** The module that [import('pdfjs-dist/build/pdf.worker.min.js?url')]
    resolves to. *)
Record WorkerModule : Type := mkWorkerModule {
  default : option string
}.

(** [workerSrcModule.default || workerSrcModule] *)
Definition module_src (m : WorkerModule) : WorkerSrc :=
  match default m with
  | Some s => if truthy (Some s) then SrcString s else SrcModuleObject
  | None => SrcModuleObject
  end.

(** Line 79: the address of the fallback worker. *)
Definition fallback_src (lib : PdfJs) : WorkerSrc :=
  SrcString ("//cdnjs.cloudflare.com/ajax/libs/pdf.js/" ++ version lib ++ "/pdf.worker.mjs").

(** Lines 72-73: [true] when the set-up goes on to the dynamic import and
    waits for it, [false] when it is over at once. *)
Definition worker_setup (lib : PdfJs) : bool :=
  negb (src_truthy (workerSrc lib)).

(** Lines 74-80, once the import has settled; the library is read again at
    that moment. *)
Definition after_import (r : Settled WorkerModule) (lib : PdfJs)
  : PdfJs * list ConsoleEntry :=
  match r with
  | Fulfilled m => (mkPdfJs (module_src m) (version lib), [])
  | Rejected e =>
      let entry := ConsoleError "Error setting up PDF.js worker:" (Some e) in
      if negb (src_truthy (workerSrc lib))
      then (mkPdfJs (fallback_src lib) (version lib), [entry])
      else (lib, [entry])
  end.

(** ** What the template shows (lines 3-35) *)

(** [v-if="error"] on a value stored in [error.value]. *)
Definition error_truthy (e : ErrorValue) : bool :=
  match e with
  | ErrorObject _ _ => true
  | ErrorText s => negb (String.eqb s "")
  end.

(** [String(error)]: [Error.prototype.toString] for an error object, the
    string itself for a string. *)
Definition String_of_error (e : ErrorValue) : string :=
  match e with
  | ErrorObject name msg =>
      if String.eqb name "" then msg
      else if String.eqb msg "" then name
      else name ++ ": " ++ msg
  | ErrorText s => s
  end.

(** [s.includes(needle)] *)
Definition includes (s needle : string) : bool :=
  match String.index 0 needle s with
  | Some _ => true
  | None => false
  end.

(** Line 25: [:id="'input-' + box.element_id"] *)
Definition field_id (box : BoundingBox) : string :=
  "input-" ++ template (element_id box).

(** Which blocks of the template are rendered. *)
Record View : Type := mkView {
  loading_message : bool;        (* line 3 *)
  error_panel : bool;            (* line 4 *)
  config_hint : bool;            (* line 7, inside the error panel *)
  viewer : bool;                 (* line 12: the canvas and the field area *)
  field_ids : list string;       (* lines 20-29: one input per box *)
  no_boxes_note : bool           (* line 31 *)
}.

Definition render (w : World) : View :=
  let failed := match error w with
                | Some e => error_truthy e
                | None => false
                end in
  let hint := match error w with
              | Some e => includes (String_of_error e) "API base URL is not configured"
              | None => false
              end in
  let shown := negb (isLoading w) && negb failed in
  let some_boxes := negb (Nat.eqb (List.length (boundingBoxes w)) 0) in
  mkView (isLoading w)
         failed
         (failed && hint)
         shown
         (if shown && some_boxes then map field_id (boundingBoxes w) else [])
         (shown && negb some_boxes).

(** ** The template's part of the document (lines 12-29)

    Vue patches the document after the script has handled an event and
    before the next one is handled: the canvas of line 15 and the fields of
    lines 20-29 are in the document exactly while the block of line 12 is
    shown.  A canvas that appears is a new element: blank, of the default
    size, with no listener; a field that goes takes the focus with it. *)
Definition new_canvas : Canvas :=
  mkCanvas 300 150 (Some (mkContext [] "#000000" 1)) false.

Definition patch_document (w : World) : World :=
  let v := render w in
  let (base, cur, boxes, url, loading, err, view, cv, _, focus, eff, con) := w in
  mkWorld base cur boxes url loading err view
          (if viewer v
           then match cv with
                | Some c => Some c
                | None => Some new_canvas
                end
           else None)
          (field_ids v)
          (match focus with
           | Some i => if existsb (String.eqb i) (field_ids v) then Some i else None
           | None => None
           end)
          eff con.

(** The component alone: the document holds no canvas and no field but the
    template's, patched in after every event. *)
Definition step_alone (s : System) (e : Event) : System :=
  let s' := step s e in
  mkSystem (patch_document (world s')) (tasks s').

Definition run_alone (s : System) (events : list Event) : System :=
  fold_left step_alone events s.

(** The component as the top level of the script creates it (lines 58-67),
    rendered for the first time, with nothing pending. *)
Definition created (base : option string) (id : string) : System :=
  mkSystem (patch_document (mkWorld base id [] None true None None None [] None [] [])) [].

(** ** Scenarios and notions used in the statements *)

(** Events that start a call of [fetchPdfData]. *)
Definition starts_call (e : Event) : bool :=
  match e with
  | Mounted | RouteChanged _ => true
  | Settle _ _ | Click _ => false
  end.

(** Events in which a page request is fulfilled. *)
Definition page_arrives (e : Event) : bool :=
  match e with
  | Settle _ (PageSettled (Fulfilled _)) => true
  | _ => false
  end.

(** A suspended call that waits for the metadata. *)
Definition awaits_metadata (p : Pending) : bool :=
  match p with
  | AwaitMetadata _ => true
  | _ => false
  end.

(** A request for the metadata. *)
Definition is_fetch (x : Effect) : bool :=
  match x with
  | NetFetch _ => true
  | _ => false
  end.

(** A component that has no canvas, shows no viewer, has no transform, has
    called nothing but the metadata API and has no call suspended beyond the
    metadata request. *)
Definition never_rendered (s : System) : Prop :=
  canvas (world s) = None
  /\ viewer (render (world s)) = false
  /\ pdfPageView (world s) = None
  /\ forallb is_fetch (effects (world s)) = true
  /\ forallb awaits_metadata (tasks s) = true.


(** The point a click resolves against. *)
Definition click_point (event : MouseEvent) : float * float :=
  (clientX event - rect_left event, clientY event - rect_top event).

(** The centre of the screen rectangle of a box. *)
Definition screen_center (viewport : Viewport) (box : BoundingBox) : float * float :=
  (canvasX viewport box + canvasWidth viewport box / 2,
   canvasY viewport box + canvasHeight viewport box / 2).

(** The rational number a double stands for; the infinities and NaN stand
    for none. *)
Definition SF2Q (f : spec_float) : option Q :=
  match f with
  | S754_zero _ => Some 0%Q
  | S754_finite s m e =>
      Some ((if s then - inject_Z (Zpos m) else inject_Z (Zpos m)) * 2 ^ e)%Q
  | S754_infinity _ | S754_nan => None
  end.

Definition value (f : float) : option Q := SF2Q (Prim2SF f).

(** The double [f] is finite and stands for the rational [q]. *)
Definition stands_for (f : float) (q : Q) : bool :=
  match value f with
  | Some r => Qeq_bool r q
  | None => false
  end.

(** *** Doubles in units

    For the order of sums the rationals are unwieldy: every finite double
    is a whole multiple of 2^-1074, and the definitions below count in that
    unit.  They describe what [SpecFloat] does when it rounds an exact
    mantissa to 53 bits. *)

Section Binary64.
Local Open Scope Z_scope.

(** How many low bits of a mantissa do not fit. *)
Definition excess (M : positive) : Z := Z.max (Zpos (digits2_pos M) - 53) 0.

(** Round to nearest, ties to even, when the [n] low bits of [M] go. *)
Definition round_up (M n : Z) : bool :=
  (2 ^ n <? 2 * (M mod 2 ^ n)) || ((2 ^ n =? 2 * (M mod 2 ^ n)) && Z.odd (M / 2 ^ n)).

Definition rounded (M n : Z) : Z :=
  M / 2 ^ n + (if round_up M n then 1 else 0).

(** Everything a double can stand for is a multiple of 2^-1074: values are
    counted in that unit. *)
Definition units (m e : Z) : Z := m * 2 ^ (e + 1074).

(** The rounded value of the mantissa [M] at exponent [e], before the check
    for overflow. *)
Definition rho (M : positive) (e : Z) : Z :=
  units (rounded (Zpos M) (excess M)) (e + excess M).

(** The overflow threshold, 2^1024, in units. *)
Definition OV : Z := 2 ^ 2098.

(** What a double stands for, in units of 2^-1074; the infinities stand
    for the overflow threshold, NaN for nothing. *)
Definition key (f : spec_float) : option Z :=
  match f with
  | S754_zero _ => Some 0
  | S754_infinity s => Some (if s then - OV else OV)
  | S754_nan => None
  | S754_finite s m e => Some (if s then - units (Zpos m) e else units (Zpos m) e)
  end.

(** The rounded and clamped value of a signed mantissa. *)
Definition rhoZ (M e : Z) : Z :=
  match M with
  | 0 => 0
  | Zpos p => Z.min OV (rho p e)
  | Zneg p => - Z.min OV (rho p e)
  end.

Definition finite_or_zero (f : spec_float) : bool :=
  match f with
  | S754_zero _ | S754_finite _ _ _ => true
  | _ => false
  end.

(** The double 2. *)
Definition two_SF : spec_float := S754_finite false 4503599627370496 (-51).

End Binary64.

(** A box whose scaled left edge overflows to -infinity and whose scaled
    width overflows to +infinity (both about 1.24e308 in magnitude). *)
Definition overflowing_box : BoundingBox :=
  mkBox (Some "wide") None (-0x1.6p+1023) 0 0x1.6p+1023 10 "".

(** Scenario A of the specification: a click at (50*1.5+5, 100*1.5+5). *)
Definition scenarioA_world : World :=
  mkWorld (Some "https://api.example.com") "doc1" [Sample.box1; Sample.box2]
          (Some "https://x/doc.pdf") false None (Some Sample.viewport15)
          (Some Sample.blank_canvas) ["input-box1"; "input-box2"] None [] [].

Definition scenarioA_click : MouseEvent := mkMouseEvent 80 155 0 0.

(** The two variants of the Nuxt configuration: [src/nuxt.config.ts] has no
    [runtimeConfig] (the key is undefined), the other one ships the
    placeholder. *)
Definition nuxt_config_apiBaseUrl : option string := None.
Definition nuxt_config_with_runtime_apiBaseUrl : option string := Some placeholder.

(** The [await]s still ahead of a call. *)
Definition remaining (p : option Pending) : nat :=
  match p with
  | None => 0
  | Some (AwaitRender _ _ _) => 1
  | Some (AwaitPage _ _) => 2
  | Some (AwaitDocument _) => 3
  | Some (AwaitMetadata _) => 4
  end.

(** Scenario D: the component shows "doc1" and the route moves to "doc2". *)
Definition ready_doc1 : World :=
  mkWorld (Some "https://api.example.com") "doc1" [Sample.box1]
          (Some "https://x/doc1.pdf") false None (Some Sample.viewport15)
          (Some (mkCanvas 600 800
                   (Some (mkContext [PageImage "doc1.pdf#1" Sample.viewport15] "red" 2))
                   true))
          ["input-box1"] None [] [].

Definition outline (style : string) (line : float) (viewport : Viewport) (box : BoundingBox)
  : Paint :=
  Outline style line (canvasX viewport box) (canvasY viewport box)
          (canvasWidth viewport box) (canvasHeight viewport box).

Definition stroke_effect (viewport : Viewport) (box : BoundingBox) : Effect :=
  StrokeRect (canvasX viewport box) (canvasY viewport box)
             (canvasWidth viewport box) (canvasHeight viewport box).

(** The collaborators of the failing run: the metadata are fine, the engine
    rejects the document. *)
Definition engine_rejecting_document : Engine :=
  mkEngine (Sample.ok_metadata "https://x/doc.pdf" [Sample.box1])
           (Rejected (ErrorObject "InvalidPDFException" "Invalid PDF structure."))
           (Fulfilled Sample.page1) (Fulfilled tt).

Definition doc1_box : BoundingBox := mkBox (Some "d1-title") None 10 10 100 20 "one".
Definition doc2_box : BoundingBox := mkBox (Some "d2-title") None 30 40 80 25 "two".

Definition doc1_page : PdfPage := mkPage "doc1.pdf#1" (fun s => mkViewport s 600 800).
Definition doc2_page : PdfPage := mkPage "doc2.pdf#1" (fun s => mkViewport s 900 1200).

(** "doc1" is mounted; the route moves to "doc2" while the metadata request
    of "doc1" is still pending; the cycle of "doc2" runs to its end; then
    the request of "doc1" resolves and its cycle runs to its end. *)
Definition late_doc1_events : list Event :=
  [ Mounted;
    RouteChanged (ParamString "doc2");
    Settle 1 (MetadataSettled (Sample.ok_metadata "https://x/doc2.pdf" [doc2_box]));
    Settle 1 (DocumentSettled (Fulfilled (mkDocument "https://x/doc2.pdf")));
    Settle 1 (PageSettled (Fulfilled doc2_page));
    Settle 1 (RenderSettled (Fulfilled tt));
    Settle 0 (MetadataSettled (Sample.ok_metadata "https://x/doc1.pdf" [doc1_box]));
    Settle 0 (DocumentSettled (Fulfilled (mkDocument "https://x/doc1.pdf")));
    Settle 0 (PageSettled (Fulfilled doc1_page));
    Settle 0 (RenderSettled (Fulfilled tt)) ].

Definition mounted_doc1 : System :=
  mkSystem (Sample.initial (Some "https://api.example.com") "doc1") [].

(** * Properties *)

(** Takes a world apart, down to its canvas and the canvas's context. *)
Ltac world_cases w :=
  let cv := fresh "cv" in
  destruct w as [? ? ? ? ? ? ? cv ? ? ? ?];
  destruct cv as [[? ? [[? ? ?]|] ?]|].

(** Reduces the field updates and the reads of a world whose fields are
    explicit. *)
Ltac world_norm :=
  cbv [on_canvas with_context set_canvas set_bitmap set_clickListener set_cheight
       set_cwidth print emit
       set_pdfId set_boundingBoxes set_pdfFileUrl set_isLoading set_error
       set_pdfPageView set_activeElement
       apiBaseUrl pdfId boundingBoxes pdfFileUrl isLoading error pdfPageView canvas
       inputs activeElement effects console cwidth cheight context2d clickListener
       bitmap strokeStyle lineWidth option_map fst snd].

(** Runs the functions of the component on such a world. *)
Ltac run_code :=
  cbv [fetchPdfData afterMetadata loadAndRenderPdf afterDocument afterPage afterRender
       throw_fetch catch_fetch finally_fetch catch_render clear_canvas clearRect_all
       reset_for watch_pdfId onMounted raster
       on_canvas with_context set_canvas set_bitmap set_clickListener set_cheight
       set_cwidth print emit
       set_pdfId set_boundingBoxes set_pdfFileUrl set_isLoading set_error
       set_pdfPageView set_activeElement
       apiBaseUrl pdfId boundingBoxes pdfFileUrl isLoading error pdfPageView canvas
       inputs activeElement effects console cwidth cheight context2d clickListener
       bitmap strokeStyle lineWidth option_map fst snd
       data fetch_error cloudStoragePath boundingBoxes_field].

(** ** Hit-test *)

Section HitTest.

Variable viewport : Viewport.
Variables px py : float.

Lemma click_loop_miss (boxes : list BoundingBox) (w : World) :
  (forall box, In box boxes -> containsPoint viewport box px py = false) ->
  click_loop viewport px py boxes w = w.
Proof.
  induction boxes as [|b rest IH]; intros Hmiss; simpl.
  - reflexivity.
  - rewrite (Hmiss b (or_introl eq_refl)).
    apply IH. intros box Hin. apply Hmiss. now right.
Qed.

Lemma click_loop_first (boxes : list BoundingBox) (w : World) :
  forall i box,
    nth_error boxes i = Some box ->
    containsPoint viewport box px py = true ->
    (forall j box', (j < i)%nat -> nth_error boxes j = Some box' ->
                    containsPoint viewport box' px py = false) ->
    click_loop viewport px py boxes w = focus_box box w.
Proof.
  induction boxes as [|b rest IH]; intros i box Hnth Hin Hbefore.
  - destruct i; discriminate.
  - destruct i as [|i]; simpl in *.
    + injection Hnth as ->. now rewrite Hin.
    + rewrite (Hbefore 0%nat b (Nat.lt_0_succ i) eq_refl).
      apply (IH i box Hnth Hin).
      intros j box' Hj Hnth'. apply (Hbefore (S j) box'); [lia | exact Hnth'].
Qed.

End HitTest.

(** C1. With a transform of positive scale, a click resolves to the box of
    lowest index, in the order of [boundingBoxes] (the order of the server
    response), whose screen rectangle contains the point; the click changes
    nothing when no box contains the point, and nothing when there is no
    transform yet. *)
Theorem handleCanvasClick_first_box (w : World) (event : MouseEvent) :
  (forall viewport,
      pdfPageView w = Some viewport ->
      (0 <? scale viewport) = true ->
      (forall i box,
          nth_error (boundingBoxes w) i = Some box ->
          containsPoint viewport box (fst (click_point event)) (snd (click_point event)) = true ->
          (forall j box', (j < i)%nat -> nth_error (boundingBoxes w) j = Some box' ->
             containsPoint viewport box' (fst (click_point event)) (snd (click_point event))
             = false) ->
          handleCanvasClick event w = focus_box box w)
      /\ ((forall box, In box (boundingBoxes w) ->
             containsPoint viewport box (fst (click_point event)) (snd (click_point event))
             = false) ->
          handleCanvasClick event w = w))
  /\ (pdfPageView w = None -> handleCanvasClick event w = w).
Proof.
  unfold handleCanvasClick, click_point; simpl. split.
  - intros viewport Hview _. rewrite Hview. split.
    + intros i box. apply click_loop_first.
    + apply click_loop_miss.
  - intros ->. reflexivity.
Qed.

Lemma handleCanvasClick_first_box_witness :
  (0 <? scale Sample.viewport15) = true
  /\ handleCanvasClick scenarioA_click scenarioA_world
     = focus_box Sample.box1 scenarioA_world.
Proof.
  split; [reflexivity|].
  apply (proj1 (proj1 (handleCanvasClick_first_box scenarioA_world scenarioA_click)
                      Sample.viewport15 eq_refl eq_refl)
               0%nat Sample.box1 eq_refl).
  - vm_compute. reflexivity.
  - intros j box' Hj. lia.
Defined.

Example scenarioA_focus :
  activeElement (handleCanvasClick scenarioA_click scenarioA_world) = Some "input-box1".
Proof. vm_compute. reflexivity. Qed.

(** Scenario A from the mount on: the cycle ends ready, with the box of the
    payload and the transform of the render, and the click gives the focus
    to the field of "box1". *)
Example scenarioA_run :
  let start :=
    mkSystem (mkWorld (Some "https://api.example.com") "doc1" [] None true None None
                      (Some Sample.blank_canvas) ["input-box1"] None [] []) [] in
  let s := run start
             [ Mounted;
               Settle 0 (MetadataSettled (Sample.ok_metadata "https://x/doc.pdf" [Sample.box1]));
               Settle 0 (DocumentSettled (Fulfilled (mkDocument "https://x/doc.pdf")));
               Settle 0 (PageSettled (Fulfilled Sample.page1));
               Settle 0 (RenderSettled (Fulfilled tt));
               Click scenarioA_click ] in
  tasks s = []
  /\ isLoading (world s) = false /\ error (world s) = None
  /\ boundingBoxes (world s) = [Sample.box1]
  /\ pdfPageView (world s) = Some Sample.viewport15
  /\ activeElement (world s) = Some "input-box1".
Proof. vm_compute. repeat split. Qed.

(** Two overlapping boxes: the earlier one wins even though the later one is
    smaller and also contains the point. *)
Example overlap_resolves_to_earlier :
  let big := mkBox (Some "big") None 0 0 100 100 "" in
  let small := mkBox (Some "small") None 10 10 5 5 "" in
  let w := set_boundingBoxes [big; small] scenarioA_world in
  let click := mkMouseEvent 18 18 0 0 in
  containsPoint Sample.viewport15 small 18 18 = true
  /\ handleCanvasClick click w = focus_box big w.
Proof. vm_compute. split; reflexivity. Qed.

(** ** Doubles and the numbers they stand for *)

Lemma digits2_pos_bounds (m : positive) :
  (2 ^ (Zpos (digits2_pos m) - 1) <= Zpos m < 2 ^ Zpos (digits2_pos m))%Z.
Proof.
  induction m as [m IH | m IH |]; cbn [digits2_pos].
  - rewrite Pos2Z.inj_succ.
    replace (Z.succ (Zpos (digits2_pos m)) - 1)%Z with (Zpos (digits2_pos m)) by lia.
    rewrite Z.pow_succ_r by lia.
    assert (E : (2 ^ Zpos (digits2_pos m) = 2 * 2 ^ (Zpos (digits2_pos m) - 1))%Z).
    { rewrite <- Z.pow_succ_r by lia. f_equal. lia. }
    lia.
  - rewrite Pos2Z.inj_succ.
    replace (Z.succ (Zpos (digits2_pos m)) - 1)%Z with (Zpos (digits2_pos m)) by lia.
    rewrite Z.pow_succ_r by lia.
    assert (E : (2 ^ Zpos (digits2_pos m) = 2 * 2 ^ (Zpos (digits2_pos m) - 1))%Z).
    { rewrite <- Z.pow_succ_r by lia. f_equal. lia. }
    lia.
  - cbn. lia.
Qed.

(** Two canonical mantissas at different exponents: the one at the larger
    exponent is the larger number. *)
Lemma canonical_order (m1 m2 : positive) (e1 e2 : Z) :
  canonical_mantissa prec emax m1 e1 = true ->
  canonical_mantissa prec emax m2 e2 = true ->
  (e2 < e1)%Z ->
  (Zpos m2 < Zpos m1 * 2 ^ (e1 - e2))%Z.
Proof.
  unfold canonical_mantissa, fexp, SpecFloat.emin, prec, emax.
  intros H1 H2 He.
  apply Z.eqb_eq in H1. apply Z.eqb_eq in H2.
  assert (D1 : Zpos (digits2_pos m1) = 53%Z) by lia.
  assert (D2 : (Zpos (digits2_pos m2) <= 53)%Z) by lia.
  pose proof (digits2_pos_bounds m1) as B1.
  pose proof (digits2_pos_bounds m2) as B2.
  rewrite D1 in B1.
  assert (P2 : (2 ^ Zpos (digits2_pos m2) <= 2 ^ 53)%Z)
    by (apply Z.pow_le_mono_r; lia).
  assert (P1 : (2 ^ 1 <= 2 ^ (e1 - e2))%Z) by (apply Z.pow_le_mono_r; lia).
  change (2 ^ 1)%Z with 2%Z in P1.
  change (53 - 1)%Z with 52%Z in B1.
  assert (E : (2 ^ 53 = 2 * 2 ^ 52)%Z) by reflexivity.
  nia.
Qed.

Lemma Qpow2_pos (e : Z) : (0 < 2 ^ e)%Q.
Proof. apply Qpower_0_lt. reflexivity. Qed.

Lemma Qpow2_split (m : Z) (e e0 : Z) :
  (e0 <= e)%Z ->
  (inject_Z m * 2 ^ e == inject_Z (m * 2 ^ (e - e0)) * 2 ^ e0)%Q.
Proof.
  intros He.
  replace e with ((e - e0) + e0)%Z at 1 by lia.
  rewrite Qpower_plus by discriminate.
  rewrite inject_Z_mult.
  rewrite (Zpower_Qpower 2 (e - e0)) by lia.
  change (inject_Z 2) with 2%Q.
  ring.
Qed.

Lemma Qscaled_le (a b : Z) (e : Z) :
  (inject_Z a * 2 ^ e <= inject_Z b * 2 ^ e)%Q -> (a <= b)%Z.
Proof.
  intros H. rewrite Zle_Qle.
  apply Qmult_le_r with (z := (2 ^ e)%Q); [apply Qpow2_pos | exact H].
Qed.

Lemma Qfinite_pos (m : positive) (e : Z) : (0 < inject_Z (Zpos m) * 2 ^ e)%Q.
Proof.
  apply Qmult_lt_0_compat; [| apply Qpow2_pos].
  unfold Qlt. cbn. lia.
Qed.

(** Two finite doubles of the same sign: the order of the numbers they stand
    for, read off their exponents and mantissas. *)
Lemma magnitude_le (m1 m2 : positive) (e1 e2 : Z) :
  canonical_mantissa prec emax m1 e1 = true ->
  canonical_mantissa prec emax m2 e2 = true ->
  (inject_Z (Zpos m1) * 2 ^ e1 <= inject_Z (Zpos m2) * 2 ^ e2)%Q <->
  match Z.compare e1 e2 with
  | Lt => True
  | Gt => False
  | Eq => (m1 <= m2)%positive
  end.
Proof.
  intros C1 C2.
  destruct (Z.compare_spec e1 e2) as [E | L | G].
  - subst e2. split.
    + intros H. apply Qscaled_le in H. exact H.
    + intros H. apply Qmult_le_r; [apply Qpow2_pos |].
      rewrite <- Zle_Qle. exact H.
  - split; [trivial | intros _].
    pose proof (canonical_order m2 m1 e2 e1 C2 C1 L) as O.
    rewrite (Qpow2_split (Zpos m2) e2 e1) by lia.
    apply Qmult_le_r; [apply Qpow2_pos |].
    rewrite <- Zle_Qle. lia.
  - split; [intros H | contradiction].
    pose proof (canonical_order m1 m2 e1 e2 C1 C2 G) as O.
    rewrite (Qpow2_split (Zpos m1) e1 e2) in H by lia.
    apply Qscaled_le in H. lia.
Qed.

Lemma Qopp_finite (m : positive) (e : Z) :
  (- inject_Z (Zpos m) * 2 ^ e == - (inject_Z (Zpos m) * 2 ^ e))%Q.
Proof. ring. Qed.

(** [SFleb] on valid finite doubles is the order of the rationals they
    stand for. *)
Lemma SFleb_value (f1 f2 : spec_float) (q1 q2 : Q) :
  valid_binary f1 = true -> valid_binary f2 = true ->
  SF2Q f1 = Some q1 -> SF2Q f2 = Some q2 ->
  SFleb f1 f2 = true <-> (q1 <= q2)%Q.
Proof.
  intros V1 V2 E1 E2.
  destruct f1 as [z1 | i1 | | s1 m1 e1]; try discriminate;
    destruct f2 as [z2 | i2 | | s2 m2 e2]; try discriminate;
    cbn [SF2Q] in E1, E2; injection E1 as <-; injection E2 as <-.
  - cbn. split; [intros _; apply Qle_refl | reflexivity].
  - pose proof (Qfinite_pos m2 e2) as P.
    destruct s2; cbn; rewrite ?Qopp_finite;
      set (a2 := (inject_Z (Zpos m2) * 2 ^ e2)%Q) in *;
      (split; intros H); try discriminate; try reflexivity; lra.
  - pose proof (Qfinite_pos m1 e1) as P.
    destruct s1; cbn; rewrite ?Qopp_finite;
      set (a1 := (inject_Z (Zpos m1) * 2 ^ e1)%Q) in *;
      (split; intros H); try discriminate; try reflexivity; lra.
  - cbn [valid_binary bounded] in V1, V2.
    apply andb_true_iff in V1 as [C1 _]. apply andb_true_iff in V2 as [C2 _].
    pose proof (Qfinite_pos m1 e1) as P1. pose proof (Qfinite_pos m2 e2) as P2.
    pose proof (magnitude_le m1 m2 e1 e2 C1 C2) as M12.
    pose proof (magnitude_le m2 m1 e2 e1 C2 C1) as M21.
    rewrite (Z.compare_antisym e1 e2) in M21.
    unfold SFleb, SFcompare.
    change (Pos.compare_cont Eq m1 m2) with (Pos.compare m1 m2).
    destruct s1, s2; rewrite ?Qopp_finite;
      revert M12 M21 P1 P2;
      generalize (inject_Z (Zpos m1) * 2 ^ e1)%Q; intros a1;
      generalize (inject_Z (Zpos m2) * 2 ^ e2)%Q; intros a2;
      intros M12 M21 P1 P2;
      destruct (e1 ?= e2)%Z; cbn [CompOpp] in M12, M21 |- *;
      try destruct (Pos.compare_spec m1 m2); cbn [CompOpp];
      split; intros Hle; try reflexivity; try discriminate; try lra;
      try (exfalso; lra);
      try (apply M12; lia); try (apply M21; lia);
      try (exfalso; apply M12; lra); try (exfalso; apply M21; lra).
    all: try (assert (a2 <= a1)%Q by (apply M21; lia); lra).
    all: try (assert (a1 <= a2)%Q by (apply M12; lia); lra).
    all: try (exfalso; assert ((m2 <= m1)%positive) by (apply M21; lra); lia).
    all: try (exfalso; assert ((m1 <= m2)%positive) by (apply M12; lra); lia).
Qed.

Lemma leb_value (a b : float) (qa qb : Q) :
  value a = Some qa -> value b = Some qb ->
  (a <=? b) = true <-> (qa <= qb)%Q.
Proof.
  intros Ea Eb. rewrite leb_spec.
  apply SFleb_value; auto using Prim2SF_valid.
Qed.

Lemma ltb_zero_value (a : float) (q : Q) :
  value a = Some q -> (0 <? a) = true -> (0 < q)%Q.
Proof.
  unfold value. rewrite ltb_spec.
  change (Prim2SF 0) with (S754_zero false).
  destruct (Prim2SF a) as [z | i | | s m e]; try discriminate;
    cbn [SF2Q]; intros E; injection E as <-; unfold SFltb, SFcompare.
  destruct s; [discriminate | intros _; apply Qfinite_pos].
Qed.

Lemma stands_for_spec (f : float) (q : Q) :
  stands_for f q = true -> exists r, value f = Some r /\ (r == q)%Q.
Proof.
  unfold stands_for. destruct (value f) as [r|]; [|discriminate].
  intros H. apply Qeq_bool_iff in H. now exists r.
Qed.

Lemma leb_stands_for (a b : float) (qa qb : Q) :
  stands_for a qa = true -> stands_for b qb = true ->
  (a <=? b) = true <-> (qa <= qb)%Q.
Proof.
  intros Ha Hb.
  apply stands_for_spec in Ha as (ra & Va & Ea).
  apply stands_for_spec in Hb as (rb & Vb & Eb).
  rewrite (leb_value a b ra rb Va Vb), Ea, Eb. reflexivity.
Qed.

(** Nothing lies between two finite doubles that are in the wrong order:
    no double, finite or not. *)
Lemma leb_between_empty (a b p : float) (qa qb : Q) :
  stands_for a qa = true -> stands_for b qb = true -> (qb < qa)%Q ->
  (a <=? p) && (p <=? b) = false.
Proof.
  intros Ha Hb Hlt.
  apply stands_for_spec in Ha as (ra & Va & Ea).
  apply stands_for_spec in Hb as (rb & Vb & Eb).
  destruct (value p) as [rp|] eqn:Vp.
  - destruct (a <=? p) eqn:L1; [|reflexivity].
    destruct (p <=? b) eqn:L2; [|reflexivity].
    apply (leb_value a p ra rp Va Vp) in L1.
    apply (leb_value p b rp rb Vp Vb) in L2.
    rewrite Ea in L1. rewrite Eb in L2. exfalso. lra.
  - rewrite !leb_spec. unfold value in *.
    destruct (Prim2SF p) as [zp | [|] | | sp mp ep]; try discriminate;
      destruct (Prim2SF a) as [za | ia | | sa ma ea]; try discriminate;
      destruct (Prim2SF b) as [zb | ib | | sb mb eb]; try discriminate;
      cbn; try reflexivity; destruct sa; reflexivity.
Qed.

(** ** Rounding is monotone *)

Section Rounding.
Local Open Scope Z_scope.

Lemma digits2_pos_unique (m : positive) (k : Z) :
  2 ^ (k - 1) <= Zpos m < 2 ^ k -> Zpos (digits2_pos m) = k.
Proof.
  intros [Hl Hu].
  pose proof (digits2_pos_bounds m) as [Bl Bu].
  assert (Hk : 0 < k).
  { destruct (Z.ltb_spec 0 k) as [|Hk]; [assumption|].
    destruct (Z.eq_dec k 0) as [->|]; [cbn in Hu; lia|].
    rewrite Z.pow_neg_r in Hu by lia. lia. }
  assert (A : Zpos (digits2_pos m) - 1 < k).
  { apply (Z.pow_lt_mono_r_iff 2); lia. }
  assert (B : k - 1 < Zpos (digits2_pos m)).
  { apply (Z.pow_lt_mono_r_iff 2); lia. }
  lia.
Qed.

(** ** Shifting right with round and sticky bits *)

Lemma iter_pos_nat {A : Type} (f : A -> A) (p : positive) (x : A) :
  SpecFloat.iter_pos f p x = Nat.iter (Pos.to_nat p) f x.
Proof.
  revert x. induction p as [p IH | p IH |]; intros x; cbn [SpecFloat.iter_pos].
  - rewrite !IH. rewrite Pos2Nat.inj_xI. rewrite Nat.iter_succ_r.
    replace (2 * Pos.to_nat p)%nat with (Pos.to_nat p + Pos.to_nat p)%nat by lia.
    now rewrite Nat.iter_add.
  - rewrite !IH. rewrite Pos2Nat.inj_xO.
    replace (2 * Pos.to_nat p)%nat with (Pos.to_nat p + Pos.to_nat p)%nat by lia.
    now rewrite Nat.iter_add.
  - reflexivity.
Qed.

(** One shift of a non-negative mantissa. *)
Lemma shr_1_nonneg (m : Z) (r s : bool) :
  0 <= m ->
  shr_1 (Build_shr_record m r s) = Build_shr_record (m / 2) (Z.odd m) (r || s).
Proof.
  intros Hm. destruct m as [|p|p]; [reflexivity | | lia].
  destruct p as [p|p|]; cbn [shr_1].
  - f_equal. rewrite Pos2Z.inj_xI. symmetry.
    rewrite (Z.mul_comm 2). now rewrite Z.div_add_l by lia.
  - f_equal. rewrite Pos2Z.inj_xO. symmetry.
    rewrite (Z.mul_comm 2). now rewrite Z.div_mul by lia.
  - reflexivity.
Qed.

Lemma mod_pow2_succ (M : Z) (n : Z) :
  0 <= n ->
  M mod 2 ^ (n + 1) = M mod 2 ^ n + 2 ^ n * ((M / 2 ^ n) mod 2).
Proof.
  intros Hn. rewrite Z.pow_add_r by lia. change (2 ^ 1) with 2.
  rewrite Z.rem_mul_r by lia. reflexivity.
Qed.

(** [n + 1] shifts of an exact non-negative mantissa: the quotient, the bit
    shifted out last, and whether anything below it was set. *)
Lemma shr_iter (M : Z) (n : nat) :
  0 <= M ->
  Nat.iter (S n) shr_1 (Build_shr_record M false false)
  = Build_shr_record (M / 2 ^ (Z.of_nat n + 1))
                     (Z.odd (M / 2 ^ Z.of_nat n))
                     (negb (M mod 2 ^ Z.of_nat n =? 0)).
Proof.
  intros HM. induction n as [|n IH].
  - cbn [Nat.iter]. rewrite shr_1_nonneg by exact HM.
    cbn [Z.of_nat Z.add Z.pow Z.pow_pos Pos.iter Z.mul Pos.mul].
    rewrite Z.div_1_r, Z.mod_1_r. reflexivity.
  - change (Nat.iter (S (S n)) shr_1 ?x) with (shr_1 (Nat.iter (S n) shr_1 x)).
    rewrite IH. rewrite shr_1_nonneg by (apply Z.div_pos; lia).
    rewrite Nat2Z.inj_succ.
    replace (Z.succ (Z.of_nat n)) with (Z.of_nat n + 1) by lia.
    f_equal.
    + rewrite Z.div_div by lia.
      now rewrite (Z.pow_add_r 2 (Z.of_nat n + 1) 1) by lia.
    + rewrite (mod_pow2_succ M (Z.of_nat n)) by lia.
      pose proof (Z.mod_pos_bound M (2 ^ Z.of_nat n) ltac:(lia)) as B.
      pose proof (Z.mod_pos_bound (M / 2 ^ Z.of_nat n) 2 ltac:(lia)) as B2.
      rewrite Zodd_mod.
      destruct (Z.eqb_spec ((M / 2 ^ Z.of_nat n) mod 2) 1) as [E|E];
        destruct (Z.eqb_spec (M mod 2 ^ Z.of_nat n) 0) as [E0|E0];
        cbn [negb orb];
        destruct (Z.eqb_spec (M mod 2 ^ Z.of_nat n
                              + 2 ^ Z.of_nat n * ((M / 2 ^ Z.of_nat n) mod 2)) 0);
        try reflexivity; exfalso; nia.
Qed.

(** ** Rounding an exact mantissa to 53 bits *)

Lemma rounded_0 (M : Z) : rounded M 0 = M.
Proof.
  unfold rounded, round_up. cbn [Z.pow]. rewrite Z.mod_1_r, Z.div_1_r.
  cbn. lia.
Qed.

Lemma rne_shifted (M : Z) (k : nat) :
  0 <= M ->
  let mrs := Nat.iter (S k) shr_1 (Build_shr_record M false false) in
  round_nearest_even (shr_m mrs) (loc_of_shr_record mrs)
  = rounded M (Z.of_nat k + 1).
Proof.
  intros HM. cbv zeta. rewrite (shr_iter M k HM). cbn [shr_m].
  unfold rounded, round_up.
  rewrite (mod_pow2_succ M (Z.of_nat k)) by lia.
  rewrite (Z.pow_add_r 2 (Z.of_nat k) 1) by lia. change (2 ^ 1) with 2.
  pose proof (Z.mod_pos_bound M (2 ^ Z.of_nat k) ltac:(lia)) as B.
  pose proof (Z.mod_pos_bound (M / 2 ^ Z.of_nat k) 2 ltac:(lia)) as B2.
  assert (P : 0 < 2 ^ Z.of_nat k) by lia.
  rewrite (Zodd_mod (M / 2 ^ Z.of_nat k)).
  rewrite <- Z.div_div by lia.
  set (t := M / 2 ^ Z.of_nat k / 2).
  set (b := (M / 2 ^ Z.of_nat k) mod 2) in *.
  set (l := M mod 2 ^ Z.of_nat k) in *.
  set (g := 2 ^ Z.of_nat k) in *.
  unfold loc_of_shr_record.
  destruct (Z.eqb_spec b 1) as [Eb|Eb]; destruct (Z.eqb_spec l 0) as [El|El];
    cbn [negb round_nearest_even].
  - (* tie *)
    rewrite El, Eb.
    replace (g * 2 <? 2 * (0 + g * 1)) with false by (symmetry; apply Z.ltb_ge; lia).
    replace (g * 2 =? 2 * (0 + g * 1)) with true by (symmetry; apply Z.eqb_eq; lia).
    cbn [orb andb]. rewrite <- Z.negb_even. destruct (Z.even t); cbn [negb]; lia.
  - rewrite Eb.
    replace (g * 2 <? 2 * (l + g * 1)) with true by (symmetry; apply Z.ltb_lt; lia).
    cbn [orb]. lia.
  - assert (b = 0) by lia. rewrite El. replace b with 0 by lia.
    replace (g * 2 <? 2 * (0 + g * 0)) with false by (symmetry; apply Z.ltb_ge; lia).
    replace (g * 2 =? 2 * (0 + g * 0)) with false by (symmetry; apply Z.eqb_neq; lia).
    cbn [orb andb]. lia.
  - assert (Hb : b = 0) by lia. rewrite Hb.
    replace (g * 2 <? 2 * (l + g * 0)) with false by (symmetry; apply Z.ltb_ge; lia).
    replace (g * 2 =? 2 * (l + g * 0)) with false by (symmetry; apply Z.eqb_neq; lia).
    cbn [orb andb]. lia.
Qed.

Lemma fexp_eq (x : Z) : fexp prec emax x = Z.max (x - 53) (-1074).
Proof. reflexivity. Qed.

Lemma shr_fexp_exact (M : positive) (e : Z) :
  -1074 <= e ->
  exists mrs,
    shr_fexp prec emax (Zpos M) e loc_Exact = (mrs, e + excess M)
    /\ round_nearest_even (shr_m mrs) (loc_of_shr_record mrs)
       = rounded (Zpos M) (excess M).
Proof.
  intros He. unfold shr_fexp, excess. cbn [Zdigits2 shr_record_of_loc].
  rewrite fexp_eq. set (d := Zpos (digits2_pos M)).
  destruct (Z.leb_spec d 53) as [Hd | Hd].
  - replace (Z.max (d - 53) 0) with 0 by lia.
    exists (Build_shr_record (Zpos M) false false). split.
    + unfold shr. destruct (Z.max (d + e - 53) (-1074) - e) eqn:E; f_equal; lia.
    + cbn [shr_m loc_of_shr_record round_nearest_even]. now rewrite rounded_0.
  - replace (Z.max (d - 53) 0) with (d - 53) by lia.
    replace (Z.max (d + e - 53) (-1074) - e) with (d - 53) by lia.
    destruct (d - 53) as [|p|p] eqn:E; try lia.
    unfold shr. rewrite iter_pos_nat.
    destruct (Pos.to_nat p) as [|k] eqn:Ek; [lia|].
    eexists. split; [reflexivity|].
    rewrite (rne_shifted (Zpos M) k) by lia.
    f_equal. lia.
Qed.

Lemma pow2_split (a b : Z) : 0 <= a -> 0 <= b -> 2 ^ (a + b) = 2 ^ a * 2 ^ b.
Proof. intros. now rewrite Z.pow_add_r. Qed.

(** The mantissa that stays when the excess bits go has exactly 53 bits. *)
Lemma kept_bounds (M : positive) :
  0 < excess M ->
  2 ^ 52 <= Zpos M / 2 ^ excess M < 2 ^ 53.
Proof.
  unfold excess. intros Hn.
  pose proof (digits2_pos_bounds M) as [Bl Bu].
  set (d := Zpos (digits2_pos M)) in *.
  replace (Z.max (d - 53) 0) with (d - 53) in * by lia.
  assert (P : 0 < 2 ^ (d - 53)) by (apply Z.pow_pos_nonneg; lia).
  split.
  - apply Z.div_le_lower_bound; [exact P|].
    rewrite <- pow2_split by lia. replace (d - 53 + 52) with (d - 1) by lia. exact Bl.
  - apply Z.div_lt_upper_bound; [exact P|].
    rewrite <- pow2_split by lia. replace (d - 53 + 53) with d by lia. exact Bu.
Qed.

Lemma rounded_range (M n : Z) :
  M / 2 ^ n <= rounded M n <= M / 2 ^ n + 1.
Proof. unfold rounded. destruct (round_up M n); lia. Qed.

Lemma rounded_bounds (M : positive) :
  0 < rounded (Zpos M) (excess M) <= 2 ^ 53.
Proof.
  destruct (Z.eq_dec (excess M) 0) as [E | E].
  - rewrite E, rounded_0. split; [lia|].
    unfold excess in E. pose proof (digits2_pos_bounds M) as [_ Bu].
    assert (2 ^ Zpos (digits2_pos M) <= 2 ^ 53) by (apply Z.pow_le_mono_r; lia). lia.
  - assert (Hn : 0 < excess M) by (unfold excess in *; lia).
    pose proof (kept_bounds M Hn). pose proof (rounded_range (Zpos M) (excess M)).
    lia.
Qed.

Lemma Zdigits2_small (m : Z) : 0 < m < 2 ^ 53 -> 0 < Zdigits2 m <= 53.
Proof.
  intros [Hp Hu]. destruct m as [|p|p]; try lia. cbn [Zdigits2].
  pose proof (digits2_pos_bounds p) as [Bl _]. split; [lia|].
  destruct (Z.leb_spec (Zpos (digits2_pos p)) 53) as [|H]; [assumption|].
  assert (2 ^ 53 <= 2 ^ (Zpos (digits2_pos p) - 1)) by (apply Z.pow_le_mono_r; lia). lia.
Qed.

(** The second pass of [binary_round_aux]: nothing to do, except when the
    rounding has carried into a 54th bit. *)
Lemma shr_fexp_again (m E : Z) :
  -1074 <= E -> 0 < m <= 2 ^ 53 ->
  shr_fexp prec emax m E loc_Exact
  = if m =? 2 ^ 53
    then (Build_shr_record (2 ^ 52) false false, E + 1)
    else (Build_shr_record m false false, E).
Proof.
  intros HE Hm. destruct (Z.eqb_spec m (2 ^ 53)) as [-> | Hne].
  - unfold shr_fexp. cbn [shr_record_of_loc]. rewrite fexp_eq.
    change (Zdigits2 (2 ^ 53)) with 54.
    replace (Z.max (54 + E - 53) (-1074) - E) with 1 by lia.
    reflexivity.
  - pose proof (Zdigits2_small m ltac:(lia)) as D.
    unfold shr_fexp. cbn [shr_record_of_loc]. rewrite fexp_eq.
    unfold shr. destruct (Z.max (Zdigits2 m + E - 53) (-1074) - E) eqn:Eq; f_equal; lia.
Qed.

(** What [binary_round_aux] makes of an exact mantissa. *)
Lemma binary_round_aux_exact (s : bool) (M : positive) (e : Z) :
  -1074 <= e ->
  binary_round_aux prec emax s (Zpos M) e loc_Exact
  = if rounded (Zpos M) (excess M) =? 2 ^ 53
    then if e + excess M + 1 <=? 971
         then S754_finite s (Z.to_pos (2 ^ 52)) (e + excess M + 1)
         else S754_infinity s
    else if e + excess M <=? 971
         then S754_finite s (Z.to_pos (rounded (Zpos M) (excess M))) (e + excess M)
         else S754_infinity s.
Proof.
  intros He. unfold binary_round_aux.
  destruct (shr_fexp_exact M e He) as (mrs & -> & ->).
  pose proof (rounded_bounds M) as B.
  assert (Hn : 0 <= excess M) by (unfold excess; lia).
  rewrite (shr_fexp_again _ (e + excess M)) by lia.
  destruct (rounded (Zpos M) (excess M) =? 2 ^ 53) eqn:E.
  - reflexivity.
  - cbn [shr_m]. destruct (rounded (Zpos M) (excess M)) as [|m|m] eqn:R; try lia.
    reflexivity.
Qed.

(** ** The rounded value and its order *)

Lemma excess_nonneg (M : positive) : 0 <= excess M.
Proof. unfold excess. lia. Qed.

Lemma excess_0 (M : positive) : excess M = 0 -> Zpos M < 2 ^ 53.
Proof.
  unfold excess. intros E. pose proof (digits2_pos_bounds M) as [_ Bu].
  assert (2 ^ Zpos (digits2_pos M) <= 2 ^ 53) by (apply Z.pow_le_mono_r; lia). lia.
Qed.

Lemma small_excess (M : positive) : Zpos M < 2 ^ 53 -> excess M = 0.
Proof.
  intros H. pose proof (Zdigits2_small (Zpos M) ltac:(lia)) as D.
  cbn [Zdigits2] in D. unfold excess. lia.
Qed.

(** The facts about one rounding that the order argument uses. *)
Lemma rounding_facts (M : positive) (a : Z) :
  0 <= a ->
  let n := excess M in
  let t := Zpos M / 2 ^ n in
  let G := 2 ^ (a + n) in
  let V := Zpos M * 2 ^ a in
  let r := rounded (Zpos M) n in
  0 < G
  /\ t * G <= V < (t + 1) * G
  /\ (r = t \/ r = t + 1)
  /\ (r = t + 1 <-> G < 2 * (V - t * G) \/ G = 2 * (V - t * G) /\ Z.odd t = true)
  /\ (n = 0 -> r = Zpos M /\ Zpos M < 2 ^ 53)
  /\ (0 < n -> 2 ^ 52 <= t < 2 ^ 53).
Proof.
  intros Ha. cbv zeta.
  pose proof (excess_nonneg M) as Hn.
  set (n := excess M) in *.
  assert (Pa : 0 < 2 ^ a) by (apply Z.pow_pos_nonneg; lia).
  assert (Pn : 0 < 2 ^ n) by (apply Z.pow_pos_nonneg; lia).
  rewrite (pow2_split a n) by lia.
  pose proof (Z.div_mod (Zpos M) (2 ^ n) ltac:(lia)) as DM.
  pose proof (Z.mod_pos_bound (Zpos M) (2 ^ n) Pn) as RB.
  set (t := Zpos M / 2 ^ n) in *. set (l := Zpos M mod 2 ^ n) in *.
  assert (EV : Zpos M * 2 ^ a - t * (2 ^ a * 2 ^ n) = l * 2 ^ a) by (rewrite DM; ring).
  split; [nia|]. split; [nia|].
  split; [unfold rounded; fold t; destruct (round_up (Zpos M) n); lia|].
  split.
  - rewrite EV. unfold rounded, round_up. fold t l.
    destruct (Z.ltb_spec (2 ^ n) (2 * l)) as [L | L]; cbn [orb].
    + split; [intros _; left; nia | lia].
    + destruct (Z.eqb_spec (2 ^ n) (2 * l)) as [E | E]; cbn [andb].
      * destruct (Z.odd t) eqn:O.
        -- split; [intros _; right; split; [nia | reflexivity] | lia].
        -- split; [lia | intros [H | [_ H]]; [nia | discriminate]].
      * split; [lia | intros [H | [H _]]; nia].
  - split.
    + intros E. subst n. rewrite E. rewrite rounded_0. split; [reflexivity|].
      now apply excess_0.
    + intros H. exact (kept_bounds M H).
Qed.

Lemma pow2_double (x y : Z) : 0 <= x < y -> 2 * 2 ^ x <= 2 ^ y.
Proof.
  intros H. rewrite <- Z.pow_succ_r by lia. apply Z.pow_le_mono_r; lia.
Qed.

Lemma pow2_factor (x y : Z) : 0 <= x <= y -> 2 ^ y = 2 ^ x * 2 ^ (y - x).
Proof. intros H. rewrite <- pow2_split by lia. f_equal. lia. Qed.

(** No multiple of [G] lies strictly between two neighbouring ones. *)
Lemma between_multiples (K t G : Z) :
  0 < G -> t * G < K * G -> K * G < (t + 1) * G -> False.
Proof.
  intros HG H1 H2.
  apply Z.mul_lt_mono_pos_r in H1; [|exact HG].
  apply Z.mul_lt_mono_pos_r in H2; [|exact HG]. lia.
Qed.

(** A mantissa of at most 53 bits at a lower exponent stays below a
    53-bit mantissa at a higher one. *)
Lemma below_next_binade (m t g G : Z) :
  0 < g -> 2 * g <= G -> 0 < m < 2 ^ 53 -> 2 ^ 52 <= t ->
  m * g < t * G.
Proof.
  intros Hg HG Hm Ht.
  apply Z.lt_le_trans with (2 ^ 53 * g).
  - apply Z.mul_lt_mono_pos_r; lia.
  - apply Z.le_trans with (2 ^ 52 * G).
    + change (2 ^ 53) with (2 ^ 52 * 2). rewrite <- Z.mul_assoc.
      apply Z.mul_le_mono_nonneg_l; lia.
    + apply Z.mul_le_mono_nonneg_r; lia.
Qed.

Lemma upto_next_binade (m t g G : Z) :
  0 < g -> 2 * g <= G -> 0 < m <= 2 ^ 53 -> 2 ^ 52 <= t ->
  m * g <= t * G.
Proof.
  intros Hg HG Hm Ht.
  apply Z.le_trans with (2 ^ 53 * g).
  - apply Z.mul_le_mono_nonneg_r; lia.
  - apply Z.le_trans with (2 ^ 52 * G).
    + change (2 ^ 53) with (2 ^ 52 * 2). rewrite <- Z.mul_assoc.
      apply Z.mul_le_mono_nonneg_l; lia.
    + apply Z.mul_le_mono_nonneg_r; lia.
Qed.

(** Rounding is monotone. *)
Lemma rounding_order (M1 M2 : positive) (a1 a2 : Z) :
  0 <= a1 -> 0 <= a2 ->
  Zpos M1 * 2 ^ a1 <= Zpos M2 * 2 ^ a2 ->
  rounded (Zpos M1) (excess M1) * 2 ^ (a1 + excess M1)
  <= rounded (Zpos M2) (excess M2) * 2 ^ (a2 + excess M2).
Proof.
  intros Ha1 Ha2 HV.
  destruct (rounding_facts M1 a1 Ha1) as (PG1 & B1 & R1 & U1 & Z1 & N1).
  destruct (rounding_facts M2 a2 Ha2) as (PG2 & B2 & R2 & U2 & Z2 & N2).
  pose proof (excess_nonneg M1) as Hn1. pose proof (excess_nonneg M2) as Hn2.
  assert (Pa1 : 0 < 2 ^ a1) by (apply Z.pow_pos_nonneg; lia).
  assert (Pa2 : 0 < 2 ^ a2) by (apply Z.pow_pos_nonneg; lia).
  revert HV PG1 B1 R1 U1 Z1 N1 PG2 B2 R2 U2 Z2 N2.
  generalize (excess_nonneg M1) (excess_nonneg M2). clear Hn1 Hn2.
  generalize (excess M1) (excess M2). intros n1 n2 Hn1 Hn2.
  generalize (rounded (Zpos M1) n1) (rounded (Zpos M2) n2). intros r1 r2.
  generalize (Zpos M1 / 2 ^ n1) (Zpos M2 / 2 ^ n2). intros t1 t2.
  intros HV PG1 B1 R1 U1 Z1 N1 PG2 B2 R2 U2 Z2 N2.
  assert (L1 : r1 * 2 ^ (a1 + n1) <= (t1 + 1) * 2 ^ (a1 + n1))
    by (destruct R1 as [-> | ->]; lia).
  assert (L2 : t2 * 2 ^ (a2 + n2) <= r2 * 2 ^ (a2 + n2))
    by (destruct R2 as [-> | ->]; lia).
  destruct (Z.eq_dec n1 0) as [E1 | E1]; destruct (Z.eq_dec n2 0) as [E2 | E2].
  - (* both exact *)
    destruct (Z1 E1) as [-> _]. destruct (Z2 E2) as [-> _].
    rewrite E1, E2, !Z.add_0_r. exact HV.
  - (* the first exact, the second rounded *)
    destruct (Z1 E1) as [Hr1 S1]. rewrite Hr1, E1, Z.add_0_r.
    specialize (N2 ltac:(lia)).
    destruct (Z.le_gt_cases (Zpos M1 * 2 ^ a1) (t2 * 2 ^ (a2 + n2))) as [Hle | Hgt]; [lia|].
    exfalso.
    destruct (Z.le_gt_cases (a2 + n2) a1) as [Hge | Hlt].
    + rewrite (pow2_factor (a2 + n2) a1) in Hgt, HV by lia.
      apply (between_multiples (Zpos M1 * 2 ^ (a1 - (a2 + n2))) t2 (2 ^ (a2 + n2)) PG2); lia.
    + pose proof (pow2_double a1 (a2 + n2) ltac:(lia)) as D.
      pose proof (below_next_binade (Zpos M1) t2 (2 ^ a1) (2 ^ (a2 + n2))
                    Pa1 D ltac:(lia) ltac:(lia)).
      lia.
  - (* the first rounded, the second exact *)
    destruct (Z2 E2) as [Hr2 S2]. rewrite Hr2, E2, Z.add_0_r.
    specialize (N1 ltac:(lia)).
    destruct (Z.le_gt_cases ((t1 + 1) * 2 ^ (a1 + n1)) (Zpos M2 * 2 ^ a2)) as [Hle | Hgt];
      [lia|].
    destruct (Z.le_gt_cases (a1 + n1) a2) as [Hge | Hlt].
    + rewrite (pow2_factor (a1 + n1) a2) in Hgt, HV |- * by lia.
      set (K := Zpos M2 * 2 ^ (a2 - (a1 + n1))) in *.
      assert (HK : K = t1).
      { destruct (Z.lt_trichotomy K t1) as [H | [H | H]]; [|exact H|].
        - exfalso.
          assert (K * 2 ^ (a1 + n1) < t1 * 2 ^ (a1 + n1))
            by (apply Z.mul_lt_mono_pos_r; lia).
          unfold K in *. lia.
        - exfalso.
          assert ((t1 + 1) * 2 ^ (a1 + n1) <= K * 2 ^ (a1 + n1))
            by (apply Z.mul_le_mono_nonneg_r; lia).
          unfold K in *. lia. }
      replace (Zpos M2 * (2 ^ (a1 + n1) * 2 ^ (a2 - (a1 + n1))))
        with (K * 2 ^ (a1 + n1)) in * by (unfold K; ring).
      rewrite HK in *.
      destruct R1 as [-> | Hup]; [lia|].
      exfalso. apply U1 in Hup. lia.
    + exfalso. pose proof (pow2_double a2 (a1 + n1) ltac:(lia)) as D.
      pose proof (below_next_binade (Zpos M2) t1 (2 ^ a2) (2 ^ (a1 + n1))
                    Pa2 D ltac:(lia) ltac:(lia)).
      lia.
  - (* both rounded *)
    specialize (N1 ltac:(lia)). specialize (N2 ltac:(lia)).
    destruct (Z.lt_trichotomy (a1 + n1) (a2 + n2)) as [Hlt | [Heq | Hgt]].
    + pose proof (pow2_double (a1 + n1) (a2 + n2) ltac:(lia)) as D.
      pose proof (upto_next_binade (t1 + 1) t2 (2 ^ (a1 + n1)) (2 ^ (a2 + n2))
                    PG1 D ltac:(lia) ltac:(lia)).
      lia.
    + rewrite Heq in *.
      assert (Ht : t1 < t2 + 1).
      { apply (Z.mul_lt_mono_pos_r (2 ^ (a2 + n2))); lia. }
      destruct (Z.eq_dec t1 t2) as [Et | Et].
      * rewrite Et in *.
        destruct R2 as [Hr2' | Hr2']; [|destruct R1 as [-> | ->]; rewrite Hr2'; lia].
        destruct R1 as [-> | Hup]; [rewrite Hr2'; lia|].
        exfalso. apply U1 in Hup.
        assert (Hno : ~ (2 ^ (a2 + n2) < 2 * (Zpos M2 * 2 ^ a2 - t2 * 2 ^ (a2 + n2))
                         \/ 2 ^ (a2 + n2) = 2 * (Zpos M2 * 2 ^ a2 - t2 * 2 ^ (a2 + n2))
                            /\ Z.odd t2 = true)).
        { intros H. apply U2 in H. lia. }
        apply Hno. destruct Hup as [H | [H O]]; [left; lia|].
        destruct (Z.eq_dec (Zpos M1 * 2 ^ a1) (Zpos M2 * 2 ^ a2)) as [EV | EV];
          [right; split; [lia | exact O] | left; lia].
      * assert ((t1 + 1) * 2 ^ (a2 + n2) <= t2 * 2 ^ (a2 + n2))
          by (apply Z.mul_le_mono_nonneg_r; lia).
        lia.
    + exfalso. pose proof (pow2_double (a2 + n2) (a1 + n1) ltac:(lia)) as D.
      pose proof (upto_next_binade (t2 + 1) t1 (2 ^ (a2 + n2)) (2 ^ (a1 + n1))
                    PG2 D ltac:(lia) ltac:(lia)).
      lia.
Qed.

Lemma rho_mono (M1 M2 : positive) (e1 e2 : Z) :
  -1074 <= e1 -> -1074 <= e2 ->
  units (Zpos M1) e1 <= units (Zpos M2) e2 ->
  rho M1 e1 <= rho M2 e2.
Proof.
  intros H1 H2 HV. unfold rho, units in *.
  replace (e1 + excess M1 + 1074) with (e1 + 1074 + excess M1) by lia.
  replace (e2 + excess M2 + 1074) with (e2 + 1074 + excess M2) by lia.
  apply rounding_order; lia.
Qed.

(** ** The order of doubles, in units *)

Lemma OV_pos : 0 < OV.
Proof. unfold OV. apply Z.pow_pos_nonneg; lia. Qed.

(** What validity says about a finite double. *)
Lemma valid_finite (s : bool) (m : positive) (e : Z) :
  valid_binary (S754_finite s m e) = true ->
  canonical_mantissa prec emax m e = true
  /\ -1074 <= e <= 971
  /\ Zpos m < 2 ^ 53
  /\ 0 < units (Zpos m) e < OV.
Proof.
  cbn [valid_binary bounded]. intros H. apply andb_true_iff in H as [C B].
  apply Z.leb_le in B. change (emax - prec) with 971 in B.
  split; [exact C|].
  unfold canonical_mantissa in C. rewrite fexp_eq in C. apply Z.eqb_eq in C.
  assert (He : -1074 <= e <= 971) by lia.
  assert (Hm : Zpos m < 2 ^ 53).
  { pose proof (digits2_pos_bounds m) as [_ Bu].
    assert (2 ^ Zpos (digits2_pos m) <= 2 ^ 53) by (apply Z.pow_le_mono_r; lia). lia. }
  split; [exact He|]. split; [exact Hm|].
  unfold units, OV.
  assert (P : 0 < 2 ^ (e + 1074)) by (apply Z.pow_pos_nonneg; lia).
  split; [lia|].
  apply Z.lt_le_trans with (2 ^ 53 * 2 ^ (e + 1074)).
  - apply Z.mul_lt_mono_pos_r; lia.
  - rewrite <- pow2_split by lia. apply Z.pow_le_mono_r; lia.
Qed.

Lemma units_order (m1 m2 : positive) (e1 e2 : Z) :
  valid_binary (S754_finite false m1 e1) = true ->
  valid_binary (S754_finite false m2 e2) = true ->
  units (Zpos m1) e1 <= units (Zpos m2) e2 <->
  match Z.compare e1 e2 with
  | Lt => True
  | Gt => False
  | Eq => (m1 <= m2)%positive
  end.
Proof.
  intros V1 V2.
  destruct (valid_finite _ _ _ V1) as (C1 & E1 & _ & _).
  destruct (valid_finite _ _ _ V2) as (C2 & E2 & _ & _).
  unfold units.
  destruct (Z.compare_spec e1 e2) as [E | L | G].
  - subst e2. assert (P : 0 < 2 ^ (e1 + 1074)) by (apply Z.pow_pos_nonneg; lia).
    rewrite <- (Z.mul_le_mono_pos_r _ _ _ P). reflexivity.
  - split; [trivial | intros _].
    pose proof (canonical_order m2 m1 e2 e1 C2 C1 L) as O.
    rewrite (pow2_factor (e1 + 1074) (e2 + 1074)) by lia.
    replace (e2 + 1074 - (e1 + 1074)) with (e2 - e1) by lia.
    assert (P : 0 < 2 ^ (e1 + 1074)) by (apply Z.pow_pos_nonneg; lia).
    rewrite (Z.mul_comm (2 ^ (e1 + 1074))), Z.mul_assoc.
    apply Z.mul_le_mono_nonneg_r; lia.
  - split; [intros H | contradiction].
    pose proof (canonical_order m1 m2 e1 e2 C1 C2 G) as O.
    rewrite (pow2_factor (e2 + 1074) (e1 + 1074)) in H by lia.
    replace (e1 + 1074 - (e2 + 1074)) with (e1 - e2) in H by lia.
    assert (P : 0 < 2 ^ (e2 + 1074)) by (apply Z.pow_pos_nonneg; lia).
    rewrite (Z.mul_comm (2 ^ (e2 + 1074))), Z.mul_assoc in H.
    apply Z.mul_le_mono_pos_r in H; lia.
Qed.

(** [SFleb] on valid doubles other than NaN is the order of their keys. *)
Lemma SFleb_key (f1 f2 : spec_float) (z1 z2 : Z) :
  valid_binary f1 = true -> valid_binary f2 = true ->
  key f1 = Some z1 -> key f2 = Some z2 ->
  SFleb f1 f2 = true <-> z1 <= z2.
Proof.
  intros V1 V2 K1 K2.
  pose proof OV_pos as HOV.
  destruct f1 as [z1' | i1 | | s1 m1 e1]; try discriminate;
    destruct f2 as [z2' | i2 | | s2 m2 e2]; try discriminate;
    unfold key in K1, K2;
    try (assert (z1 = 0) by congruence);
    try (assert (z2 = 0) by congruence);
    try (assert (z1 = if i1 then - OV else OV) by congruence);
    try (assert (z2 = if i2 then - OV else OV) by congruence);
    try (assert (z1 = if s1 then - units (Zpos m1) e1 else units (Zpos m1) e1)
           by congruence);
    try (assert (z2 = if s2 then - units (Zpos m2) e2 else units (Zpos m2) e2)
           by congruence);
    subst z1 z2; clear K1 K2;
    unfold SFleb, SFcompare;
    try (destruct (valid_finite _ _ _ V1) as (_ & _ & _ & U1));
    try (destruct (valid_finite _ _ _ V2) as (_ & _ & _ & U2)).
  - split; [lia | reflexivity].
  - destruct i2; split; intros H; try reflexivity; try discriminate; first [lia | exfalso; lia].
  - destruct s2; split; intros H; try reflexivity; try discriminate; first [lia | exfalso; lia].
  - destruct i1; split; intros H; try reflexivity; try discriminate; first [lia | exfalso; lia].
  - destruct i1, i2; split; intros H; try reflexivity; try discriminate; first [lia | exfalso; lia].
  - destruct i1, s2; split; intros H; try reflexivity; try discriminate; first [lia | exfalso; lia].
  - destruct s1; split; intros H; try reflexivity; try discriminate; first [lia | exfalso; lia].
  - destruct s1, i2; split; intros H; try reflexivity; try discriminate; first [lia | exfalso; lia].
  - assert (V1' : valid_binary (S754_finite false m1 e1) = true) by exact V1.
    assert (V2' : valid_binary (S754_finite false m2 e2) = true) by exact V2.
    pose proof (units_order m1 m2 e1 e2 V1' V2') as M12.
    pose proof (units_order m2 m1 e2 e1 V2' V1') as M21.
    rewrite (Z.compare_antisym e1 e2) in M21.
    change (Pos.compare_cont Eq m1 m2) with (Pos.compare m1 m2).
    destruct s1, s2.
    + destruct (e1 ?= e2); cbn [CompOpp] in M21.
      * destruct (Pos.compare_spec m1 m2); cbn [CompOpp];
          split; intros H'; try reflexivity; try discriminate; first [lia | exfalso; lia].
      * split; [discriminate | intros; exfalso; lia].
      * split; [lia | reflexivity].
    + split; [lia | reflexivity].
    + split; [discriminate | intros; exfalso; lia].
    + destruct (e1 ?= e2).
      * destruct (Pos.compare_spec m1 m2);
          split; intros H'; try reflexivity; try discriminate; first [lia | exfalso; lia].
      * split; [lia | reflexivity].
      * split; [discriminate | intros; exfalso; lia].
Qed.

(** ** Rounding as the operations do it *)

Lemma Pos_iter_xO (m k : positive) : Zpos (Pos.iter xO m k) = Zpos m * 2 ^ Zpos k.
Proof.
  induction k as [|k IH] using Pos.peano_ind.
  - cbn [Pos.iter]. rewrite Pos2Z.inj_xO. change (2 ^ 1) with 2. lia.
  - rewrite Pos.iter_succ, Pos2Z.inj_xO, IH, Pos2Z.inj_succ, Z.pow_succ_r by lia. ring.
Qed.

Lemma shl_align_spec (m : positive) (e e' : Z) :
  let '(mz, ez) := shl_align m e e' in
  ez = Z.min e e' /\ Zpos mz = Zpos m * 2 ^ (e - ez).
Proof.
  unfold shl_align. destruct (e' - e) as [|d|d] eqn:E.
  - split; [lia|]. replace (e - e) with 0 by lia. cbn. lia.
  - split; [lia|]. replace (e - e) with 0 by lia. cbn. lia.
  - split; [lia|]. rewrite Pos_iter_xO. f_equal. f_equal. lia.
Qed.

Lemma units_shift (m e k : Z) :
  0 <= k -> -1074 <= e - k -> units (m * 2 ^ k) (e - k) = units m e.
Proof.
  intros Hk He. unfold units. rewrite <- Z.mul_assoc, <- pow2_split by lia.
  f_equal. f_equal. lia.
Qed.

Lemma rho_exact (M : positive) (e : Z) :
  Zpos M < 2 ^ 53 -> rho M e = units (Zpos M) e.
Proof.
  intros H. unfold rho. rewrite (small_excess M H), rounded_0. f_equal. lia.
Qed.

Lemma rho_pos (M : positive) (e : Z) : -1074 <= e -> 0 < rho M e.
Proof.
  intros He. unfold rho, units. pose proof (rounded_bounds M). pose proof (excess_nonneg M).
  apply Z.mul_pos_pos; [lia | apply Z.pow_pos_nonneg; lia].
Qed.

(** What [binary_round_aux] returns for an exact mantissa, by value. *)
Lemma binary_round_aux_key (s : bool) (M : positive) (e : Z) :
  -1074 <= e -> (e <= 971 \/ 0 < excess M) ->
  key (binary_round_aux prec emax s (Zpos M) e loc_Exact)
  = Some (if s then - Z.min OV (rho M e) else Z.min OV (rho M e)).
Proof.
  intros He Hs. rewrite (binary_round_aux_exact s M e He).
  pose proof (rounded_bounds M) as RB. pose proof (excess_nonneg M) as Hn.
  unfold rho. set (r := rounded (Zpos M) (excess M)) in *. set (n := excess M) in *.
  assert (P : 0 < 2 ^ (e + n + 1074)) by (apply Z.pow_pos_nonneg; lia).
  assert (Hmin : forall v, (v < OV -> Z.min OV v = v) /\ (OV <= v -> Z.min OV v = OV))
    by (intros v; split; lia).
  destruct (Z.eqb_spec r (2 ^ 53)) as [Er | Er].
  - assert (Hv : units r (e + n) = 2 ^ (e + n + 1127)).
    { unfold units. rewrite Er, <- pow2_split by lia. f_equal. lia. }
    destruct (Z.leb_spec (e + n + 1) 971) as [L | L]; cbn [key].
    + assert (Hu : units (Z.pos (Z.to_pos (2 ^ 52))) (e + n + 1) = units r (e + n)).
      { rewrite Hv. unfold units. rewrite Z2Pos.id by reflexivity.
        rewrite <- pow2_split by lia. f_equal. lia. }
      rewrite Hu.
      assert (units r (e + n) < OV)
        by (rewrite Hv; unfold OV; apply Z.pow_lt_mono_r; lia).
      rewrite (proj1 (Hmin _)) by assumption. reflexivity.
    + assert (OV <= units r (e + n))
        by (rewrite Hv; unfold OV; apply Z.pow_le_mono_r; lia).
      rewrite (proj2 (Hmin _)) by assumption. reflexivity.
  - destruct (Z.leb_spec (e + n) 971) as [L | L]; cbn [key].
    + rewrite Z2Pos.id by lia.
      assert (units r (e + n) < OV).
      { unfold units, OV.
        apply Z.lt_le_trans with (2 ^ 53 * 2 ^ (e + n + 1074)).
        - apply Z.mul_lt_mono_pos_r; lia.
        - rewrite <- pow2_split by lia. apply Z.pow_le_mono_r; lia. }
      rewrite (proj1 (Hmin _)) by assumption. reflexivity.
    + assert (Hn' : 0 < n) by lia.
      pose proof (kept_bounds M Hn') as KB. fold n in KB.
      pose proof (rounded_range (Zpos M) (excess M)) as RR. fold n in RR. fold r in RR.
      assert (OV <= units r (e + n)).
      { unfold units, OV.
        apply Z.le_trans with (2 ^ 52 * 2 ^ (e + n + 1074)).
        - rewrite <- pow2_split by lia. apply Z.pow_le_mono_r; lia.
        - apply Z.mul_le_mono_nonneg_r; lia. }
      rewrite (proj2 (Hmin _)) by assumption. reflexivity.
Qed.

(** The same for [binary_round], which first aligns the mantissa. *)
Lemma binary_round_key (s : bool) (M : positive) (e : Z) :
  -1074 <= e <= 971 ->
  key (binary_round prec emax s M e)
  = Some (if s then - Z.min OV (rho M e) else Z.min OV (rho M e)).
Proof.
  intros He. unfold binary_round.
  pose proof (shl_align_spec M e (fexp prec emax (Zpos (digits2_pos M) + e))) as A.
  destruct (shl_align M e (fexp prec emax (Zpos (digits2_pos M) + e))) as [mz ez].
  destruct A as [Ez Em]. rewrite fexp_eq in Ez.
  rewrite binary_round_aux_key by lia.
  assert (Hrho : rho mz ez = rho M e).
  { destruct (Z.eq_dec ez e) as [-> | Hne].
    - replace (e - e) with 0 in Em by lia. change (2 ^ 0) with 1 in Em.
      assert (mz = M) by lia. now subst mz.
    - (* the mantissa was short and has been shifted up *)
      pose proof (digits2_pos_bounds M) as [_ Bu].
      set (d := Zpos (digits2_pos M)) in *.
      assert (Hk : 0 < e - ez <= 53 - d) by lia.
      assert (HM : Zpos M < 2 ^ 53).
      { assert (2 ^ d <= 2 ^ 53) by (apply Z.pow_le_mono_r; lia). lia. }
      assert (Hmz : Zpos mz < 2 ^ 53).
      { rewrite Em.
        apply Z.lt_le_trans with (2 ^ d * 2 ^ (e - ez)).
        - apply Z.mul_lt_mono_pos_r; [apply Z.pow_pos_nonneg; lia | lia].
        - rewrite <- pow2_split by lia. apply Z.pow_le_mono_r; lia. }
      rewrite (rho_exact mz ez Hmz), (rho_exact M e HM), Em.
      replace ez with (e - (e - ez)) at 2 by lia.
      apply units_shift; lia. }
  now rewrite Hrho.
Qed.

Lemma normalize_key (M e : Z) :
  -1074 <= e <= 971 ->
  key (binary_normalize prec emax M e false) = Some (rhoZ M e).
Proof.
  intros He. destruct M as [|p|p]; cbn [binary_normalize rhoZ].
  - reflexivity.
  - now rewrite binary_round_key.
  - now rewrite binary_round_key.
Qed.

Lemma units_sign (M e : Z) :
  (0 < M -> 0 < units M e \/ units M e = 0)
  /\ (M < 0 -> units M e < 0 \/ units M e = 0).
Proof.
  unfold units. pose proof (Z.pow_nonneg 2 (e + 1074) ltac:(lia)) as P.
  destruct (Z.eq_dec (2 ^ (e + 1074)) 0) as [-> | N]; [lia|].
  split; intros H; left; nia.
Qed.

Lemma units_pos (M e : Z) : -1074 <= e -> 0 < M -> 0 < units M e.
Proof.
  intros He HM. unfold units. apply Z.mul_pos_pos; [lia | apply Z.pow_pos_nonneg; lia].
Qed.

Lemma units_neg (p : positive) (e : Z) : units (Zneg p) e = - units (Zpos p) e.
Proof. unfold units. lia. Qed.

(** Rounding and clamping is monotone in the value. *)
Lemma rhoZ_mono (M1 M2 e1 e2 : Z) :
  -1074 <= e1 -> -1074 <= e2 ->
  units M1 e1 <= units M2 e2 ->
  rhoZ M1 e1 <= rhoZ M2 e2.
Proof.
  intros H1 H2 HV. pose proof OV_pos as HOV.
  destruct M1 as [|p1|p1], M2 as [|p2|p2]; cbn [rhoZ];
    try pose proof (rho_pos p1 e1 H1) as R1;
    try pose proof (rho_pos p2 e2 H2) as R2;
    try pose proof (units_pos (Zpos p1) e1 H1 ltac:(lia)) as U1;
    try pose proof (units_pos (Zpos p2) e2 H2 ltac:(lia)) as U2;
    rewrite ?units_neg in HV;
    try (change (units 0 e1) with 0 in HV); try (change (units 0 e2) with 0 in HV);
    try lia.
  - pose proof (rho_mono p1 p2 e1 e2 H1 H2 HV). lia.
  - assert (HV' : units (Zpos p2) e2 <= units (Zpos p1) e1) by lia.
    pose proof (rho_mono p2 p1 e2 e1 H2 H1 HV'). lia.
Qed.

(** A finite double is its own rounding. *)
Lemma key_as_rhoZ (f : spec_float) :
  valid_binary f = true -> finite_or_zero f = true ->
  exists M e, -1074 <= e <= 971 /\ key f = Some (units M e) /\ rhoZ M e = units M e.
Proof.
  intros V F. destruct f as [z | i | | s m e]; try discriminate.
  - exists 0, 0. repeat split; lia.
  - destruct (valid_finite _ _ _ V) as (_ & He & Hm & Hu).
    exists (cond_Zopp s (Zpos m)), e. split; [exact He|].
    destruct s; cbn [cond_Zopp key Z.opp rhoZ]; rewrite ?units_neg;
      rewrite (rho_exact m e Hm); split; try reflexivity; lia.
Qed.

(** The sum of two finite doubles, by value: the exact sum, rounded. *)
Lemma add_key (X Y : spec_float) (kx ky : Z) :
  valid_binary X = true -> valid_binary Y = true ->
  finite_or_zero X = true -> finite_or_zero Y = true ->
  key X = Some kx -> key Y = Some ky ->
  exists M e, -1074 <= e /\ units M e = kx + ky
              /\ key (SFadd prec emax X Y) = Some (rhoZ M e).
Proof.
  intros VX VY FX FY KX KY.
  destruct X as [zx | ix | | sx mx ex]; try discriminate;
    destruct Y as [zy | iy | | sy my ey]; try discriminate.
  - exists 0, 0. cbn [key] in KX, KY. injection KX as <-. injection KY as <-.
    split; [lia|]. split; [reflexivity|]. destruct zx, zy; reflexivity.
  - destruct (key_as_rhoZ _ VY eq_refl) as (M & e & He & K & R).
    exists M, e. cbn [key] in KX. injection KX as <-.
    rewrite K in KY. injection KY as <-.
    split; [lia|]. split; [lia|]. cbn [SFadd]. now rewrite K, R.
  - destruct (key_as_rhoZ _ VX eq_refl) as (M & e & He & K & R).
    exists M, e. cbn [key] in KY. injection KY as <-.
    rewrite K in KX. injection KX as <-.
    split; [lia|]. split; [lia|]. cbn [SFadd]. now rewrite K, R.
  - destruct (valid_finite _ _ _ VX) as (_ & Hex & _ & _).
    destruct (valid_finite _ _ _ VY) as (_ & Hey & _ & _).
    cbn [SFadd]. set (ez := IntDef.Z.min ex ey).
    assert (Hez : ez = Z.min ex ey) by reflexivity.
    pose proof (shl_align_spec mx ex ez) as AX.
    pose proof (shl_align_spec my ey ez) as AY.
    destruct (shl_align mx ex ez) as [mx' ex'].
    destruct (shl_align my ey ez) as [my' ey'].
    destruct AX as [Ex' Emx]. destruct AY as [Ey' Emy]. cbn [fst].
    exists (cond_Zopp sx (Zpos mx') + cond_Zopp sy (Zpos my')), ez.
    split; [lia|]. split; [|apply normalize_key; lia].
    assert (Hkx : kx = if sx then - units (Zpos mx) ex else units (Zpos mx) ex)
      by (unfold key in KX; congruence).
    assert (Hky : ky = if sy then - units (Zpos my) ey else units (Zpos my) ey)
      by (unfold key in KY; congruence).
    rewrite Hkx, Hky. clear KX KY Hkx Hky.
    assert (Ux : units (Zpos mx') ez = units (Zpos mx) ex).
    { rewrite Emx. replace ex' with ez by lia.
      replace ez with (ex - (ex - ez)) at 2 by lia. apply units_shift; lia. }
    assert (Uy : units (Zpos my') ez = units (Zpos my) ey).
    { rewrite Emy. replace ey' with ez by lia.
      replace ez with (ey - (ey - ez)) at 2 by lia. apply units_shift; lia. }
    rewrite <- Ux, <- Uy. unfold units. destruct sx, sy; cbn [cond_Zopp]; ring.
Qed.

(** Addition is monotone in its second operand. *)
Lemma add_mono (A H W : spec_float) (ka kh kw : Z) :
  valid_binary A = true -> valid_binary H = true -> valid_binary W = true ->
  finite_or_zero A = true -> finite_or_zero H = true -> finite_or_zero W = true ->
  key A = Some ka -> key H = Some kh -> key W = Some kw ->
  kh <= kw ->
  exists c f, key (SFadd prec emax A H) = Some c
              /\ key (SFadd prec emax A W) = Some f /\ c <= f.
Proof.
  intros VA VH VW FA FH FW KA KH KW Hle.
  destruct (add_key A H ka kh VA VH FA FH KA KH) as (M1 & e1 & E1 & U1 & K1).
  destruct (add_key A W ka kw VA VW FA FW KA KW) as (M2 & e2 & E2 & U2 & K2).
  exists (rhoZ M1 e1), (rhoZ M2 e2). split; [exact K1|]. split; [exact K2|].
  apply rhoZ_mono; lia.
Qed.

(** Adding something that is not negative does not go below. *)
Lemma add_above (A H : spec_float) (ka kh : Z) :
  valid_binary A = true -> valid_binary H = true ->
  finite_or_zero A = true -> finite_or_zero H = true ->
  key A = Some ka -> key H = Some kh -> 0 <= kh ->
  exists c, key (SFadd prec emax A H) = Some c /\ ka <= c.
Proof.
  intros VA VH FA FH KA KH Hle.
  destruct (add_key A H ka kh VA VH FA FH KA KH) as (M1 & e1 & E1 & U1 & K1).
  destruct (key_as_rhoZ A VA FA) as (M0 & e0 & E0 & K0 & R0).
  exists (rhoZ M1 e1). split; [exact K1|].
  rewrite K0 in KA. injection KA as <-. rewrite <- R0.
  apply rhoZ_mono; lia.
Qed.

(** ** Halving *)

Lemma div_eucl_spec (a b : Z) :
  0 < b -> exists q r, Z.div_eucl a b = (q, r) /\ a = q * b + r /\ 0 <= r < b.
Proof.
  intros Hb. pose proof (Z.div_eucl_eq a b ltac:(lia)) as E.
  pose proof (Z.mod_pos_bound a b Hb) as B. unfold Z.modulo in B.
  destruct (Z.div_eucl a b) as [q r]. exists q, r. split; [reflexivity|]. lia.
Qed.

(** The quotient and remainder that the division by 2 starts from. *)
Lemma div2_core (m : positive) (e : Z) :
  valid_binary (S754_finite false m e) = true ->
  exists q r e',
    SFdiv_core_binary prec emax (Zpos m) e 4503599627370496 (-51)
    = (q, e', new_location 4503599627370496 r)
    /\ -1074 <= e' <= 971
    /\ 0 <= r < 2 ^ 52
    /\ 51 <= e + 51 - e' <= 53
    /\ (e + 51 - e' = 51 -> e' = -1074)
    /\ Zpos m * 2 ^ (e + 51 - e') = q * 2 ^ 52 + r.
Proof.
  intros V. destruct (valid_finite _ _ _ V) as (C & He & Hm & _).
  unfold canonical_mantissa in C. rewrite fexp_eq in C. apply Z.eqb_eq in C.
  unfold SFdiv_core_binary. cbn [Zdigits2].
  change (Zpos (digits2_pos 4503599627370496)) with 53.
  rewrite fexp_eq.
  set (d := Zpos (digits2_pos m)) in *.
  assert (Hd : 0 < d) by (unfold d; lia).
  set (e' := IntDef.Z.min (Z.max (d + e - (53 + -51) - 53) (-1074)) (e - -51)).
  assert (He' : e' = Z.max (e - 2) (-1074)).
  { unfold e'. change IntDef.Z.min with Z.min. lia. }
  assert (Hs : 51 <= e - -51 - e' <= 53) by lia.
  destruct (e - -51 - e') as [|s|s] eqn:Es; try lia.
  rewrite Z.shiftl_mul_pow2 by lia.
  destruct (div_eucl_spec (Zpos m * 2 ^ Zpos s) 4503599627370496 ltac:(lia))
    as (q & r & -> & Eq & Hr).
  exists q, r, e'. split; [reflexivity|].
  change (2 ^ 52) with 4503599627370496.
  replace (e + 51 - e') with (Zpos s) by lia.
  repeat split; lia.
Qed.

Lemma Zdigits2_upto (q : Z) : 0 <= q <= 2 ^ 52 -> 0 <= Zdigits2 q <= 53.
Proof.
  intros H. destruct (Z.eq_dec q 0) as [-> | N]; [cbn; lia|].
  pose proof (Zdigits2_small q ltac:(lia)). lia.
Qed.

Lemma shr_fexp_none (q : Z) (l : location) :
  0 <= q <= 2 ^ 52 ->
  shr_fexp prec emax q (-1074) l = (shr_record_of_loc q l, -1074).
Proof.
  intros H. pose proof (Zdigits2_upto q H) as D.
  unfold shr_fexp. rewrite fexp_eq. unfold shr.
  destruct (Z.max (Zdigits2 q + -1074 - 53) (-1074) - -1074) eqn:E; try reflexivity; lia.
Qed.

(** Rounding a tie in the lowest binade. *)
Lemma binary_round_aux_tie (q : Z) :
  0 <= q < 2 ^ 52 ->
  key (binary_round_aux prec emax false q (-1074) (loc_Inexact Eq))
  = Some (if Z.even q then q else q + 1).
Proof.
  intros H. unfold binary_round_aux.
  rewrite shr_fexp_none by lia.
  cbn [shr_record_of_loc shr_m loc_of_shr_record round_nearest_even].
  set (q' := if Z.even q then q else q + 1).
  assert (Hq' : 0 <= q' <= 2 ^ 52) by (unfold q'; destruct (Z.even q); lia).
  rewrite shr_fexp_none by exact Hq'. cbn [shr_record_of_loc shr_m].
  destruct q' as [|p|p]; try lia; [reflexivity|].
  cbn [Z.leb Z.compare]. change (-1074 <=? emax - prec) with true.
  cbn [key]. unfold units. change (2 ^ (-1074 + 1074)) with 1. f_equal. lia.
Qed.

(** Half of a double that is not negative lies between zero and it. *)
Lemma div2_key (W : spec_float) (kw : Z) :
  valid_binary W = true -> key W = Some kw -> 0 <= kw ->
  exists kh, key (SFdiv prec emax W two_SF) = Some kh
             /\ 0 <= kh <= kw
             /\ finite_or_zero (SFdiv prec emax W two_SF) = finite_or_zero W.
Proof.
  intros V K Hk. pose proof OV_pos as HOV.
  destruct W as [z | i | | s m e]; try discriminate.
  - exists 0. assert (kw = 0) by (unfold key in K; congruence). subst kw.
    repeat split; lia.
  - destruct i; [unfold key in K; assert (kw = - OV) by congruence; lia|].
    exists OV. assert (kw = OV) by (unfold key in K; congruence). subst kw.
    repeat split; lia.
  - destruct (valid_finite _ _ _ V) as (_ & He & Hm & Hu).
    destruct s; [unfold key in K; assert (kw = - units (Zpos m) e) by congruence; lia|].
    assert (kw = units (Zpos m) e) by (unfold key in K; congruence). subst kw. clear K.
    unfold two_SF. cbn [SFdiv xorb].
    destruct (div2_core m e V) as (q & r & e' & -> & He' & Hr & Hs & Hlow & Hqr).
    assert (P : 0 < 2 ^ (e' + 1074)) by (apply Z.pow_pos_nonneg; lia).
    destruct (Z.eq_dec r 0) as [-> | Nr].
    + (* the quotient is exact *)
      change (new_location 4503599627370496 0) with loc_Exact.
      rewrite Z.add_0_r in Hqr.
      assert (Hq : 0 < q).
      { assert (0 < Zpos m * 2 ^ (e + 51 - e'))
          by (apply Z.mul_pos_pos; [lia | apply Z.pow_pos_nonneg; lia]).
        lia. }
      destruct q as [|p|p]; try lia.
      rewrite binary_round_aux_key by lia.
      assert (Hu2 : 2 * units (Zpos p) e' = units (Zpos m) e).
      { unfold units.
        assert (E1 : Zpos p * 2 ^ (e' + 1074) * 2 ^ 52
                     = Zpos m * 2 ^ (e + 1074) * 2 ^ 51).
        { rewrite (Z.mul_comm (Zpos p * 2 ^ (e' + 1074))), Z.mul_assoc.
          rewrite (Z.mul_comm (2 ^ 52)), <- Hqr.
          rewrite <- !Z.mul_assoc, <- !pow2_split by lia.
          f_equal. f_equal. lia. }
        change (2 ^ 52) with (2 * 2 ^ 51) in E1.
        assert (P51 : 0 < 2 ^ 51) by reflexivity.
        apply (Z.mul_reg_r _ _ (2 ^ 51)); lia. }
      pose proof (units_pos (Zpos p) e' ltac:(lia) ltac:(lia)) as Up.
      assert (Hle : units (Zpos p) e' <= units (Zpos m) e) by lia.
      pose proof (rho_mono p m e' e ltac:(lia) ltac:(lia) Hle) as Hr'.
      rewrite (rho_exact m e Hm) in Hr'.
      pose proof (rho_pos p e' ltac:(lia)) as Rp.
      eexists. split; [reflexivity|]. split; [lia|].
      destruct (binary_round_aux prec emax false (Zpos p) e' loc_Exact) eqn:Eb;
        try reflexivity.
      * pose proof (binary_round_aux_key false p e' ltac:(lia) ltac:(lia)) as Kb.
        rewrite Eb in Kb. cbn [key] in Kb. destruct s; injection Kb as Kb; lia.
      * pose proof (binary_round_aux_key false p e' ltac:(lia) ltac:(lia)) as Kb.
        rewrite Eb in Kb. discriminate.
    + (* a remainder: the lowest binade and an odd mantissa *)
      assert (Hs51 : e + 51 - e' = 51).
      { destruct (Z.eq_dec (e + 51 - e') 51) as [|N]; [assumption|]. exfalso.
        rewrite (pow2_factor 52 (e + 51 - e')) in Hqr by lia.
        assert (r = (Zpos m * 2 ^ (e + 51 - e' - 52) - q) * 2 ^ 52) by lia.
        assert (P52 : 0 < 2 ^ 52) by reflexivity.
        set (k := Zpos m * 2 ^ (e + 51 - e' - 52) - q) in *.
        assert (0 < k) by nia. assert (k < 1) by nia. lia. }
      rewrite Hs51 in Hqr. specialize (Hlow Hs51). subst e'.
      assert (e = -1074) by lia. subst e.
      assert (Hr51 : r = 2 ^ 51).
      { change (2 ^ 52) with (2 * 2 ^ 51) in Hqr, Hr.
        assert (r = (Zpos m - 2 * q) * 2 ^ 51) by lia.
        assert (P51 : 0 < 2 ^ 51) by reflexivity.
        set (k := Zpos m - 2 * q) in *.
        assert (0 < k) by nia. assert (k < 2) by nia.
        assert (k = 1) by lia. lia. }
      subst r.
      change (new_location 4503599627370496 (2 ^ 51)) with (loc_Inexact Eq).
      assert (Hmq : Zpos m = 2 * q + 1).
      { change (2 ^ 52) with (2 * 2 ^ 51) in Hqr.
        assert (P51 : 0 < 2 ^ 51) by reflexivity.
        apply (Z.mul_reg_r _ _ (2 ^ 51)); lia. }
      assert (Hq : 0 <= q < 2 ^ 52) by lia.
      rewrite (binary_round_aux_tie q Hq).
      assert (Hum : units (Zpos m) (-1074) = Zpos m)
        by (unfold units; change (2 ^ (-1074 + 1074)) with 1; lia).
      rewrite Hum.
      eexists. split; [reflexivity|].
      split; [destruct (Z.even q); lia|].
      pose proof (binary_round_aux_tie q Hq) as Kb.
      destruct (binary_round_aux prec emax false q (-1074) (loc_Inexact Eq)) eqn:Eb;
        try reflexivity.
      * cbn [key] in Kb. destruct s; injection Kb as Kb; destruct (Z.even q); lia.
      * discriminate.
Qed.

(** ** Scaling keeps the sign *)

Lemma binary_round_aux_sign (s : bool) (m e : Z) (l : location) :
  match binary_round_aux prec emax s m e l with
  | S754_zero s' | S754_infinity s' | S754_finite s' _ _ => s' = s
  | S754_nan => True
  end.
Proof.
  unfold binary_round_aux.
  destruct (shr_fexp prec emax m e l) as [mrs' e'].
  destruct (shr_fexp prec emax _ e' loc_Exact) as [mrs'' e''].
  destruct (shr_m mrs''); [reflexivity | | exact I].
  destruct (e'' <=? emax - prec); reflexivity.
Qed.

Lemma units_nonneg (m : positive) (e : Z) : 0 <= units (Zpos m) e.
Proof. unfold units. pose proof (Z.pow_nonneg 2 (e + 1074) ltac:(lia)). nia. Qed.

(** The product of a double that is not negative and a positive one is
    not negative, or NaN. *)
Lemma mul_key_nonneg (W S : spec_float) (kw ks : Z) :
  valid_binary W = true -> valid_binary S = true ->
  key W = Some kw -> 0 <= kw -> key S = Some ks -> 0 < ks ->
  key (SFmul prec emax W S) = None
  \/ exists k, key (SFmul prec emax W S) = Some k /\ 0 <= k.
Proof.
  intros VW VS KW Hw KS Hs. pose proof OV_pos as HOV.
  destruct W as [zw | iw | | sw mw ew]; try discriminate;
    destruct S as [zs | js | | ss ms es]; try discriminate;
    try (destruct (valid_finite _ _ _ VW) as (_ & _ & _ & UW));
    try (destruct (valid_finite _ _ _ VS) as (_ & _ & _ & US));
    unfold key in KW, KS;
    try (assert (kw = 0) by congruence);
    try (assert (ks = 0) by congruence);
    try (assert (Ekw : kw = if iw then - OV else OV) by congruence);
    try (assert (Eks : ks = if js then - OV else OV) by congruence);
    try (assert (Ekw : kw = if sw then - units (Zpos mw) ew else units (Zpos mw) ew)
           by congruence);
    try (assert (Eks : ks = if ss then - units (Zpos ms) es else units (Zpos ms) es)
           by congruence);
    try lia; cbn [SFmul].
  - left. reflexivity.
  - right. exists 0. split; [reflexivity | lia].
  - destruct iw, js; try lia. right. exists OV. split; [reflexivity | lia].
  - destruct iw, ss; try lia. right. exists OV. split; [reflexivity | lia].
  - destruct sw, js; try lia. right. exists OV. split; [reflexivity | lia].
  - destruct sw, ss; try lia. cbn [xorb].
    pose proof (binary_round_aux_sign false (Zpos (mw * ms)) (ew + es) loc_Exact) as Sg.
    destruct (binary_round_aux prec emax false (Zpos (mw * ms)) (ew + es) loc_Exact)
      as [z | i | | s m e].
    + right. exists 0. split; [reflexivity | lia].
    + subst i. right. exists OV. split; [reflexivity | lia].
    + left. reflexivity.
    + subst s. right. exists (units (Zpos m) e). split; [reflexivity | apply units_nonneg].
Qed.

(** ** The centre on one axis *)

Lemma key_total (f : spec_float) : f <> S754_nan -> exists k, key f = Some k.
Proof. destruct f; intros H; try (eexists; reflexivity). now elim H. Qed.

Lemma SFleb_refl (f : spec_float) :
  valid_binary f = true -> f <> S754_nan -> SFleb f f = true.
Proof.
  intros V N. destruct (key_total f N) as (k & K).
  apply (SFleb_key f f k k V V K K). lia.
Qed.

Lemma centre_axis_SF (A CW : spec_float) :
  valid_binary A = true -> valid_binary CW = true ->
  valid_binary (SFdiv prec emax CW two_SF) = true ->
  valid_binary (SFadd prec emax A (SFdiv prec emax CW two_SF)) = true ->
  valid_binary (SFadd prec emax A CW) = true ->
  (key CW = None \/ exists k, key CW = Some k /\ 0 <= k) ->
  SFadd prec emax A (SFdiv prec emax CW two_SF) <> S754_nan ->
  SFleb A (SFadd prec emax A (SFdiv prec emax CW two_SF)) = true
  /\ SFleb (SFadd prec emax A (SFdiv prec emax CW two_SF)) (SFadd prec emax A CW) = true.
Proof.
  intros VA VW VH VC VF Hw NC. pose proof OV_pos as HOV.
  destruct Hw as [Kw | (kw & Kw & Hkw)].
  { (* the scaled extent is NaN: so is the centre *)
    destruct CW; try discriminate. exfalso. apply NC. destruct A; reflexivity. }
  destruct (div2_key CW kw VW Kw Hkw) as (kh & Kh & Hkh & Fh).
  set (H := SFdiv prec emax CW two_SF) in *.
  destruct (finite_or_zero CW) eqn:Fw.
  - (* a finite extent *)
    destruct (finite_or_zero A) eqn:Fa.
    + destruct (key_total A ltac:(destruct A; discriminate)) as (ka & Ka).
      destruct (add_above A H ka kh VA VH Fa Fh Ka Kh ltac:(lia)) as (c & Kc & Hc).
      destruct (add_mono A H CW ka kh kw VA VH VW Fa Fh Fw Ka Kh Kw ltac:(lia))
        as (c' & f & Kc' & Kf & Hcf).
      rewrite Kc in Kc'. injection Kc' as <-.
      split.
      * apply (SFleb_key _ _ ka c VA VC Ka Kc). exact Hc.
      * apply (SFleb_key _ _ c f VC VF Kc Kf). exact Hcf.
    + (* an infinite edge stays where it is *)
      destruct A as [za | ia | | sa ma ea]; try discriminate.
      * destruct CW as [zw | iw | | sw mw ew]; try discriminate;
          destruct H as [zh | ih | | sh mh eh]; try discriminate;
          destruct ia; split; reflexivity.
      * exfalso. apply NC. reflexivity.
  - (* an infinite extent *)
    destruct CW as [zw | iw | | sw mw ew]; try discriminate.
    destruct iw; [unfold key in Kw; assert (kw = - OV) by congruence; lia|].
    change H with (S754_infinity false) in *. clear H.
    destruct A as [za | ia | | sa ma ea].
    + split; reflexivity.
    + destruct ia; [exfalso; apply NC; reflexivity | split; reflexivity].
    + exfalso. apply NC. reflexivity.
    + split; [destruct sa; reflexivity | reflexivity].
Qed.

(** ** On the doubles themselves *)

Lemma Prim2SF_not_nan (f : float) : is_nan f = false -> Prim2SF f <> S754_nan.
Proof.
  intros H. unfold Prim2SF. rewrite H.
  destruct (is_zero f); [discriminate|].
  destruct (is_infinity f); [discriminate|].
  destruct (Z.frexp f) as [r ex].
  destruct (shr_fexp prec emax _ _ loc_Exact) as [shr e'].
  destruct (shr_m shr); discriminate.
Qed.

Lemma Prim2SF_nan (f : float) : is_nan f = true -> Prim2SF f = S754_nan.
Proof. intros H. unfold Prim2SF. now rewrite H. Qed.

Lemma SFleb_nan_r (f : spec_float) : SFleb f S754_nan = false.
Proof. destruct f; reflexivity. Qed.

Lemma leb_not_nan (a b : float) : (a <=? b)%float = true -> is_nan b = false.
Proof.
  rewrite leb_spec. destruct (is_nan b) eqn:N; [|reflexivity].
  rewrite (Prim2SF_nan b N), SFleb_nan_r. discriminate.
Qed.

Lemma nonneg_key (e : float) :
  (0 <=? e)%float = true -> exists k, key (Prim2SF e) = Some k /\ 0 <= k.
Proof.
  intros H. pose proof (leb_not_nan _ _ H) as N.
  destruct (key_total _ (Prim2SF_not_nan e N)) as (k & K).
  exists k. split; [exact K|].
  rewrite leb_spec in H.
  apply (SFleb_key _ _ 0 k (Prim2SF_valid 0) (Prim2SF_valid e) eq_refl K). exact H.
Qed.

Lemma pos_key (s : float) :
  (0 <? s)%float = true -> exists k, key (Prim2SF s) = Some k /\ 0 < k.
Proof.
  rewrite ltb_spec. change (Prim2SF 0) with (S754_zero false).
  pose proof (Prim2SF_valid s) as V. pose proof OV_pos as HOV.
  destruct (Prim2SF s) as [z | i | | sg m e]; unfold SFltb, SFcompare; try discriminate.
  - destruct i; [discriminate|]. intros _. exists OV. split; [reflexivity | lia].
  - destruct sg; [discriminate|]. intros _.
    destruct (valid_finite _ _ _ V) as (_ & _ & _ & U).
    exists (units (Zpos m) e). split; [reflexivity | lia].
Qed.

(** One axis of the centre: with an extent that is not negative and a
    positive scale, the centre lies between the near and the far edge as
    soon as it is a number. *)
Lemma centre_axis (p e s : float) :
  (0 <=? e)%float = true -> (0 <? s)%float = true ->
  is_nan (p * s + e * s / 2)%float = false ->
  (p * s <=? p * s + e * s / 2)%float = true
  /\ (p * s + e * s / 2 <=? p * s + e * s)%float = true.
Proof.
  intros He Hs N.
  destruct (nonneg_key e He) as (ke & Ke & Hke).
  destruct (pos_key s Hs) as (ks & Ks & Hks).
  pose proof (mul_key_nonneg _ _ ke ks (Prim2SF_valid e) (Prim2SF_valid s) Ke Hke Ks Hks)
    as Hw.
  rewrite <- mul_spec in Hw.
  pose proof (Prim2SF_not_nan _ N) as NC.
  pose proof (Prim2SF_valid (p * s)%float) as VA.
  pose proof (Prim2SF_valid (e * s)%float) as VW.
  pose proof (Prim2SF_valid (e * s / 2)%float) as VH.
  pose proof (Prim2SF_valid (p * s + e * s / 2)%float) as VC.
  pose proof (Prim2SF_valid (p * s + e * s)%float) as VF.
  rewrite !leb_spec.
  rewrite add_spec in VC, NC |- *. rewrite div_spec in VH, VC, NC |- *.
  rewrite (add_spec (p * s) (e * s)) in VF |- *.
  change (Prim2SF 2) with two_SF in *.
  exact (centre_axis_SF _ _ VA VW VH VC VF Hw NC).
Qed.


End Rounding.

(** C6. On doubles, for a box of non-negative width and height and a
    positive scale, the centre of the screen rectangle lies inside the box
    under the inclusive containment test of the click handler exactly when
    the centre is a point at all, that is when neither of its coordinates
    is NaN. *)
Theorem center_hits_own_box (viewport : Viewport) (box : BoundingBox) :
  (0 <=? width box) = true -> (0 <=? height box) = true ->
  (0 <? scale viewport) = true ->
  containsPoint viewport box
                (fst (screen_center viewport box)) (snd (screen_center viewport box))
  = negb (is_nan (fst (screen_center viewport box)))
    && negb (is_nan (snd (screen_center viewport box))).
Proof.
  intros Hw Hh Hs.
  unfold containsPoint, screen_center, canvasWidth, canvasHeight, canvasX, canvasY.
  cbn [fst snd].
  destruct (is_nan (x box * scale viewport + width box * scale viewport / 2)) eqn:Nx.
  - (* no comparison with NaN holds *)
    rewrite leb_spec, (Prim2SF_nan _ Nx), SFleb_nan_r. reflexivity.
  - destruct (centre_axis (x box) (width box) (scale viewport) Hw Hs Nx) as [X1 X2].
    rewrite X1, X2.
    destruct (is_nan (y box * scale viewport + height box * scale viewport / 2)) eqn:Ny.
    + rewrite leb_spec, (Prim2SF_nan _ Ny), SFleb_nan_r. reflexivity.
    + destruct (centre_axis (y box) (height box) (scale viewport) Hh Hs Ny) as [Y1 Y2].
      rewrite Y1, Y2. reflexivity.
Qed.

Lemma center_hits_own_box_witness :
  containsPoint Sample.viewport15 Sample.box1
                (fst (screen_center Sample.viewport15 Sample.box1))
                (snd (screen_center Sample.viewport15 Sample.box1)) = true.
Proof.
  rewrite (center_hits_own_box Sample.viewport15 Sample.box1).
  - vm_compute. reflexivity.
  - vm_compute. reflexivity.
  - vm_compute. reflexivity.
  - vm_compute. reflexivity.
Defined.

(** C6, as the specification words it, fails on doubles: the scaled left
    edge of [overflowing_box] is -infinity and its scaled width +infinity, so
    the centre and the far edge are NaN and every comparison with them is
    false. *)
Lemma center_misses_on_overflow :
  (0 <=? width overflowing_box) = true
  /\ (0 <=? height overflowing_box) = true
  /\ (0 <? scale Sample.viewport15) = true
  /\ canvasX Sample.viewport15 overflowing_box = neg_infinity
  /\ canvasWidth Sample.viewport15 overflowing_box = infinity
  /\ is_nan (fst (screen_center Sample.viewport15 overflowing_box)) = true
  /\ containsPoint Sample.viewport15 overflowing_box
                   (fst (screen_center Sample.viewport15 overflowing_box))
                   (snd (screen_center Sample.viewport15 overflowing_box)) = false.
Proof. vm_compute. repeat split; reflexivity. Qed.

(** A box without extent is hit by its own corner: the comparisons are not
    strict. *)
Example degenerate_box_contains_its_point :
  containsPoint Sample.viewport15 (mkBox (Some "dot") None 4 6 0 0 "") 6 9 = true.
Proof. vm_compute. reflexivity. Qed.

(** Rounding is part of the test: a box of negative width has an empty
    horizontal range on paper, but a width as small as -2^-60 is absorbed
    when it is added to the left edge, and the box is hit on that edge. *)
Example negative_width_absorbed :
  let box := mkBox (Some "thin") None 1 0 (-0x1p-60) 10 "" in
  (width box <? 0) = true
  /\ containsPoint Sample.viewport15 box 1.5 5 = true.
Proof. vm_compute. split; reflexivity. Qed.

(** ** Normalisation of the box records *)

Lemma js_or_truthy (a b : option string) : truthy a = true -> js_or a b = a.
Proof. unfold js_or. now intros ->. Qed.

Lemma truthy_nonempty (s : string) : s <> "" -> truthy (Some s) = true.
Proof.
  intros Hs. simpl. destruct (String.eqb_spec s ""); [contradiction | reflexivity].
Qed.

(** C7 as stated fails: a record whose [element_id] is present but empty
    gets the value of [id]. *)
Lemma normalize_empty_element_id :
  let box := mkBox (Some "") (Some "b7") 1 2 3 4 "t" in
  element_id box <> None
  /\ element_id (normalize box) = Some "b7"
  /\ element_id (normalize box) <> element_id box.
Proof. simpl. repeat split; discriminate. Qed.

(** C7, amended.  The identifier of the normalised box is the record's
    [element_id] when that field is present and not empty; it is the
    record's [id] when [element_id] is absent or empty.  The coordinates
    (and [id], [text]) are those of the record. *)
Theorem normalize_identifier (box : BoundingBox) :
  (forall s, element_id box = Some s -> s <> "" -> element_id (normalize box) = Some s)
  /\ (element_id box = None \/ element_id box = Some "" ->
      element_id (normalize box) = id box)
  /\ x (normalize box) = x box /\ y (normalize box) = y box
  /\ width (normalize box) = width box /\ height (normalize box) = height box
  /\ id (normalize box) = id box /\ text (normalize box) = text box.
Proof.
  repeat split.
  - intros s Hs Hne. simpl. rewrite Hs. now rewrite js_or_truthy by now apply truthy_nonempty.
  - intros [H | H]; simpl; rewrite H; reflexivity.
Qed.

Lemma normalize_identifier_witness :
  element_id (normalize Sample.box1) = Some "box1"
  /\ element_id (normalize (mkBox None (Some "legacy") 1 2 3 4 "t")) = Some "legacy".
Proof.
  split.
  - apply (proj1 (normalize_identifier Sample.box1) "box1" eq_refl). discriminate.
  - apply (proj1 (proj2 (normalize_identifier (mkBox None (Some "legacy") 1 2 3 4 "t")))).
    left. reflexivity.
Defined.

(** ** Configuration check *)

Lemma not_configured_iff (base : option string) :
  not_configured base = true <->
  base = None \/ base = Some "" \/ base = Some placeholder.
Proof.
  unfold not_configured. split.
  - destruct base as [s|]; [|now left]. simpl.
    destruct (String.eqb_spec s placeholder) as [->|_]; [now right; right|].
    destruct (String.eqb_spec s "") as [->|_]; [now right; left | discriminate].
  - intros [-> | [-> | ->]]; reflexivity.
Qed.

Lemma effects_clear_canvas (w : World) (e : Effect) :
  In e (effects (clear_canvas w)) ->
  In e (effects w) \/ exists a b c d, e = ClearRect a b c d.
Proof.
  world_cases w; run_code; auto.
  intros H. apply in_app_or in H. destruct H as [H | [<- | []]]; eauto 6.
Qed.

Lemma raster_clear_canvas (w : World) : raster (clear_canvas w) = [].
Proof.
  world_cases w; reflexivity.
Qed.

Lemma no_fetch_in_clear_canvas (w : World) (url : string) :
  In (NetFetch url) (effects (clear_canvas w)) -> In (NetFetch url) (effects w).
Proof.
  intros H. apply effects_clear_canvas in H.
  destruct H as [H | (a & b & c & d & Heq)]; [exact H | discriminate].
Qed.

Lemma clear_canvas_refs (w : World) :
  apiBaseUrl (clear_canvas w) = apiBaseUrl w
  /\ pdfId (clear_canvas w) = pdfId w
  /\ boundingBoxes (clear_canvas w) = boundingBoxes w
  /\ pdfFileUrl (clear_canvas w) = pdfFileUrl w
  /\ isLoading (clear_canvas w) = isLoading w
  /\ error (clear_canvas w) = error w
  /\ pdfPageView (clear_canvas w) = pdfPageView w.
Proof.
  world_cases w; repeat split.
Qed.

(** An error thrown inside the [try] of [fetchPdfData] (configuration,
    fetch, validation) reaches its [catch] block: the error is recorded, the
    boxes and the stored path are reset, the raster is blank; the transform
    is left as it was. *)
Lemma catch_fetch_clears (e : ErrorValue) (w : World) :
  error (catch_fetch e w) = Some e
  /\ boundingBoxes (catch_fetch e w) = []
  /\ pdfFileUrl (catch_fetch e w) = None
  /\ raster (catch_fetch e w) = []
  /\ pdfPageView (catch_fetch e w) = pdfPageView w.
Proof.
  world_cases w; repeat split.
Qed.

Lemma fetchPdfData_unconfigured (id : string) (w : World) :
  not_configured (apiBaseUrl w) = true ->
  fetchPdfData id w = throw_fetch config_error (set_error None (set_isLoading true w)).
Proof.
  destruct w. cbv [fetchPdfData set_isLoading set_error apiBaseUrl].
  now intros ->.
Qed.

(** C4. When the API base is unset (undefined or empty) or is the
    placeholder, [fetchPdfData] ends at once with the configuration error,
    and it has issued no metadata request: the call is over, nothing is
    left pending, and its effects hold no [NetFetch] beyond those made
    before the call. *)
Theorem config_checked_before_fetch (id : string) (w : World) :
  apiBaseUrl w = None \/ apiBaseUrl w = Some "" \/ apiBaseUrl w = Some placeholder ->
  snd (fetchPdfData id w) = None
  /\ error (fst (fetchPdfData id w)) = Some config_error
  /\ isLoading (fst (fetchPdfData id w)) = false
  /\ (forall url, In (NetFetch url) (effects (fst (fetchPdfData id w))) ->
                  In (NetFetch url) (effects w))
  /\ (forall env, load_cycle env id w = fetchPdfData id w).
Proof.
  intros Hbase. apply not_configured_iff in Hbase.
  unfold load_cycle. rewrite (fetchPdfData_unconfigured id w Hbase).
  world_cases w; run_code; cbn [drive snd]; repeat split; auto.
  intros url Hin. apply in_app_or in Hin.
  destruct Hin as [Hin | [Heq | []]]; [exact Hin | discriminate].
Qed.

Lemma config_checked_before_fetch_witness :
  effects (fst (fetchPdfData "doc1"
                  (Sample.initial nuxt_config_with_runtime_apiBaseUrl "doc1")))
  = [ClearRect 0 0 300 150]
  /\ error (fst (fetchPdfData "doc1" (Sample.initial nuxt_config_apiBaseUrl "doc1")))
     = Some config_error.
Proof.
  split.
  - reflexivity.
  - apply (config_checked_before_fetch "doc1" (Sample.initial nuxt_config_apiBaseUrl "doc1")).
    left. reflexivity.
Defined.

(** ** The loading flag *)

Lemma finally_fetch_not_loading (r : World * option Pending) (w' : World) :
  finally_fetch r = (w', None) -> isLoading w' = false.
Proof.
  destruct r as [w [p|]]; cbv [finally_fetch snd fst]; intros H.
  - discriminate.
  - injection H as <-. destruct w. reflexivity.
Qed.

Lemma throw_fetch_over (e : ErrorValue) (w : World) : snd (throw_fetch e w) = None.
Proof. reflexivity. Qed.

Lemma afterMetadata_is_finally (id : string) (r : FetchResult) (w : World) :
  exists r', afterMetadata id r w = finally_fetch r'.
Proof.
  destruct w. unfold afterMetadata, throw_fetch.
  destruct (fetch_error r); [eauto|].
  destruct (data r) as [md|]; [|eauto].
  destruct (boundingBoxes_field md); eauto.
  cbv [pdfFileUrl set_boundingBoxes set_pdfFileUrl].
  destruct (cloudStoragePath md) as [url|]; [|eauto].
  destruct (truthy (Some url)); eauto.
Qed.

Lemma resume_is_finally (p : Pending) (a : Answer) (w : World) (r : World * option Pending) :
  resume p a w = Some r -> exists r', r = finally_fetch r'.
Proof.
  destruct p, a; simpl; intros H; try discriminate; injection H as <-; eauto.
  apply afterMetadata_is_finally.
Qed.

Lemma finally_fetch_snd (r : World * option Pending) : snd (finally_fetch r) = snd r.
Proof. destruct r as [w [p|]]; reflexivity. Qed.

Lemma loadAndRenderPdf_remaining (url : string) (w : World) :
  (remaining (snd (loadAndRenderPdf url w)) <= 3)%nat.
Proof.
  world_cases w; cbv; lia.
Qed.

Lemma resume_progress (env : Engine) (p : Pending) (w : World) :
  exists r, resume p (answer env p) w = Some r
            /\ (remaining (snd r) < remaining (Some p))%nat.
Proof.
  destruct p as [id | url | url pdf | url page vp]; cbn [resume answer].
  - eexists; split; [reflexivity|].
    destruct w. unfold afterMetadata.
    destruct (fetch_error _); [rewrite throw_fetch_over; cbn [remaining]; lia|].
    destruct (data _) as [md|]; [|rewrite throw_fetch_over; cbn [remaining]; lia].
    destruct (boundingBoxes_field md);
      try (rewrite throw_fetch_over; cbn [remaining]; lia).
    cbv [pdfFileUrl set_boundingBoxes set_pdfFileUrl].
    destruct (cloudStoragePath md) as [u|];
      [|rewrite throw_fetch_over; cbn [remaining]; lia].
    destruct (truthy (Some u)); [|rewrite throw_fetch_over; cbn [remaining]; lia].
    rewrite finally_fetch_snd.
    match goal with |- (remaining (snd (loadAndRenderPdf ?u ?w0)) < _)%nat =>
      pose proof (loadAndRenderPdf_remaining u w0) end.
    cbn [remaining]. lia.
  - eexists; split; [reflexivity|]. rewrite finally_fetch_snd.
    destruct (document_answer env); cbn [afterDocument snd remaining]; lia.
  - eexists; split; [reflexivity|]. rewrite finally_fetch_snd.
    destruct (page_answer env); cbn [afterPage snd remaining]; lia.
  - eexists; split; [reflexivity|]. rewrite finally_fetch_snd.
    destruct (render_answer env); cbn [afterRender snd remaining]; lia.
Qed.

Lemma drive_completes (env : Engine) (fuel : nat) :
  forall r : World * option Pending,
    (remaining (snd r) <= fuel)%nat ->
    (snd r = None -> isLoading (fst r) = false) ->
    snd (drive fuel env r) = None /\ isLoading (fst (drive fuel env r)) = false.
Proof.
  induction fuel as [|fuel IH]; intros [w p] Hrem Hdone; cbn [drive snd fst] in *.
  - destruct p as [p|]; [destruct p; cbn [remaining] in Hrem; lia | auto].
  - destruct p as [p|]; [|auto].
    destruct (resume_progress env p w) as (r' & Hres & Hlt).
    rewrite Hres. apply IH.
    + lia.
    + intros Hnone. destruct (resume_is_finally _ _ _ _ Hres) as (r0 & ->).
      apply (finally_fetch_not_loading r0).
      destruct (finally_fetch r0) as [w1 p1]. cbn [snd fst] in *. now subst.
Qed.

Lemma fetchPdfData_over_not_loading (id : string) (w w' : World) :
  fetchPdfData id w = (w', None) -> isLoading w' = false.
Proof.
  unfold fetchPdfData. destruct (not_configured _).
  - unfold throw_fetch. apply finally_fetch_not_loading.
  - discriminate.
Qed.

(** C9. Every invocation of [fetchPdfData] whose [await]s are all answered
    comes to its end, and at the end [isLoading] is false, whatever the
    answers were; the same holds at whichever step the call ends (its
    synchronous part or any resumption), so also when other events are
    interleaved with it. *)
Theorem loading_flag_cleared :
  (forall env id w,
      snd (load_cycle env id w) = None
      /\ isLoading (fst (load_cycle env id w)) = false)
  /\ (forall id w w', fetchPdfData id w = (w', None) -> isLoading w' = false)
  /\ (forall p a w w', resume p a w = Some (w', None) -> isLoading w' = false).
Proof.
  split; [|split].
  - intros env id w. unfold load_cycle. apply drive_completes.
    + unfold fetchPdfData. cbv zeta.
      destruct (not_configured _); [rewrite throw_fetch_over|]; cbn [snd remaining]; lia.
    + intros Hnone. destruct (fetchPdfData id w) as [w' p] eqn:E. cbn [snd fst] in *.
      subst. now apply fetchPdfData_over_not_loading in E.
  - apply fetchPdfData_over_not_loading.
  - intros p a w w' H. destruct (resume_is_finally _ _ _ _ H) as (r0 & Hr0).
    now apply (finally_fetch_not_loading r0).
Qed.

Lemma loading_flag_cleared_witness :
  isLoading (fst (load_cycle (Sample.engine_ok "https://x/doc.pdf" [Sample.box1]) "doc1"
                    (Sample.initial (Some "https://api.example.com") "doc1"))) = false
  /\ isLoading (fst (fetchPdfData "doc1" (Sample.initial None "doc1"))) = false.
Proof.
  split.
  - apply (proj1 loading_flag_cleared).
  - apply (proj1 (proj2 loading_flag_cleared) "doc1" (Sample.initial None "doc1")).
    reflexivity.
Defined.

(** ** Payload validation *)

(** C10. A payload with a storage path whose [boundingBoxes] is missing or
    is not an array ([null] included) ends the cycle in the error state: the
    call is over, an error (the [TypeError] of the failed [.map]) is
    recorded, the box list is empty, the stored path is reset and the
    loading flag is off. *)
Theorem missing_box_list_is_error (id path : string) (field : BoxesField) (w : World) :
  path <> "" ->
  field = BoxesAbsent \/ field = BoxesNull \/ field = BoxesNotArray ->
  let r := afterMetadata id (mkFetchResult (Some (mkMetadata (Some path) field)) None) w in
  snd r = None
  /\ (exists message, error (fst r) = Some (type_error message))
  /\ boundingBoxes (fst r) = []
  /\ pdfFileUrl (fst r) = None
  /\ isLoading (fst r) = false.
Proof.
  intros _ [-> | [-> | ->]]; world_cases w; run_code; repeat split; eauto.
Qed.

Lemma missing_box_list_is_error_witness :
  let r := afterMetadata "doc1"
             (mkFetchResult (Some (mkMetadata (Some "https://x/doc.pdf") BoxesAbsent)) None)
             (Sample.initial (Some "https://api.example.com") "doc1") in
  error (fst r)
  = Some (type_error "Cannot read properties of undefined (reading 'map')")
  /\ boundingBoxes (fst r) = [].
Proof.
  split; [reflexivity|].
  apply (missing_box_list_is_error "doc1" "https://x/doc.pdf" BoxesAbsent
           (Sample.initial (Some "https://api.example.com") "doc1")).
  - discriminate.
  - left. reflexivity.
Defined.

(** By contrast a present, empty array is a valid payload: the cycle goes on
    to the rendering step with no error. *)
Example empty_box_list_is_not_error :
  let r := afterMetadata "doc1" (Sample.ok_metadata "https://x/doc.pdf" [])
             (Sample.initial (Some "https://api.example.com") "doc1") in
  snd r = Some (AwaitDocument "https://x/doc.pdf")
  /\ error (fst r) = None /\ boundingBoxes (fst r) = [].
Proof. vm_compute. repeat split. Qed.

(** ** The route watcher *)



Lemma fetchPdfData_configured (id : string) (w : World) :
  not_configured (apiBaseUrl w) = false ->
  fetchPdfData id w
  = (emit (NetFetch (template (apiBaseUrl w) ++ "/documents/" ++ id))
          (set_error None (set_isLoading true w)),
     Some (AwaitMetadata id)).
Proof.
  destruct w. cbv [fetchPdfData set_isLoading set_error apiBaseUrl emit].
  now intros ->.
Qed.


(** C5 as stated fails: the watcher has a guard in front of the comparison
    with the current identifier.  The empty string differs from "doc1", yet
    the watcher leaves the boxes, the transform and the raster of "doc1" in
    place and starts no load cycle. *)
Lemma watch_ignores_empty_identifier :
  "" <> pdfId ready_doc1
  /\ watch_pdfId (ParamString "") ready_doc1 = (ready_doc1, None)
  /\ boundingBoxes (fst (watch_pdfId (ParamString "") ready_doc1)) = [Sample.box1]
  /\ raster (fst (watch_pdfId (ParamString "") ready_doc1)) <> [].
Proof. repeat split; discriminate. Qed.

(** C5, amended.  When the watcher sees a non-empty string that differs
    from the current identifier, it makes it current and clears the boxes,
    the stored path, the transform, the error and the raster surface, with
    no network call, and only then runs [fetchPdfData] for it; with a usable
    configuration the request is the last effect and everything is still
    cleared while the call is suspended on it.  When the new value equals
    the current identifier, or is empty, missing or not a string, the
    watcher changes nothing and starts nothing. *)
Theorem watch_resets_before_fetch (w : World) :
  (forall newId,
      newId <> "" -> newId <> pdfId w ->
      exists cleared,
        watch_pdfId (ParamString newId) w = fetchPdfData newId cleared
        /\ pdfId cleared = newId
        /\ boundingBoxes cleared = [] /\ pdfFileUrl cleared = None
        /\ pdfPageView cleared = None /\ error cleared = None
        /\ raster cleared = [] /\ isLoading cleared = true
        /\ (forall url, In (NetFetch url) (effects cleared) -> In (NetFetch url) (effects w))
        /\ (not_configured (apiBaseUrl w) = false ->
            let r := watch_pdfId (ParamString newId) w in
            snd r = Some (AwaitMetadata newId)
            /\ effects (fst r)
               = (effects cleared
                  ++ [NetFetch (template (apiBaseUrl w) ++ "/documents/" ++ newId)])%list
            /\ boundingBoxes (fst r) = [] /\ pdfPageView (fst r) = None
            /\ error (fst r) = None /\ raster (fst r) = [] /\ isLoading (fst r) = true))
  /\ watch_pdfId (ParamString (pdfId w)) w = (w, None)
  /\ watch_pdfId (ParamString "") w = (w, None)
  /\ watch_pdfId ParamMissing w = (w, None)
  /\ (forall l, watch_pdfId (ParamArray l) w = (w, None)).
Proof.
  split; [|repeat split].
  - intros newId Hne Hdiff. exists (reset_for newId w).
    assert (Hguard : negb (String.eqb newId "") && negb (String.eqb newId (pdfId w)) = true).
    { destruct (String.eqb_spec newId ""); [contradiction|].
      destruct (String.eqb_spec newId (pdfId w)); [contradiction | reflexivity]. }
    unfold watch_pdfId. rewrite Hguard. clear Hguard Hdiff.
    split; [reflexivity|].
    world_cases w; cbv [reset_for clear_canvas clearRect_all];
      world_norm; unfold raster; world_norm;
      do 7 (split; [reflexivity|]);
      (split;
       [ intros url Hin;
         try (apply in_app_or in Hin; destruct Hin as [Hin | [Heq | []]];
              [|discriminate]);
         exact Hin
       | intros Hconf; unfold fetchPdfData; world_norm; rewrite Hconf;
         world_norm; repeat split ]).
  - unfold watch_pdfId.
    rewrite String.eqb_refl. rewrite andb_false_r. reflexivity.
Qed.

Lemma watch_resets_before_fetch_witness :
  let r := watch_pdfId (ParamString "doc2") ready_doc1 in
  snd r = Some (AwaitMetadata "doc2")
  /\ boundingBoxes (fst r) = [] /\ raster (fst r) = []
  /\ effects (fst r)
     = [ClearRect 0 0 600 800; NetFetch "https://api.example.com/documents/doc2"].
Proof.
  assert (Hne : "doc2" <> "") by discriminate.
  assert (Hdiff : "doc2" <> pdfId ready_doc1) by discriminate.
  destruct (proj1 (watch_resets_before_fetch ready_doc1) "doc2" Hne Hdiff)
    as (cleared & _ & _ & _ & _ & _ & _ & _ & _ & _ & Hconf).
  destruct (Hconf eq_refl) as (Hp & _ & Hb & _ & _ & Hr & _).
  cbv zeta. split; [exact Hp|]. split; [exact Hb|]. split; [exact Hr|]. reflexivity.
Defined.

(** ** The rendering step *)

Lemma stroke_box_explicit viewport box a b c d e f g cw chh bm st lw cl i j k l :
  stroke_box viewport
    (mkWorld a b c d e f g (Some (mkCanvas cw chh (Some (mkContext bm st lw)) cl)) i j k l)
    box
  = mkWorld a b c d e f g
      (Some (mkCanvas cw chh
               (Some (mkContext (bm ++ [outline st lw viewport box]) st lw)) cl))
      i j (k ++ [stroke_effect viewport box]) l.
Proof. reflexivity. Qed.

Lemma fold_stroke_box (viewport : Viewport) (boxes : list BoundingBox) :
  forall a b c d e f g cw chh bm st lw cl i j k l,
    fold_left (stroke_box viewport) boxes
      (mkWorld a b c d e f g
               (Some (mkCanvas cw chh (Some (mkContext bm st lw)) cl)) i j k l)
    = mkWorld a b c d e f g
        (Some (mkCanvas cw chh
                 (Some (mkContext (bm ++ map (outline st lw viewport) boxes) st lw)) cl))
        i j (k ++ map (stroke_effect viewport) boxes) l.
Proof.
  induction boxes as [|box rest IH]; intros; cbn [fold_left map].
  - now rewrite !app_nil_r.
  - rewrite stroke_box_explicit, IH. now rewrite <- !app_assoc.
Qed.

(** Each step of the rendering on a world whose canvas gives a context. *)
Lemma loadAndRenderPdf_with_surface url a b c d e f g cw chh bm st lw cl i j k l :
  loadAndRenderPdf url
    (mkWorld a b c d e f g (Some (mkCanvas cw chh (Some (mkContext bm st lw)) cl)) i j k l)
  = (mkWorld a b c d e f g (Some (mkCanvas cw chh (Some (mkContext [] st lw)) cl)) i j
             ((k ++ [ClearRect 0 0 cw chh]) ++ [GetDocument url]) l,
     Some (AwaitDocument url)).
Proof. reflexivity. Qed.

Lemma afterDocument_fulfilled url pdf a b c d e f g h i j k l :
  afterDocument url (Fulfilled pdf) (mkWorld a b c d e f g h i j k l)
  = (mkWorld a b c d e f g h i j (k ++ [GetPage 1]) l, Some (AwaitPage url pdf)).
Proof. reflexivity. Qed.

Lemma afterDocument_rejected url e w :
  afterDocument url (Rejected e) w = (catch_render e w, None).
Proof. reflexivity. Qed.

Lemma afterPage_fulfilled url page a b c d e f g cw chh cx cl i j k l :
  afterPage url (Fulfilled page)
    (mkWorld a b c d e f g (Some (mkCanvas cw chh cx cl)) i j k l)
  = (mkWorld a b c d e f (Some (getViewport page 1.5))
       (Some (mkCanvas (vwidth (getViewport page 1.5))
                       (vheight (getViewport page 1.5)) cx cl))
       i j
       ((((k ++ [GetViewportCall 1.5])
          ++ [SetCanvasHeight (vheight (getViewport page 1.5))])
         ++ [SetCanvasWidth (vwidth (getViewport page 1.5))])
        ++ [RenderCall (page_label page) (getViewport page 1.5)]) l,
     Some (AwaitRender url page (getViewport page 1.5))).
Proof. reflexivity. Qed.

Lemma afterPage_rejected url e w :
  afterPage url (Rejected e) w = (catch_render e w, None).
Proof. reflexivity. Qed.

Lemma afterRender_fulfilled url page viewport u a b boxes d e f vp cw chh bm st lw cl
      i j k l :
  afterRender url page viewport (Fulfilled u)
    (mkWorld a b boxes d e f (Some vp)
             (Some (mkCanvas cw chh (Some (mkContext bm st lw)) cl)) i j k l)
  = (mkWorld a b boxes d e f (Some vp)
       (Some (mkCanvas cw chh
                (Some (mkContext ((bm ++ [PageImage (page_label page) viewport])
                                  ++ map (outline "red" 2 vp) boxes) "red" 2))
                true))
       i j
       (((k ++ map (stroke_effect vp) boxes) ++ [RemoveClickListener])
        ++ [AddClickListener])
       ((l ++ [ConsoleLog ("PDF rendered successfully from URL: " ++ url)])
        ++ [ConsoleLog "Bounding boxes drawn."]),
     None).
Proof.
  cbv [afterRender drawBoundingBoxes]. world_norm.
  rewrite fold_stroke_box. world_norm. reflexivity.
Qed.

Lemma afterRender_rejected url page viewport e w :
  afterRender url page viewport (Rejected e) w = (catch_render e w, None).
Proof. reflexivity. Qed.

(** C8. With a canvas that gives a 2D context and an engine that fulfils
    every request, the rendering step makes exactly these calls, in this
    order: clear the whole canvas, load the document from the storage path,
    get page 1, compute the viewport at scale 1.5, set the canvas height
    and width to the viewport's, render the page; then it strokes the boxes
    and rebinds the click listener.  The raster is blank from the first
    [await] until the page is painted, the canvas has the viewport's
    dimensions, and after the step the raster holds the page and the
    outlines only.  When the engine rejects any of the three requests the
    raster is blank: the prior content was cleared before the first of
    them. *)
Theorem loadAndRenderPdf_steps (url : string) (w : World) (c : Canvas) (ctx : Context2D)
        (pdf : PdfDocument) (page : PdfPage) :
  canvas w = Some c ->
  context2d c = Some ctx ->
  let viewport := getViewport page 1.5 in
  let r0 := loadAndRenderPdf url w in
  let r1 := afterDocument url (Fulfilled pdf) (fst r0) in
  let r2 := afterPage url (Fulfilled page) (fst r1) in
  let r3 := afterRender url page viewport (Fulfilled tt) (fst r2) in
  (snd r0 = Some (AwaitDocument url) /\ snd r1 = Some (AwaitPage url pdf)
   /\ snd r2 = Some (AwaitRender url page viewport) /\ snd r3 = None)
  /\ effects (fst r2)
     = (effects w
        ++ [ClearRect 0 0 (cwidth c) (cheight c); GetDocument url; GetPage 1;
            GetViewportCall 1.5; SetCanvasHeight (vheight viewport);
            SetCanvasWidth (vwidth viewport); RenderCall (page_label page) viewport])%list
  /\ effects (fst r3)
     = (effects (fst r2) ++ map (stroke_effect viewport) (boundingBoxes w)
        ++ [RemoveClickListener; AddClickListener])%list
  /\ (raster (fst r0) = [] /\ raster (fst r1) = [] /\ raster (fst r2) = [])
  /\ option_map (fun cv => (cwidth cv, cheight cv)) (canvas (fst r2))
     = Some (vwidth viewport, vheight viewport)
  /\ raster (fst r3)
     = PageImage (page_label page) viewport
       :: map (outline "red" 2 viewport) (boundingBoxes w)
  /\ pdfPageView (fst r3) = Some viewport
  /\ (forall e,
         raster (fst (afterDocument url (Rejected e) (fst r0))) = []
         /\ raster (fst (afterPage url (Rejected e) (fst r1))) = []
         /\ raster (fst (afterRender url page viewport (Rejected e) (fst r2))) = []).
Proof.
  intros Hc Hctx.
  destruct w as [a b boxes d e f g cv i j k l]. cbn [canvas] in Hc. subst cv.
  destruct c as [cw chh cx cl]. cbn [context2d] in Hctx. subst cx.
  destruct ctx as [bm st lw].
  cbv zeta. cbn [effects boundingBoxes cwidth cheight].
  rewrite loadAndRenderPdf_with_surface. cbn [fst snd].
  rewrite afterDocument_fulfilled. cbn [fst snd].
  rewrite afterPage_fulfilled. cbn [fst snd].
  rewrite afterRender_fulfilled. cbn [fst snd].
  unfold raster. world_norm.
  repeat split; try reflexivity.
  - rewrite <- !app_assoc. reflexivity.
  - rewrite <- !app_assoc. reflexivity.
Qed.

Lemma loadAndRenderPdf_steps_witness :
  let w := set_boundingBoxes [Sample.box1] ready_doc1 in
  let r0 := loadAndRenderPdf "https://x/doc.pdf" w in
  let r1 := afterDocument "https://x/doc.pdf" (Fulfilled (mkDocument "https://x/doc.pdf"))
                          (fst r0) in
  let r2 := afterPage "https://x/doc.pdf" (Fulfilled Sample.page1) (fst r1) in
  effects (fst r2)
  = [ClearRect 0 0 600 800; GetDocument "https://x/doc.pdf"; GetPage 1;
     GetViewportCall 1.5; SetCanvasHeight 800; SetCanvasWidth 600;
     RenderCall "sample.pdf#1" Sample.viewport15].
Proof.
  cbv zeta.
  exact (proj1 (proj2 (loadAndRenderPdf_steps
                         "https://x/doc.pdf" (set_boundingBoxes [Sample.box1] ready_doc1)
                         (mkCanvas 600 800
                            (Some (mkContext [PageImage "doc1.pdf#1" Sample.viewport15]
                                             "red" 2)) true)
                         (mkContext [PageImage "doc1.pdf#1" Sample.viewport15] "red" 2)
                         (mkDocument "https://x/doc.pdf") Sample.page1
                         eq_refl eq_refl))).
Defined.

(** X23. Without a canvas, or without a 2D context, there is no raster
    surface and the step ends at once with an error and no engine call. *)
Lemma loadAndRenderPdf_without_surface (url : string) (w : World) :
  canvas w = None \/ (exists c, canvas w = Some c /\ context2d c = None) ->
  snd (loadAndRenderPdf url w) = None
  /\ effects (fst (loadAndRenderPdf url w)) = effects w
  /\ raster (fst (loadAndRenderPdf url w)) = []
  /\ exists s, error (fst (loadAndRenderPdf url w)) = Some (ErrorText s).
Proof.
  destruct w as [? ? ? ? ? ? ? cv ? ? ? ?]. cbn [canvas].
  intros [-> | (c & -> & Hx)].
  - run_code. repeat split; eauto.
  - destruct c as [? ? cx ?]. cbn [context2d] in Hx. subst cx.
    run_code. repeat split; eauto.
Qed.

(** ** Errors of a load cycle *)

(** X22. The three kinds of failure raised in [fetchPdfData] itself after the
    request (fetch error, no payload, no storage path) end the cycle with
    the error recorded and the boxes, the stored path and the raster
    cleared; the transform is the one the cycle started with. *)
Lemma metadata_failures_clear (id : string) (r : FetchResult) (w : World) :
  fetch_error r <> None
  \/ data r = None
  \/ (exists md boxes, data r = Some md /\ boundingBoxes_field md = BoxesArray boxes
                       /\ truthy (cloudStoragePath md) = false) ->
  snd (afterMetadata id r w) = None
  /\ (exists e, error (fst (afterMetadata id r w)) = Some e)
  /\ boundingBoxes (fst (afterMetadata id r w)) = []
  /\ pdfFileUrl (fst (afterMetadata id r w)) = None
  /\ raster (fst (afterMetadata id r w)) = []
  /\ pdfPageView (fst (afterMetadata id r w)) = pdfPageView w
  /\ isLoading (fst (afterMetadata id r w)) = false.
Proof.
  destruct r as [dat fe]. cbn [fetch_error data].
  intros [Hfe | [-> | (md & boxes & -> & Hfield & Hpath)]].
  - destruct fe as [fe|]; [|contradiction].
    world_cases w; run_code; repeat split; eauto.
  - destruct fe as [fe|]; world_cases w; run_code; repeat split; eauto.
  - destruct md as [path field]. cbn [boundingBoxes_field cloudStoragePath] in *. subst field.
    destruct fe as [fe|]; destruct path as [url|];
      world_cases w; run_code; rewrite ?Hpath; run_code; repeat split; eauto.
Qed.


(** C3 fails on the code for errors of the rendering step: they are caught
    inside [loadAndRenderPdf], which records the error and nothing else, so
    the [catch] block of [fetchPdfData] never sees them.  After this cycle
    the error is set and the loading flag is off, yet the box list and the
    stored path still hold what the metadata request delivered. *)
Theorem render_error_keeps_boxes :
  let r := load_cycle engine_rejecting_document "doc1"
             (Sample.initial (Some "https://api.example.com") "doc1") in
  snd r = None
  /\ isLoading (fst r) = false
  /\ error (fst r) = Some (ErrorText "Failed to load PDF: Invalid PDF structure.")
  /\ boundingBoxes (fst r) = [Sample.box1]
  /\ pdfFileUrl (fst r) = Some "https://x/doc.pdf".
Proof. vm_compute. repeat split. Qed.

(** The same defect when the page cannot be painted: the transform of the
    failed render stays as well. *)
Example paint_error_keeps_transform :
  let env := mkEngine (Sample.ok_metadata "https://x/doc.pdf" [Sample.box1])
                      (Fulfilled (mkDocument "https://x/doc.pdf"))
                      (Fulfilled Sample.page1)
                      (Rejected (ErrorText "out of memory")) in
  let r := load_cycle env "doc1" (Sample.initial (Some "https://api.example.com") "doc1") in
  error (fst r) = Some (ErrorText "Failed to load PDF: out of memory")
  /\ boundingBoxes (fst r) = [Sample.box1]
  /\ pdfPageView (fst r) = Some Sample.viewport15.
Proof. vm_compute. repeat split. Qed.

(** ** Overlapping load cycles *)

(** C2 as stated fails: nothing compares the identifier a cycle was started
    for with the current one.  In this run the cycle of "doc1" is pending
    when the identifier becomes "doc2"; "doc2" is loaded and shown; the late
    results of "doc1" then replace it, and the final state, with no call
    left pending and "doc2" current, holds the boxes, the path, the
    transform and the page of "doc1". *)
Lemma stale_cycle_overwrites :
  let before := run mounted_doc1 (firstn 6 late_doc1_events) in
  let final := run mounted_doc1 late_doc1_events in
  (tasks (run mounted_doc1 (firstn 2 late_doc1_events))
   = [AwaitMetadata "doc1"; AwaitMetadata "doc2"])
  /\ (pdfId (world before) = "doc2"
      /\ boundingBoxes (world before) = [doc2_box]
      /\ tasks before = [AwaitMetadata "doc1"])
  /\ tasks final = []
  /\ pdfId (world final) = "doc2"
  /\ isLoading (world final) = false /\ error (world final) = None
  /\ boundingBoxes (world final) = [doc1_box]
  /\ pdfFileUrl (world final) = Some "https://x/doc1.pdf"
  /\ pdfPageView (world final) = Some (mkViewport 1.5 600 800)
  /\ raster (world final)
     = [PageImage "doc1.pdf#1" (mkViewport 1.5 600 800);
        outline "red" 2 (mkViewport 1.5 600 800) doc1_box].
Proof. vm_compute. repeat split. Qed.

(** The continuation after the metadata request never reads the current
    identifier: run in a world where another identifier is current, it does
    the same thing. *)
Lemma afterMetadata_ignores_pdfId (id cur : string) (r : FetchResult) (w : World) :
  afterMetadata id r (set_pdfId cur w)
  = (set_pdfId cur (fst (afterMetadata id r w)), snd (afterMetadata id r w)).
Proof.
  destruct r as [[[path field]|] [fe|]]; world_cases w; try reflexivity;
    destruct field as [| | |boxes]; try reflexivity;
    destruct path as [url|]; try reflexivity;
    run_code; destruct (truthy (Some url)); reflexivity.
Qed.

(** C2, amended.  The results of a load cycle are committed when they
    arrive, whatever the current identifier is: in every world, also one
    whose current identifier is not the one the cycle was started for, the
    resumed call stores the boxes and the path of its metadata, and the
    transform of its page, and leaves the current identifier alone; what it
    does is the same whichever identifier is current. *)
Theorem late_results_are_committed (id1 path : string) (boxes : list BoundingBox)
        (page : PdfPage) (w : World) :
  path <> "" ->
  pdfId w <> id1 ->
  let r := afterMetadata id1 (Sample.ok_metadata path boxes) w in
  let r' := afterPage path (Fulfilled page) w in
  boundingBoxes (fst r) = map normalize boxes
  /\ pdfFileUrl (fst r) = Some path
  /\ pdfId (fst r) = pdfId w
  /\ pdfPageView (fst r') = Some (getViewport page 1.5)
  /\ pdfId (fst r') = pdfId w
  /\ (forall cur,
         fst (afterMetadata id1 (Sample.ok_metadata path boxes) (set_pdfId cur w))
         = set_pdfId cur (fst r)).
Proof.
  intros Hpath _. cbv zeta.
  repeat (split; [| try (intros cur; now rewrite afterMetadata_ignores_pdfId)]);
    world_cases w; cbv [Sample.ok_metadata]; run_code;
    rewrite ?(truthy_nonempty path Hpath); run_code; reflexivity.
Qed.

Lemma late_results_are_committed_witness :
  let w := world (run mounted_doc1 (firstn 6 late_doc1_events)) in
  pdfId w = "doc2"
  /\ boundingBoxes
       (fst (afterMetadata "doc1" (Sample.ok_metadata "https://x/doc1.pdf" [doc1_box]) w))
     = map normalize [doc1_box].
Proof.
  cbv zeta. split; [reflexivity|].
  apply (late_results_are_committed "doc1" "https://x/doc1.pdf" [doc1_box] doc1_page
           (world (run mounted_doc1 (firstn 6 late_doc1_events)))).
  - discriminate.
  - vm_compute. discriminate.
Defined.

(** * Further properties of the code *)

(** ** The containment test on doubles *)

(** X1. The four comparisons of the hit test are exact.  When the pointer
    coordinates and the four edges that the test computes (left, left +
    width, top, top + height, scaled, as doubles) are finite, the box is
    hit exactly when the numbers these doubles stand for are in order,
    bounds included.  What separates the test from the geometry on paper is
    the rounding, overflow or NaN in the computation of the edges, never the
    comparison. *)
Theorem containsPoint_compares_exactly (viewport : Viewport) (box : BoundingBox)
        (px py : float) (ql qr qt qb qx qy : Q) :
  stands_for (canvasX viewport box) ql = true ->
  stands_for (canvasX viewport box + canvasWidth viewport box) qr = true ->
  stands_for (canvasY viewport box) qt = true ->
  stands_for (canvasY viewport box + canvasHeight viewport box) qb = true ->
  stands_for px qx = true ->
  stands_for py qy = true ->
  containsPoint viewport box px py = true
  <-> (ql <= qx /\ qx <= qr /\ qt <= qy /\ qy <= qb)%Q.
Proof.
  intros Hl Hr Ht Hb Hx Hy. unfold containsPoint.
  rewrite !andb_true_iff.
  rewrite (leb_stands_for _ _ ql qx Hl Hx), (leb_stands_for _ _ qx qr Hx Hr),
    (leb_stands_for _ _ qt qy Ht Hy), (leb_stands_for _ _ qy qb Hy Hb).
  tauto.
Qed.

Lemma containsPoint_compares_exactly_witness :
  containsPoint Sample.viewport15 Sample.box1 80 155 = true
  <-> (75 <= 80 /\ 80 <= 300 /\ 150 <= 155 /\ 155 <= 195)%Q.
Proof.
  apply (containsPoint_compares_exactly Sample.viewport15 Sample.box1 80 155);
    vm_compute; reflexivity.
Defined.

(** X2. A box whose far edge, as the test computes it, lies below its near
    edge is never hit, wherever the pointer is (also at infinity or NaN):
    horizontally when left and left + width are finite doubles in the wrong
    order, and likewise vertically.  A negative width alone does not make it
    so: see [negative_width_absorbed]. *)
Theorem inverted_box_never_hit (viewport : Viewport) (box : BoundingBox)
        (near far : Q) (px py : float) :
  stands_for (canvasX viewport box) near = true
  /\ stands_for (canvasX viewport box + canvasWidth viewport box) far = true
  \/ stands_for (canvasY viewport box) near = true
     /\ stands_for (canvasY viewport box + canvasHeight viewport box) far = true ->
  (far < near)%Q ->
  containsPoint viewport box px py = false.
Proof.
  intros [[Hn Hf] | [Hn Hf]] Hlt; unfold containsPoint.
  - rewrite (leb_between_empty _ _ px near far Hn Hf Hlt). reflexivity.
  - rewrite <- andb_assoc.
    rewrite (leb_between_empty _ _ py near far Hn Hf Hlt).
    apply andb_false_r.
Qed.

Lemma inverted_box_never_hit_witness :
  containsPoint Sample.viewport15 (mkBox (Some "inverted") None 50 100 (-10) 30 "") 70 155
  = false.
Proof.
  apply (inverted_box_never_hit Sample.viewport15
           (mkBox (Some "inverted") None 50 100 (-10) 30 "") 75 60 70 155).
  - left. split; vm_compute; reflexivity.
  - vm_compute. reflexivity.
Defined.

(** ** What a click can change *)

Lemma click_loop_cases (viewport : Viewport) (px py : float) (boxes : list BoundingBox)
      (w : World) :
  click_loop viewport px py boxes w = w
  \/ exists box, In box boxes /\ containsPoint viewport box px py = true
                 /\ click_loop viewport px py boxes w = focus_box box w.
Proof.
  induction boxes as [|b rest IH]; cbn [click_loop].
  - now left.
  - destruct (containsPoint viewport b px py) eqn:E.
    + right. exists b. repeat split; [now left | exact E].
    + destruct IH as [IH | (box & Hin & Hhit & IH)]; [now left|].
      right. exists box. repeat split; [now right | exact Hhit | exact IH].
Qed.

Lemma focus_box_frame (box : BoundingBox) (w : World) :
  apiBaseUrl (focus_box box w) = apiBaseUrl w
  /\ pdfId (focus_box box w) = pdfId w
  /\ boundingBoxes (focus_box box w) = boundingBoxes w
  /\ pdfFileUrl (focus_box box w) = pdfFileUrl w
  /\ isLoading (focus_box box w) = isLoading w
  /\ error (focus_box box w) = error w
  /\ pdfPageView (focus_box box w) = pdfPageView w
  /\ canvas (focus_box box w) = canvas w
  /\ inputs (focus_box box w) = inputs w
  /\ (activeElement (focus_box box w) = activeElement w
      \/ activeElement (focus_box box w) = Some (field_id box)
         /\ has_input (field_id box) w = true).
Proof.
  destruct w as [a b c d e f g h ins j k l].
  unfold focus_box, field_id, has_input. world_norm.
  destruct (existsb _ ins) eqn:E; world_norm; repeat split; auto.
Qed.

(** X4. A click changes neither the boxes, the stored path, the transform,
    the error, the loading flag, the current identifier nor the canvas; and
    the focus either stays where it was or goes to the input, present in the
    document, of one of the current boxes. *)
Theorem handleCanvasClick_frame (event : MouseEvent) (w : World) :
  apiBaseUrl (handleCanvasClick event w) = apiBaseUrl w
  /\ pdfId (handleCanvasClick event w) = pdfId w
  /\ boundingBoxes (handleCanvasClick event w) = boundingBoxes w
  /\ pdfFileUrl (handleCanvasClick event w) = pdfFileUrl w
  /\ isLoading (handleCanvasClick event w) = isLoading w
  /\ error (handleCanvasClick event w) = error w
  /\ pdfPageView (handleCanvasClick event w) = pdfPageView w
  /\ canvas (handleCanvasClick event w) = canvas w
  /\ inputs (handleCanvasClick event w) = inputs w
  /\ (activeElement (handleCanvasClick event w) = activeElement w
      \/ exists box, In box (boundingBoxes w)
                     /\ In (field_id box) (inputs w)
                     /\ activeElement (handleCanvasClick event w) = Some (field_id box)).
Proof.
  assert (Hcases : handleCanvasClick event w = w
                   \/ exists box, In box (boundingBoxes w)
                                  /\ handleCanvasClick event w = focus_box box w).
  { unfold handleCanvasClick.
    destruct (pdfPageView w) as [viewport|]; [|now left].
    destruct (click_loop_cases viewport (clientX event - rect_left event)
                (clientY event - rect_top event) (boundingBoxes w) w)
      as [H | (box & Hin & _ & H)]; [now left | right; now exists box]. }
  destruct Hcases as [-> | (box & Hin & ->)].
  - repeat (split; [reflexivity|]). now left.
  - destruct (focus_box_frame box w)
      as (H1 & H2 & H3 & H4 & H5 & H6 & H7 & H8 & H9 & Hfocus).
    repeat (split; [assumption|]).
    destruct Hfocus as [Hsame | [Hmoved Hinput]]; [now left|].
    right. exists box. split; [exact Hin|]. split; [|exact Hmoved].
    unfold has_input in Hinput. apply existsb_exists in Hinput.
    destruct Hinput as (s & Hs & Heq). apply String.eqb_eq in Heq. now subst s.
Qed.

(** X5. When the document holds the inputs the template renders for the
    current boxes (the viewer block is shown), the click that resolves to a
    box always finds the input of that box and gives it the focus: the
    handler and the template build the same id, ["input-" + element_id]. *)
Theorem click_focuses_rendered_field (event : MouseEvent) (w : World)
        (viewport : Viewport) (i : nat) (box : BoundingBox) :
  viewer (render w) = true ->
  inputs w = field_ids (render w) ->
  pdfPageView w = Some viewport ->
  nth_error (boundingBoxes w) i = Some box ->
  containsPoint viewport box (fst (click_point event)) (snd (click_point event)) = true ->
  (forall j box', (j < i)%nat -> nth_error (boundingBoxes w) j = Some box' ->
     containsPoint viewport box' (fst (click_point event)) (snd (click_point event))
     = false) ->
  activeElement (handleCanvasClick event w) = Some (field_id box)
  /\ effects (handleCanvasClick event w) = (effects w ++ [FocusInput (field_id box)])%list.
Proof.
  intros Hshown Hinputs Hview Hnth Hhit Hfirst.
  unfold click_point in Hhit, Hfirst. cbn [fst snd] in Hhit, Hfirst.
  unfold handleCanvasClick. rewrite Hview.
  rewrite (click_loop_first viewport _ _ (boundingBoxes w) w i box Hnth Hhit Hfirst).
  assert (Hin : In box (boundingBoxes w)) by (eapply nth_error_In; exact Hnth).
  assert (Hfield : existsb (String.eqb (field_id box)) (inputs w) = true).
  { rewrite Hinputs. unfold render in *. cbn [viewer field_ids] in *. rewrite Hshown.
    destruct (boundingBoxes w) as [|b0 rest] eqn:Eb; [destruct Hin|].
    cbn [List.length Nat.eqb negb andb]. apply existsb_exists.
    exists (field_id box). split; [now apply in_map | apply String.eqb_refl]. }
  destruct w as [a b c d e f g h ins j k l]. cbn [inputs] in Hfield.
  unfold focus_box, has_input, field_id in *. world_norm.
  rewrite Hfield. world_norm. split; reflexivity.
Qed.

Lemma click_focuses_rendered_field_witness :
  activeElement (handleCanvasClick scenarioA_click scenarioA_world) = Some "input-box1".
Proof.
  apply (click_focuses_rendered_field scenarioA_click scenarioA_world
           Sample.viewport15 0 Sample.box1).
  - reflexivity.
  - reflexivity.
  - reflexivity.
  - reflexivity.
  - vm_compute. reflexivity.
  - intros j box' Hj. lia.
Defined.

(** ** Drawing the overlay *)

Lemma drawBoundingBoxes_explicit a b boxes d e f vp cw chh bm st lw cl i j k l :
  drawBoundingBoxes
    (mkWorld a b boxes d e f (Some vp)
             (Some (mkCanvas cw chh (Some (mkContext bm st lw)) cl)) i j k l)
  = mkWorld a b boxes d e f (Some vp)
      (Some (mkCanvas cw chh
               (Some (mkContext (bm ++ map (outline "red" 2 vp) boxes) "red" 2)) cl))
      i j (k ++ map (stroke_effect vp) boxes) (l ++ [ConsoleLog "Bounding boxes drawn."]).
Proof.
  cbv [drawBoundingBoxes]. world_norm. rewrite fold_stroke_box. world_norm. reflexivity.
Qed.

(** X6. With a canvas, a context and a transform, [drawBoundingBoxes]
    strokes one rectangle per box, in the order of the box list, each at the
    box's coordinates times the scale, in red with line width 2; it paints
    over what the canvas already shows, without clearing it, and changes no
    ref, nor the size of the canvas, nor its listener. *)
Theorem drawBoundingBoxes_outlines (w : World) (c : Canvas) (ctx : Context2D)
        (viewport : Viewport) :
  canvas w = Some c ->
  context2d c = Some ctx ->
  pdfPageView w = Some viewport ->
  raster (drawBoundingBoxes w)
  = (bitmap ctx ++ map (outline "red" 2 viewport) (boundingBoxes w))%list
  /\ effects (drawBoundingBoxes w)
     = (effects w ++ map (stroke_effect viewport) (boundingBoxes w))%list
  /\ option_map (fun cv => (cwidth cv, cheight cv, clickListener cv))
                (canvas (drawBoundingBoxes w))
     = Some (cwidth c, cheight c, clickListener c)
  /\ boundingBoxes (drawBoundingBoxes w) = boundingBoxes w
  /\ pdfPageView (drawBoundingBoxes w) = pdfPageView w
  /\ error (drawBoundingBoxes w) = error w
  /\ isLoading (drawBoundingBoxes w) = isLoading w
  /\ pdfFileUrl (drawBoundingBoxes w) = pdfFileUrl w
  /\ pdfId (drawBoundingBoxes w) = pdfId w.
Proof.
  intros Hc Hctx Hv.
  destruct w as [a b boxes d e f g cv i j k l]. cbn [canvas pdfPageView] in Hc, Hv.
  subst cv g. destruct c as [cw chh cx cl]. cbn [context2d] in Hctx. subst cx.
  destruct ctx as [bm st lw].
  rewrite drawBoundingBoxes_explicit. unfold raster. world_norm. repeat split.
Qed.

Lemma drawBoundingBoxes_outlines_witness :
  raster (drawBoundingBoxes ready_doc1)
  = [PageImage "doc1.pdf#1" Sample.viewport15;
     outline "red" 2 Sample.viewport15 Sample.box1].
Proof.
  exact (proj1 (drawBoundingBoxes_outlines ready_doc1
                  (mkCanvas 600 800
                     (Some (mkContext [PageImage "doc1.pdf#1" Sample.viewport15] "red" 2))
                     true)
                  (mkContext [PageImage "doc1.pdf#1" Sample.viewport15] "red" 2)
                  Sample.viewport15 eq_refl eq_refl eq_refl)).
Defined.

(** X7. Without a canvas, without a context or without a transform,
    [drawBoundingBoxes] draws nothing and changes nothing but the console:
    it reports the missing context or transform when the canvas is there and
    the component is not loading, and is silent otherwise. *)
Theorem drawBoundingBoxes_nothing_to_draw_on (w : World) :
  canvas w = None
  \/ (exists c, canvas w = Some c /\ context2d c = None)
  \/ pdfPageView w = None ->
  canvas (drawBoundingBoxes w) = canvas w
  /\ effects (drawBoundingBoxes w) = effects w
  /\ boundingBoxes (drawBoundingBoxes w) = boundingBoxes w
  /\ pdfPageView (drawBoundingBoxes w) = pdfPageView w
  /\ error (drawBoundingBoxes w) = error w
  /\ isLoading (drawBoundingBoxes w) = isLoading w
  /\ console (drawBoundingBoxes w)
     = match canvas w with
       | Some _ =>
           if isLoading w then console w
           else (console w
                 ++ [ConsoleError
                       "Canvas context or PDF page view not available for drawing bounding boxes."
                       None])%list
       | None => console w
       end.
Proof.
  destruct w as [a b boxes d e f g cv i j k l]. cbn [canvas pdfPageView].
  intros [-> | [(c & -> & Hctx) | ->]].
  - cbv [drawBoundingBoxes]. world_norm. repeat split.
  - destruct c as [cw chh cx cl]. cbn [context2d] in Hctx. subst cx.
    cbv [drawBoundingBoxes]. world_norm. destruct e; world_norm; repeat split.
  - destruct cv as [[cw chh [ctx|] cl]|];
      cbv [drawBoundingBoxes]; world_norm; destruct e; world_norm; repeat split.
Qed.

Lemma drawBoundingBoxes_nothing_to_draw_on_witness :
  effects (drawBoundingBoxes (Sample.initial (Some "https://api.example.com") "doc1")) = [].
Proof.
  apply (drawBoundingBoxes_nothing_to_draw_on
           (Sample.initial (Some "https://api.example.com") "doc1")).
  right. right. reflexivity.
Defined.

(** [drawBoundingBoxes] never writes a ref. *)
Lemma drawBoundingBoxes_refs (w : World) :
  apiBaseUrl (drawBoundingBoxes w) = apiBaseUrl w
  /\ pdfId (drawBoundingBoxes w) = pdfId w
  /\ boundingBoxes (drawBoundingBoxes w) = boundingBoxes w
  /\ pdfFileUrl (drawBoundingBoxes w) = pdfFileUrl w
  /\ isLoading (drawBoundingBoxes w) = isLoading w
  /\ error (drawBoundingBoxes w) = error w
  /\ pdfPageView (drawBoundingBoxes w) = pdfPageView w
  /\ inputs (drawBoundingBoxes w) = inputs w
  /\ activeElement (drawBoundingBoxes w) = activeElement w.
Proof.
  destruct w as [a b boxes d e f [vp|] [[cw chh [[bm st lw]|] cl]|] i j k l];
    try rewrite drawBoundingBoxes_explicit;
    try (cbv [drawBoundingBoxes]; world_norm; destruct e; world_norm);
    repeat split.
Qed.

(** ** The load cycle as a whole *)

Lemma afterMetadata_ok id path boxes a b c d e f g cw chh bm st lw cl i j k l :
  path <> "" ->
  afterMetadata id (Sample.ok_metadata path boxes)
    (mkWorld a b c d e f g (Some (mkCanvas cw chh (Some (mkContext bm st lw)) cl)) i j k l)
  = (mkWorld a b (map normalize boxes) (Some path) e f g
             (Some (mkCanvas cw chh (Some (mkContext [] st lw)) cl)) i j
             ((k ++ [ClearRect 0 0 cw chh]) ++ [GetDocument path]) l,
     Some (AwaitDocument path)).
Proof.
  intros Hpath. cbv [Sample.ok_metadata]. run_code.
  rewrite (truthy_nonempty path Hpath). run_code. reflexivity.
Qed.

(** The successful cycle, step by step, in a document in which every lookup
    of the cycle finds a canvas (one that the hosting page or a test harness
    provides: the template's own canvas is not in the document while
    [isLoading] is set, see [patch_document]). *)
Lemma load_cycle_success (id path : string) (boxes : list BoundingBox)
        (pdf : PdfDocument) (page : PdfPage) (w : World) (c : Canvas) (ctx : Context2D) :
  not_configured (apiBaseUrl w) = false ->
  canvas w = Some c ->
  context2d c = Some ctx ->
  path <> "" ->
  let viewport := getViewport page 1.5 in
  let r := load_cycle (mkEngine (Sample.ok_metadata path boxes) (Fulfilled pdf)
                                (Fulfilled page) (Fulfilled tt)) id w in
  snd r = None
  /\ isLoading (fst r) = false
  /\ pdfId (fst r) = pdfId w
  /\ error (fst r) = None
  /\ boundingBoxes (fst r) = map normalize boxes
  /\ pdfFileUrl (fst r) = Some path
  /\ pdfPageView (fst r) = Some viewport
  /\ canvas (fst r)
     = Some (mkCanvas (vwidth viewport) (vheight viewport)
               (Some (mkContext (PageImage (page_label page) viewport
                                   :: map (outline "red" 2 viewport) (map normalize boxes))
                                "red" 2))
               true)
  /\ effects (fst r)
     = (effects w
        ++ [NetFetch (template (apiBaseUrl w) ++ "/documents/" ++ id);
            ClearRect 0 0 (cwidth c) (cheight c); GetDocument path; GetPage 1;
            GetViewportCall 1.5; SetCanvasHeight (vheight viewport);
            SetCanvasWidth (vwidth viewport); RenderCall (page_label page) viewport]
        ++ map (stroke_effect viewport) (map normalize boxes)
        ++ [RemoveClickListener; AddClickListener])%list.
Proof.
  intros Hconf Hc Hctx Hpath.
  cbv zeta. unfold load_cycle.
  rewrite (fetchPdfData_configured id w Hconf). clear Hconf.
  destruct w as [a b bs d e f g cv i j k l]. cbn [canvas apiBaseUrl effects] in *.
  subst cv. destruct c as [cw chh cx cl]. cbn [context2d cwidth cheight] in *. subst cx.
  destruct ctx as [bm st lw]. world_norm.
  cbn [drive snd fst resume answer metadata_answer].
  rewrite (afterMetadata_ok id path boxes) by exact Hpath.
  cbn [drive snd fst resume answer document_answer].
  rewrite afterDocument_fulfilled. cbn [finally_fetch snd fst].
  cbn [drive snd fst resume answer page_answer].
  rewrite afterPage_fulfilled. cbn [finally_fetch snd fst].
  cbn [drive snd fst resume answer render_answer].
  rewrite afterRender_fulfilled. cbn [finally_fetch snd fst]. world_norm.
  repeat (split; [reflexivity|]).
  rewrite <- !app_assoc. reflexivity.
Qed.

(** ** The component in a document of its own *)

Lemma patch_document_refs (w : World) :
  apiBaseUrl (patch_document w) = apiBaseUrl w
  /\ pdfId (patch_document w) = pdfId w
  /\ boundingBoxes (patch_document w) = boundingBoxes w
  /\ pdfFileUrl (patch_document w) = pdfFileUrl w
  /\ isLoading (patch_document w) = isLoading w
  /\ error (patch_document w) = error w
  /\ pdfPageView (patch_document w) = pdfPageView w
  /\ effects (patch_document w) = effects w
  /\ console (patch_document w) = console w
  /\ render (patch_document w) = render w.
Proof. destruct w. repeat split. Qed.

Lemma patch_document_canvas (w : World) :
  viewer (render w) = false -> canvas (patch_document w) = None.
Proof.
  destruct w as [a b c d e f g h i j k l]. intros H.
  cbv [patch_document canvas]. now rewrite H.
Qed.

Lemma never_rendered_patch (w : World) (ts : list Pending) :
  viewer (render w) = false ->
  pdfPageView w = None ->
  forallb is_fetch (effects w) = true ->
  forallb awaits_metadata ts = true ->
  never_rendered (mkSystem (patch_document w) ts).
Proof.
  intros Hv Hp He Ht.
  destruct (patch_document_refs w) as (_ & _ & _ & _ & _ & _ & P & E & _ & R).
  unfold never_rendered. cbn [world tasks].
  rewrite R, P, E. auto using patch_document_canvas.
Qed.

Lemma fetchPdfData_alone (id : string) (w : World) :
  canvas w = None ->
  forallb is_fetch (effects w) = true ->
  viewer (render (fst (fetchPdfData id w))) = false
  /\ pdfPageView (fst (fetchPdfData id w)) = pdfPageView w
  /\ forallb is_fetch (effects (fst (fetchPdfData id w))) = true
  /\ (snd (fetchPdfData id w) = None \/ snd (fetchPdfData id w) = Some (AwaitMetadata id)).
Proof.
  destruct w as [a b c d e f g cv i j k l]. cbn [canvas effects]. intros -> He.
  cbv [fetchPdfData]. world_norm. destruct (not_configured a); run_code.
  - repeat split; auto.
  - rewrite forallb_app, He. repeat split; auto.
Qed.

Lemma afterMetadata_alone (id : string) (r : FetchResult) (w : World) :
  canvas w = None ->
  snd (afterMetadata id r w) = None
  /\ viewer (render (fst (afterMetadata id r w))) = false
  /\ pdfPageView (fst (afterMetadata id r w)) = pdfPageView w
  /\ effects (fst (afterMetadata id r w)) = effects w.
Proof.
  destruct w as [a b c d e f g cv i j k l]. cbn [canvas]. intros ->.
  destruct r as [[[path field]|] [fe|]]; try (repeat split; fail);
    destruct field as [| | |boxes]; try (repeat split; fail);
    destruct path as [url|]; try (repeat split; fail);
    run_code; destruct (truthy (Some url)); run_code; repeat split.
Qed.

Lemma reset_for_alone (id : string) (w : World) :
  canvas w = None ->
  canvas (reset_for id w) = None
  /\ pdfPageView (reset_for id w) = None
  /\ effects (reset_for id w) = effects w.
Proof.
  destruct w as [a b c d e f g cv i j k l]. cbn [canvas]. intros ->. repeat split.
Qed.

Lemma forallb_replace_task (f : Pending -> bool) (n : nat) (q : option Pending)
      (ts : list Pending) :
  forallb f ts = true ->
  (forall p, q = Some p -> f p = true) ->
  forallb f (replace_task n q ts) = true.
Proof.
  intros Hts Hq. revert n.
  induction ts as [|t rest IH]; intros n; [destruct n; reflexivity|].
  cbn [forallb] in Hts. apply andb_true_iff in Hts as [Ht Hrest].
  destruct n as [|m]; cbn [replace_task].
  - destruct q as [p|]; [|exact Hrest].
    cbn [forallb]. now rewrite (Hq p eq_refl), Hrest.
  - cbn [forallb]. now rewrite Ht, IH.
Qed.

Lemma forallb_nth_error (f : Pending -> bool) (n : nat) (ts : list Pending) (p : Pending) :
  forallb f ts = true -> nth_error ts n = Some p -> f p = true.
Proof.
  intros Hts Hn. rewrite forallb_forall in Hts.
  apply Hts. eapply nth_error_In. exact Hn.
Qed.

Lemma spawn_fields (r : World * option Pending) (ts : list Pending) :
  world (spawn r ts) = fst r
  /\ (tasks (spawn r ts) = ts
      \/ exists p, snd r = Some p /\ tasks (spawn r ts) = (ts ++ [p])%list).
Proof.
  destruct r as [w [p|]]; cbv [spawn snd fst world tasks]; split; eauto.
Qed.

(** One event in a document of its own keeps the component unrendered. *)
Lemma step_alone_never_rendered (s : System) (e : Event) :
  never_rendered s -> never_rendered (step_alone s e).
Proof.
  destruct s as [w ts]. intros (Hc & Hv & Hp & He & Ht). cbn [world tasks] in *.
  unfold step_alone.
  assert (Hstay : never_rendered (mkSystem (patch_document w) ts))
    by (apply never_rendered_patch; assumption).
  assert (Hfetch : forall id w0,
             canvas w0 = None -> pdfPageView w0 = None ->
             forallb is_fetch (effects w0) = true ->
             never_rendered
               (mkSystem (patch_document (world (spawn (fetchPdfData id w0) ts)))
                         (tasks (spawn (fetchPdfData id w0) ts)))).
  { intros id w0 Hc0 Hp0 He0.
    destruct (fetchPdfData_alone id w0 Hc0 He0) as (F1 & F2 & F3 & F4).
    destruct (spawn_fields (fetchPdfData id w0) ts) as (S1 & S2).
    rewrite S1. apply never_rendered_patch; try assumption.
    - now rewrite F2.
    - destruct S2 as [-> | (p & Hsnd & ->)]; [exact Ht|].
      rewrite forallb_app, Ht. cbn [forallb andb].
      destruct F4 as [F4 | F4]; rewrite F4 in Hsnd; [discriminate|].
      injection Hsnd as <-. reflexivity. }
  destruct e as [| newId | n a | click]; cbn [step world tasks].
  - unfold onMounted. destruct (negb (String.eqb (pdfId w) "")).
    + apply Hfetch; assumption.
    + exact Hstay.
  - unfold watch_pdfId.
    destruct newId as [| newId | l]; try exact Hstay.
    destruct (negb (String.eqb newId "") && negb (String.eqb newId (pdfId w)));
      [|exact Hstay].
    destruct (reset_for_alone newId w Hc) as (R1 & R2 & R3).
    apply Hfetch; [exact R1 | exact R2 | now rewrite R3].
  - destruct (nth_error ts n) as [p|] eqn:Hn; [|exact Hstay].
    pose proof (forallb_nth_error _ _ _ _ Ht Hn) as Hmeta.
    destruct p as [id | | |]; try discriminate.
    destruct a as [r | | |]; cbn [resume]; try exact Hstay.
    destruct (afterMetadata_alone id r w Hc) as (A1 & A2 & A3 & A4).
    cbn [world tasks]. rewrite A1.
    apply never_rendered_patch.
    + exact A2.
    + now rewrite A3.
    + now rewrite A4.
    + apply forallb_replace_task; [exact Ht | discriminate].
  - rewrite Hc. exact Hstay.
Qed.

Lemma run_alone_never_rendered (events : list Event) (s : System) :
  never_rendered s -> never_rendered (run_alone s events).
Proof.
  revert s. induction events as [|e rest IH]; intros s Hs; [exact Hs|].
  cbn [run_alone fold_left]. apply IH. now apply step_alone_never_rendered.
Qed.

Lemma created_never_rendered (base : option string) (id : string) :
  never_rendered (created base id).
Proof. repeat split. Qed.

(** X8. In a document of its own the component never renders a page.  The
    template puts the canvas into the document only while nothing is loading
    and no error is shown (line 12), and every load sets the loading flag
    before its first [await] (lines 86 and 196).  So from its creation on,
    whatever is mounted, navigated to, answered or clicked, in whatever
    order: the document has no canvas, the viewer block is not shown, there
    is no transform, the metadata API is the only thing that was ever
    called (no engine call, no canvas operation), and no call is suspended
    anywhere but at the metadata request. *)
Theorem component_alone_never_renders (base : option string) (id : string)
        (events : list Event) :
  let s := run_alone (created base id) events in
  canvas (world s) = None
  /\ viewer (render (world s)) = false
  /\ pdfPageView (world s) = None
  /\ forallb is_fetch (effects (world s)) = true
  /\ forallb awaits_metadata (tasks s) = true.
Proof.
  exact (run_alone_never_rendered events (created base id)
           (created_never_rendered base id)).
Qed.

(** X19. In a document of its own every load whose metadata arrive intact
    ends at the canvas lookup.  At any moment of any run of the component,
    first load or navigation, other calls pending or not: when the metadata
    of a pending call arrive with a storage path and a box array, the call
    is over with the error "Canvas element not found."; the boxes and the
    path of that payload are stored, the loading flag is off, the error
    panel is shown instead of the viewer, and nothing was called. *)
Theorem load_alone_ends_at_canvas_lookup (base : option string) (id : string)
        (events : list Event) (n : nat) (p : Pending) (path : string)
        (boxes : list BoundingBox) :
  let s := run_alone (created base id) events in
  nth_error (tasks s) n = Some p ->
  path <> "" ->
  let s' := step_alone s (Settle n (MetadataSettled (Sample.ok_metadata path boxes))) in
  tasks s' = replace_task n None (tasks s)
  /\ error (world s') = Some (ErrorText "Canvas element not found.")
  /\ boundingBoxes (world s') = map normalize boxes
  /\ pdfFileUrl (world s') = Some path
  /\ isLoading (world s') = false
  /\ pdfPageView (world s') = None
  /\ canvas (world s') = None
  /\ error_panel (render (world s')) = true
  /\ viewer (render (world s')) = false
  /\ effects (world s') = effects (world s).
Proof.
  cbv zeta. intros Hn Hpath.
  pose proof (run_alone_never_rendered events (created base id)
                (created_never_rendered base id)) as (Hc & _ & Hp & _ & Ht).
  destruct (run_alone (created base id) events) as [w ts]. cbn [world tasks] in *.
  pose proof (forallb_nth_error _ _ _ _ Ht Hn) as Hmeta.
  destruct p as [id' | | |]; try discriminate.
  unfold step_alone. cbn [step world tasks]. rewrite Hn. cbn [resume].
  destruct w as [a b c d e f g cv i j k l]. cbn [canvas pdfPageView] in Hc, Hp. subst cv g.
  cbv [Sample.ok_metadata]. run_code.
  rewrite (truthy_nonempty path Hpath). run_code.
  repeat split.
Qed.

Lemma load_alone_ends_at_canvas_lookup_witness :
  let s := run_alone (created (Some "https://api.example.com") "doc1") [Mounted] in
  let s' := step_alone s (Settle 0 (MetadataSettled
                                      (Sample.ok_metadata "https://x/doc.pdf" [Sample.box1]))) in
  tasks s = [AwaitMetadata "doc1"]
  /\ tasks s' = []
  /\ error (world s') = Some (ErrorText "Canvas element not found.")
  /\ boundingBoxes (world s') = [Sample.box1].
Proof.
  cbv zeta. split; [reflexivity|].
  destruct (load_alone_ends_at_canvas_lookup (Some "https://api.example.com") "doc1"
              [Mounted] 0 (AwaitMetadata "doc1") "https://x/doc.pdf" [Sample.box1])
    as (H1 & H2 & H3 & _).
  - reflexivity.
  - discriminate.
  - split; [exact H1|]. split; [exact H2 | exact H3].
Defined.

(** *** What the rendering step leaves alone *)

(** The refs and DOM parts no line of [loadAndRenderPdf] assigns. *)
Lemma loadAndRenderPdf_keeps (url : string) (w : World) :
  let w' := fst (loadAndRenderPdf url w) in
  apiBaseUrl w' = apiBaseUrl w /\ pdfId w' = pdfId w
  /\ boundingBoxes w' = boundingBoxes w /\ pdfFileUrl w' = pdfFileUrl w
  /\ isLoading w' = isLoading w /\ pdfPageView w' = pdfPageView w
  /\ inputs w' = inputs w /\ activeElement w' = activeElement w.
Proof. world_cases w; run_code; repeat split. Qed.

Lemma afterDocument_keeps (url : string) (r : Settled PdfDocument) (w : World) :
  let w' := fst (afterDocument url r w) in
  apiBaseUrl w' = apiBaseUrl w /\ pdfId w' = pdfId w
  /\ boundingBoxes w' = boundingBoxes w /\ pdfFileUrl w' = pdfFileUrl w
  /\ isLoading w' = isLoading w /\ pdfPageView w' = pdfPageView w
  /\ inputs w' = inputs w /\ activeElement w' = activeElement w
  /\ canvas w' = canvas w.
Proof. destruct r; destruct w; run_code; repeat split. Qed.

Lemma afterPage_keeps (url : string) (r : Settled PdfPage) (w : World) :
  let w' := fst (afterPage url r w) in
  apiBaseUrl w' = apiBaseUrl w /\ pdfId w' = pdfId w
  /\ boundingBoxes w' = boundingBoxes w /\ pdfFileUrl w' = pdfFileUrl w
  /\ isLoading w' = isLoading w
  /\ inputs w' = inputs w /\ activeElement w' = activeElement w.
Proof. destruct r; destruct w; run_code; repeat split. Qed.

Lemma afterRender_keeps (url : string) (page : PdfPage) (viewport : Viewport)
      (r : Settled unit) (w : World) :
  let w' := fst (afterRender url page viewport r w) in
  apiBaseUrl w' = apiBaseUrl w /\ pdfId w' = pdfId w
  /\ boundingBoxes w' = boundingBoxes w /\ pdfFileUrl w' = pdfFileUrl w
  /\ isLoading w' = isLoading w /\ pdfPageView w' = pdfPageView w
  /\ inputs w' = inputs w /\ activeElement w' = activeElement w.
Proof.
  destruct r as [u|e]; [|destruct w; run_code; repeat split].
  destruct w as [a b boxes d e f [vp|] [[cw chh [[bm st lw]|] cl]|] i j k l];
    try rewrite afterRender_fulfilled;
    try (cbv [afterRender drawBoundingBoxes]; world_norm; destruct e; world_norm);
    cbv zeta; world_norm; repeat split.
Qed.

(** X9. The rendering step commits nothing but the transform, the error and
    the canvas: from its first line to its last, whatever the engine
    answers, [loadAndRenderPdf] changes neither the box list, nor the stored
    path, nor the loading flag, nor the current identifier, nor the focus. *)
Theorem rendering_keeps_fetched_data (url : string) (w : World)
        (doc : Settled PdfDocument) (pg : Settled PdfPage) (painted : Settled unit)
        (page : PdfPage) (viewport : Viewport) :
  let kept := fun w0 : World =>
                (pdfId w0, boundingBoxes w0, pdfFileUrl w0, isLoading w0, activeElement w0) in
  kept (fst (loadAndRenderPdf url w)) = kept w
  /\ kept (fst (afterDocument url doc w)) = kept w
  /\ kept (fst (afterPage url pg w)) = kept w
  /\ kept (fst (afterRender url page viewport painted w)) = kept w.
Proof.
  cbv zeta.
  destruct (loadAndRenderPdf_keeps url w) as (_ & A1 & A2 & A3 & A4 & _ & _ & A5).
  destruct (afterDocument_keeps url doc w) as (_ & B1 & B2 & B3 & B4 & _ & _ & B5 & _).
  destruct (afterPage_keeps url pg w) as (_ & C1 & C2 & C3 & C4 & _ & C5).
  destruct (afterRender_keeps url page viewport painted w)
    as (_ & D1 & D2 & D3 & D4 & _ & _ & D5).
  cbv zeta in *.
  rewrite A1, A2, A3, A4, A5, B1, B2, B3, B4, B5, C1, C2, C3, C4, C5, D1, D2, D3, D4, D5.
  repeat split.
Qed.

(** *** The loading flag and the current identifier during a cycle *)

Lemma afterMetadata_keeps (id : string) (r : FetchResult) (w : World) :
  apiBaseUrl (fst (afterMetadata id r w)) = apiBaseUrl w
  /\ pdfId (fst (afterMetadata id r w)) = pdfId w
  /\ (snd (afterMetadata id r w) <> None ->
      isLoading (fst (afterMetadata id r w)) = isLoading w).
Proof.
  destruct r as [[[path field]|] [fe|]]; world_cases w;
    try (repeat split; intros Hp; now elim Hp);
    destruct field as [| | |boxes]; try (repeat split; intros Hp; now elim Hp);
    destruct path as [url|]; try (repeat split; intros Hp; now elim Hp);
    run_code; destruct (truthy (Some url)); run_code;
    repeat split; intros Hp; now elim Hp.
Qed.

Lemma resume_keeps (p : Pending) (a : Answer) (w : World) (r : World * option Pending) :
  resume p a w = Some r ->
  apiBaseUrl (fst r) = apiBaseUrl w
  /\ pdfId (fst r) = pdfId w
  /\ (snd r <> None -> isLoading (fst r) = isLoading w).
Proof.
  destruct p as [id | url | url pdf | url page vp], a as [m | d | g | u];
    cbn [resume]; intros H; try discriminate; injection H as <-.
  - apply afterMetadata_keeps.
  - destruct (afterDocument_keeps url d w) as (A1 & A2 & _ & _ & A3 & _).
    cbv zeta in *. destruct (afterDocument url d w) as [w' [q|]];
      cbn [finally_fetch fst snd] in *.
    + split; [exact A1|]. split; [exact A2|]. intros _. exact A3.
    + destruct w'. world_norm. split; [exact A1|]. split; [exact A2|].
      intros Hp. now elim Hp.
  - destruct (afterPage_keeps url g w) as (A1 & A2 & _ & _ & A3 & _).
    cbv zeta in *. destruct (afterPage url g w) as [w' [q|]];
      cbn [finally_fetch fst snd] in *.
    + split; [exact A1|]. split; [exact A2|]. intros _. exact A3.
    + destruct w'. world_norm. split; [exact A1|]. split; [exact A2|].
      intros Hp. now elim Hp.
  - destruct (afterRender_keeps url page vp u w) as (A1 & A2 & _ & _ & A3 & _).
    cbv zeta in *. destruct (afterRender url page vp u w) as [w' [q|]];
      cbn [finally_fetch fst snd] in *.
    + split; [exact A1|]. split; [exact A2|]. intros _. exact A3.
    + destruct w'. world_norm. split; [exact A1|]. split; [exact A2|].
      intros Hp. now elim Hp.
Qed.

Lemma fetchPdfData_keeps (id : string) (w : World) :
  apiBaseUrl (fst (fetchPdfData id w)) = apiBaseUrl w
  /\ pdfId (fst (fetchPdfData id w)) = pdfId w
  /\ (snd (fetchPdfData id w) <> None -> isLoading (fst (fetchPdfData id w)) = true).
Proof.
  world_cases w; cbv [fetchPdfData]; world_norm;
    destruct (not_configured _); run_code; repeat split;
    intros Hp; now elim Hp.
Qed.

Lemma handleCanvasClick_cases (event : MouseEvent) (w : World) :
  handleCanvasClick event w = w
  \/ exists box, handleCanvasClick event w = focus_box box w.
Proof.
  unfold handleCanvasClick.
  destruct (pdfPageView w) as [viewport|]; [|now left].
  destruct (click_loop_cases viewport (clientX event - rect_left event)
              (clientY event - rect_top event) (boundingBoxes w) w)
    as [H | (box & _ & _ & H)]; [now left | right; now exists box].
Qed.

Lemma handleCanvasClick_refs (event : MouseEvent) (w : World) :
  isLoading (handleCanvasClick event w) = isLoading w
  /\ pdfPageView (handleCanvasClick event w) = pdfPageView w.
Proof.
  destruct (handleCanvasClick_cases event w) as [-> | (box & ->)]; [now split|].
  destruct (focus_box_frame box w) as (_ & _ & _ & _ & H5 & _ & H7 & _). now split.
Qed.

Lemma resume_over_not_loading (p : Pending) (a : Answer) (w w' : World) :
  resume p a w = Some (w', None) -> isLoading w' = false.
Proof.
  intros H. destruct (resume_is_finally _ _ _ _ H) as (r' & Hr).
  symmetry in Hr. exact (finally_fetch_not_loading _ _ Hr).
Qed.

(** With one call suspended and the loading flag on, answers and clicks
    leave either that one call suspended and the flag on, or no call and
    the flag off. *)
Lemma single_call_step (s : System) (e : Event) :
  starts_call e = false ->
  (exists p, tasks s = [p]) /\ isLoading (world s) = true
  \/ tasks s = [] /\ isLoading (world s) = false ->
  (exists p, tasks (step s e) = [p]) /\ isLoading (world (step s e)) = true
  \/ tasks (step s e) = [] /\ isLoading (world (step s e)) = false.
Proof.
  destruct s as [w ts]. cbn [world tasks].
  destruct e as [| newId | n a | click]; try discriminate; intros _ H; cbn [step world tasks].
  - destruct H as [[(p & ->) Hl] | [-> Hl]].
    + destruct n as [|m]; cbn [nth_error].
      * destruct (resume p a w) as [[w' [q|]]|] eqn:E; cbn [fst snd replace_task world tasks].
        -- left. split; [now exists q|].
           destruct (resume_keeps _ _ _ _ E) as (_ & _ & K). cbn [fst snd] in K.
           rewrite K by discriminate. exact Hl.
        -- right. split; [reflexivity|]. exact (resume_over_not_loading _ _ _ _ E).
        -- left. split; [now exists p | exact Hl].
      * destruct m; cbn [nth_error]; left; (split; [now exists p | exact Hl]).
    + destruct n; cbn [nth_error]; right; now split.
  - destruct (handleCanvasClick_refs click w) as (K & _).
    destruct (canvas w) as [c|]; [destruct (clickListener c)|]; cbn [world tasks];
      rewrite ?K; exact H.
Qed.

Lemma quiet_step_no_call (s : System) (e : Event) :
  starts_call e = false -> tasks s = [] -> tasks (step s e) = [].
Proof.
  destruct s as [w ts]. cbn [tasks].
  destruct e as [| newId | n a | click]; try discriminate; intros _ ->; cbn [step world tasks].
  - now destruct n.
  - now destruct (canvas w) as [c|]; [destruct (clickListener c)|].
Qed.

Lemma start_single_call (s : System) (e : Event) :
  tasks s = [] ->
  tasks (step s e) = []
  \/ (exists p, tasks (step s e) = [p]) /\ isLoading (world (step s e)) = true.
Proof.
  destruct s as [w ts]. cbn [tasks]. intros ->.
  assert (Hfetch : forall id w0,
             tasks (spawn (fetchPdfData id w0) []) = []
             \/ (exists p, tasks (spawn (fetchPdfData id w0) []) = [p])
                /\ isLoading (world (spawn (fetchPdfData id w0) [])) = true).
  { intros id w0. destruct (fetchPdfData_keeps id w0) as (_ & _ & K).
    destruct (fetchPdfData id w0) as [w1 [p|]]; cbv [spawn snd fst world tasks app] in *.
    - right. split; [now exists p | apply K; discriminate].
    - now left. }
  destruct e as [| newId | n a | click]; cbn [step world tasks].
  - unfold onMounted. destruct (negb (String.eqb (pdfId w) "")); [apply Hfetch | now left].
  - unfold watch_pdfId. destruct newId as [| newId | l]; try (now left).
    destruct (negb (String.eqb newId "") && negb (String.eqb newId (pdfId w)));
      [apply Hfetch | now left].
  - left. now destruct n.
  - left. now destruct (canvas w) as [c|]; [destruct (clickListener c)|].
Qed.

Lemma single_call_run (events : list Event) (s : System) :
  forallb (fun e => negb (starts_call e)) events = true ->
  (exists p, tasks s = [p]) /\ isLoading (world s) = true
  \/ tasks s = [] /\ isLoading (world s) = false ->
  (exists p, tasks (run s events) = [p]) /\ isLoading (world (run s events)) = true
  \/ tasks (run s events) = [] /\ isLoading (world (run s events)) = false.
Proof.
  revert s. induction events as [|e rest IH]; intros s Hq Hs; [exact Hs|].
  cbn [forallb] in Hq. apply andb_true_iff in Hq as [He Hrest].
  apply negb_true_iff in He.
  cbn [run fold_left]. apply IH; [exact Hrest|]. now apply single_call_step.
Qed.

Lemma quiet_run_no_call (events : list Event) (s : System) :
  forallb (fun e => negb (starts_call e)) events = true ->
  tasks s = [] -> tasks (run s events) = [].
Proof.
  revert s. induction events as [|e rest IH]; intros s Hq Hs; [exact Hs|].
  cbn [forallb] in Hq. apply andb_true_iff in Hq as [He Hrest].
  apply negb_true_iff in He.
  cbn [run fold_left]. apply IH; [exact Hrest|]. now apply quiet_step_no_call.
Qed.

(** X10. The loading flag while the only call is suspended.  When no call
    is pending, one event is handled, and after it answers and clicks arrive
    in any order but no further mount or route change, then at every moment
    (after any number of these events) the flag is on if a call is
    suspended, and it is off once the call that the event started has
    ended.  (With a second call in flight this fails: the call that ends
    first switches the flag off while the other is still suspended.) *)
Theorem loading_while_pending (s : System) (e0 : Event) (events : list Event) :
  tasks s = [] ->
  forallb (fun e => negb (starts_call e)) events = true ->
  let s' := run (step s e0) events in
  (tasks s' <> [] -> isLoading (world s') = true)
  /\ (tasks (step s e0) <> [] -> tasks s' = [] -> isLoading (world s') = false).
Proof.
  intros Hs Hq. cbv zeta.
  destruct (start_single_call s e0 Hs) as [H0 | H1].
  - pose proof (quiet_run_no_call events _ Hq H0) as Hnone.
    split; [intros Hp; now elim Hp | intros Hp; now elim Hp].
  - destruct (single_call_run events _ Hq (or_introl H1)) as [[(p & Hp) Hl] | [Hn Hl]].
    + split; [intros _; exact Hl | intros _ Hn; rewrite Hn in Hp; discriminate].
    + split; [intros Hp; now elim Hp | intros _ _; exact Hl].
Qed.

Lemma loading_while_pending_witness :
  let s' := run (step mounted_doc1 Mounted)
                [Settle 0 (MetadataSettled (Sample.ok_metadata "https://x/doc1.pdf" [doc1_box]));
                 Click (mkMouseEvent 20 20 0 0);
                 Settle 0 (DocumentSettled (Fulfilled (mkDocument "https://x/doc1.pdf")))] in
  tasks s' = [AwaitPage "https://x/doc1.pdf" (mkDocument "https://x/doc1.pdf")]
  /\ isLoading (world s') = true.
Proof.
  cbv zeta. split; [reflexivity|].
  apply (loading_while_pending mounted_doc1 Mounted
           [Settle 0 (MetadataSettled (Sample.ok_metadata "https://x/doc1.pdf" [doc1_box]));
            Click (mkMouseEvent 20 20 0 0);
            Settle 0 (DocumentSettled (Fulfilled (mkDocument "https://x/doc1.pdf")))]).
  - reflexivity.
  - reflexivity.
  - vm_compute. discriminate.
Defined.

(** The run of [late_doc1_events] shows the second call: after its first
    six events the call for "doc2" has ended and switched the flag off while
    the call for "doc1" is still waiting for its metadata. *)
Example loading_flag_off_while_stale_call_pending :
  let s' := run mounted_doc1 (firstn 6 late_doc1_events) in
  tasks s' = [AwaitMetadata "doc1"] /\ isLoading (world s') = false.
Proof. vm_compute. split; reflexivity. Qed.

(** X11. Only the route watcher changes the current identifier, and
    nothing changes the configured API base: the mount hook, the start of a
    load cycle (also one started for another identifier than the current
    one) and each of its resumptions leave both as they are. *)
Theorem only_the_watcher_changes_pdfId :
  (forall id w, pdfId (fst (fetchPdfData id w)) = pdfId w
                /\ apiBaseUrl (fst (fetchPdfData id w)) = apiBaseUrl w)
  /\ (forall w, pdfId (fst (onMounted w)) = pdfId w
                /\ apiBaseUrl (fst (onMounted w)) = apiBaseUrl w)
  /\ (forall p a w r, resume p a w = Some r ->
                      pdfId (fst r) = pdfId w /\ apiBaseUrl (fst r) = apiBaseUrl w).
Proof.
  split; [|split].
  - intros id w. destruct (fetchPdfData_keeps id w) as (H1 & H2 & _). now split.
  - intros w. unfold onMounted. destruct (negb _); [|now split].
    destruct (fetchPdfData_keeps (pdfId w) w) as (H1 & H2 & _). now split.
  - intros p a w r H. destruct (resume_keeps p a w r H) as (H1 & H2 & _). now split.
Qed.

Lemma only_the_watcher_changes_pdfId_witness :
  pdfId (fst (fetchPdfData "other" ready_doc1)) = "doc1".
Proof.
  exact (proj1 (proj1 only_the_watcher_changes_pdfId "other" ready_doc1)).
Defined.

(** X12. Telling the watcher the same identifier again starts nothing: once
    it has handled a non-empty identifier, that identifier is current, and
    a second notification for it leaves the state as it is with no further
    request. *)
Theorem watch_same_identifier_twice (s : string) (w : World) :
  s <> "" ->
  pdfId (fst (watch_pdfId (ParamString s) w)) = s
  /\ watch_pdfId (ParamString s) (fst (watch_pdfId (ParamString s) w))
     = (fst (watch_pdfId (ParamString s) w), None).
Proof.
  intros Hs.
  assert (Hcur : pdfId (fst (watch_pdfId (ParamString s) w)) = s).
  { unfold watch_pdfId. destruct (String.eqb_spec s ""); [contradiction|].
    destruct (String.eqb_spec s (pdfId w)) as [->|Hdiff]; [reflexivity|].
    cbn [negb andb].
    destruct (fetchPdfData_keeps s (reset_for s w)) as (_ & -> & _).
    world_cases w; reflexivity. }
  split; [exact Hcur|].
  set (w1 := fst (watch_pdfId (ParamString s) w)) in *.
  unfold watch_pdfId at 1. rewrite Hcur, String.eqb_refl, andb_false_r. reflexivity.
Qed.

Lemma watch_same_identifier_twice_witness :
  watch_pdfId (ParamString "doc2") (fst (watch_pdfId (ParamString "doc2") ready_doc1))
  = (fst (watch_pdfId (ParamString "doc2") ready_doc1), None).
Proof.
  apply (watch_same_identifier_twice "doc2" ready_doc1). discriminate.
Defined.

(** *** Failures of the metadata step *)

Lemma metadata_failures_clear_witness :
  let r := afterMetadata "doc1" (mkFetchResult None None) ready_doc1 in
  boundingBoxes (fst r) = [] /\ raster (fst r) = [] /\ isLoading (fst r) = false.
Proof.
  destruct (metadata_failures_clear "doc1" (mkFetchResult None None) ready_doc1)
    as (_ & _ & H1 & _ & H2 & _ & H3).
  - right. left. reflexivity.
  - cbv zeta. split; [exact H1|]. split; [exact H2 | exact H3].
Defined.

Lemma loadAndRenderPdf_without_surface_witness :
  effects (fst (loadAndRenderPdf "https://x/doc.pdf" (set_canvas None ready_doc1))) = [].
Proof.
  apply (loadAndRenderPdf_without_surface "https://x/doc.pdf" (set_canvas None ready_doc1)).
  left. reflexivity.
Defined.

(** X13. Which error a failed metadata step reports, in the order the code
    tests: an error of the request wins over any payload that came with it;
    then a missing payload; then a box list that is missing, [null] or no
    array, also when the storage path is missing too: a [TypeError], whose
    message is the engine's; and only for a payload with a box array, a
    storage path that is missing or empty.  The text of a request error is
    its [statusMessage], else its [message], else the error as a string, an
    empty text counting as missing. *)
Theorem metadata_error_reported (id : string) (w : World) :
  (forall fe payload,
      error (fst (afterMetadata id (mkFetchResult payload (Some fe)) w))
      = Some (new_Error ("Error fetching metadata: " ++ fetch_error_text fe)))
  /\ error (fst (afterMetadata id (mkFetchResult None None) w))
     = Some (new_Error "No data returned from metadata API.")
  /\ (forall path field,
         (forall boxes, field <> BoxesArray boxes) ->
         exists message,
           error (fst (afterMetadata id
                         (mkFetchResult (Some (mkMetadata path field)) None) w))
           = Some (type_error message))
  /\ (forall path boxes,
         path = None \/ path = Some "" ->
         error (fst (afterMetadata id
                       (mkFetchResult (Some (mkMetadata path (BoxesArray boxes))) None) w))
         = Some (new_Error "PDF cloud storage path not provided in API response."))
  /\ (forall fe,
         fetch_error_text fe
         = match statusMessage fe, message fe with
           | Some s, _ => if String.eqb s "" then
                            match message fe with
                            | Some m => if String.eqb m "" then as_string fe else m
                            | None => as_string fe
                            end
                          else s
           | None, Some m => if String.eqb m "" then as_string fe else m
           | None, None => as_string fe
           end).
Proof.
  split; [|split; [|split; [|split]]].
  - intros fe payload. world_cases w; reflexivity.
  - world_cases w; reflexivity.
  - intros path field Hfield.
    destruct field as [| | |boxes]; [| | |now elim (Hfield boxes)];
      eexists; world_cases w; reflexivity.
  - intros path boxes [-> | ->]; world_cases w; reflexivity.
  - intros [[s|] [m|] str]; unfold fetch_error_text; cbn [statusMessage message as_string truthy template];
      repeat match goal with |- context [String.eqb ?a ""] => destruct (String.eqb a "") end;
      reflexivity.
Qed.

Lemma metadata_error_reported_witness :
  error (fst (afterMetadata "doc1"
                (mkFetchResult (Some (mkMetadata None (BoxesArray [Sample.box1]))) None)
                ready_doc1))
  = Some (new_Error "PDF cloud storage path not provided in API response.").
Proof.
  apply (proj1 (proj2 (proj2 (proj2 (metadata_error_reported "doc1" ready_doc1))))).
  left. reflexivity.
Defined.

Lemma throw_fetch_effects (e : ErrorValue) (w : World) (x : Effect) :
  In x (effects (fst (throw_fetch e w))) ->
  In x (effects w) \/ exists a b c d, x = ClearRect a b c d.
Proof.
  world_cases w; run_code; auto.
  intros H. apply in_app_or in H. destruct H as [H | [<- | []]]; eauto 6.
Qed.

(** X14. The only document the engine is ever asked for is the storage
    path of the payload: an engine call for [url] after the metadata step
    means that the request reported no error and delivered a payload with a
    box array and the non-empty storage path [url]. *)
Theorem document_loaded_is_payload_path (id url : string) (r : FetchResult) (w : World) :
  In (GetDocument url) (effects (fst (afterMetadata id r w))) ->
  In (GetDocument url) (effects w)
  \/ (fetch_error r = None
      /\ exists boxes, data r = Some (mkMetadata (Some url) (BoxesArray boxes))
                       /\ url <> "").
Proof.
  assert (Hthrow : forall e w0,
             In (GetDocument url) (effects (fst (throw_fetch e w0))) ->
             In (GetDocument url) (effects w0)).
  { intros e w0 H. apply throw_fetch_effects in H.
    destruct H as [H | (q1 & q2 & q3 & q4 & Heq)]; [exact H | discriminate]. }
  unfold afterMetadata.
  destruct r as [[[path field]|] [fe|]]; cbn [fetch_error data cloudStoragePath boundingBoxes_field];
    try (intros H; left; now apply Hthrow in H).
  destruct field as [| | |boxes];
    try (intros H; left; apply Hthrow in H; destruct w; exact H).
  destruct w as [a b c d e f g cv i j k l]. world_norm.
  destruct path as [p|]; [|intros H; left; now apply Hthrow in H].
  destruct (truthy (Some p)) eqn:Et; [|intros H; left; now apply Hthrow in H].
  destruct cv as [[cw chh [[bm st lw]|] cl]|]; run_code; intros H;
    try (left; exact H).
  apply in_app_or in H. destruct H as [H | [Heq | []]].
  - apply in_app_or in H. destruct H as [H | [Heq | []]]; [left; exact H | discriminate].
  - injection Heq as ->. right. split; [reflexivity|]. exists boxes. split; [reflexivity|].
    intros ->. discriminate.
Qed.

Lemma document_loaded_is_payload_path_witness :
  exists boxes,
    data (Sample.ok_metadata "https://x/doc.pdf" [Sample.box1])
    = Some (mkMetadata (Some "https://x/doc.pdf") (BoxesArray boxes)).
Proof.
  destruct (document_loaded_is_payload_path "doc1" "https://x/doc.pdf"
              (Sample.ok_metadata "https://x/doc.pdf" [Sample.box1])
              (Sample.initial (Some "https://api.example.com") "doc1"))
    as [H | (_ & boxes & H & _)].
  - vm_compute. right. left. reflexivity.
  - destruct H.
  - exists boxes. exact H.
Defined.

(** ** Worker set-up *)

Lemma module_src_truthy (m : WorkerModule) : src_truthy (module_src m) = true.
Proof.
  unfold module_src. destruct (default m) as [s|]; [|reflexivity].
  destruct (truthy (Some s)) eqn:E; [exact E | reflexivity].
Qed.

(** X15. The set-up leaves a library whose worker source is set alone, with
    no import; otherwise, once its import has settled, the worker source is
    set whatever the outcome was: to the default export of the module, to
    the module itself when it has no usable default export, or to the
    fallback address when the import failed.  The version is never
    written. *)
Theorem worker_setup_sets_source (lib : PdfJs) :
  (src_truthy (workerSrc lib) = true -> worker_setup lib = false)
  /\ (forall r, src_truthy (workerSrc (fst (after_import r lib))) = true
                /\ version (fst (after_import r lib)) = version lib)
  /\ (forall m, workerSrc (fst (after_import (Fulfilled m) lib))
                = match default m with
                  | Some s => if String.eqb s "" then SrcModuleObject else SrcString s
                  | None => SrcModuleObject
                  end).
Proof.
  split; [|split].
  - unfold worker_setup. now intros ->.
  - intros [m|e]; cbn [after_import fst workerSrc version].
    + split; [apply module_src_truthy | reflexivity].
    + destruct (src_truthy (workerSrc lib)) eqn:E; cbn [negb fst workerSrc version].
      * split; [exact E | reflexivity].
      * split; reflexivity.
  - intros m. cbn [after_import fst workerSrc]. unfold module_src.
    destruct (default m) as [s|]; [|reflexivity].
    cbn [truthy]. destruct (String.eqb s ""); reflexivity.
Qed.

Lemma worker_setup_sets_source_witness :
  worker_setup (mkPdfJs (SrcString "/assets/pdf.worker.js") "4.0.379") = false.
Proof.
  apply (proj1 (worker_setup_sets_source
                  (mkPdfJs (SrcString "/assets/pdf.worker.js") "4.0.379"))).
  reflexivity.
Defined.

(** X16. The fallback never replaces a worker source: when the import fails
    and a source has been set in the meantime, the library is left as it is
    and the failure is only logged; the fallback address, built from the
    library's version, is written only when the import failed and no source
    is set. *)
Theorem worker_fallback_only_when_unset (lib : PdfJs) (e : ErrorValue) :
  (src_truthy (workerSrc lib) = true -> fst (after_import (Rejected e) lib) = lib)
  /\ (src_truthy (workerSrc lib) = false ->
      workerSrc (fst (after_import (Rejected e) lib))
      = SrcString ("//cdnjs.cloudflare.com/ajax/libs/pdf.js/" ++ version lib
                   ++ "/pdf.worker.mjs"))
  /\ snd (after_import (Rejected e) lib)
     = [ConsoleError "Error setting up PDF.js worker:" (Some e)].
Proof.
  cbn [after_import].
  destruct (src_truthy (workerSrc lib)); cbn [negb fst snd workerSrc];
    repeat split; try reflexivity; discriminate.
Qed.

Lemma worker_fallback_only_when_unset_witness :
  workerSrc (fst (after_import (Rejected (ErrorText "offline")) (mkPdfJs (SrcString "") "4.0.379")))
  = SrcString "//cdnjs.cloudflare.com/ajax/libs/pdf.js/4.0.379/pdf.worker.mjs".
Proof.
  apply (proj1 (proj2 (worker_fallback_only_when_unset
                         (mkPdfJs (SrcString "") "4.0.379") (ErrorText "offline")))).
  reflexivity.
Defined.

(** ** What the user sees *)

Lemma afterRender_error_kept url page viewport u (w : World) :
  error (fst (afterRender url page viewport (Fulfilled u) w)) = error w
  /\ snd (afterRender url page viewport (Fulfilled u) w) = None.
Proof.
  destruct w as [a b boxes d e f [vp|] [[cw chh [[bm st lw]|] cl]|] i j k l];
    try rewrite afterRender_fulfilled;
    try (cbv [afterRender drawBoundingBoxes]; world_norm; destruct e; world_norm);
    split; reflexivity.
Qed.

(** Every error the component stores is one the template shows. *)
Lemma catch_render_shown (e : ErrorValue) (w : World) :
  exists e', error (catch_render e w) = Some e' /\ error_truthy e' = true.
Proof. destruct w. run_code. eexists. split; reflexivity. Qed.

Lemma resume_error_shown (p : Pending) (a : Answer) (w : World) (r : World * option Pending) :
  resume p a w = Some r ->
  (forall e, error w = Some e -> error_truthy e = true) ->
  forall e, error (fst r) = Some e -> error_truthy e = true.
Proof.
  assert (Hfin : forall r0 : World * option Pending,
             error (fst (finally_fetch r0)) = error (fst r0)).
  { intros [[a0 b0 c0 d0 e0 f0 g0 h0 i0 j0 k0 l0] [q|]]; reflexivity. }
  destruct p as [id | url | url pdf | url page vp], a as [m | d | g | u];
    cbn [resume]; intros H; try discriminate; injection H as <-; intros Hw e.
  - destruct m as [[[path field]|] [fe|]]; world_cases w; cbn [error] in Hw;
      try (run_code; intros He; injection He as <-; reflexivity);
      destruct field as [| | |boxes];
      try (run_code; intros He; injection He as <-; reflexivity);
      destruct path as [p|];
      try (run_code; intros He; injection He as <-; reflexivity);
      run_code; destruct (truthy (Some p)); run_code;
      try (intros He; injection He as <-; reflexivity);
      apply Hw.
  - rewrite Hfin. destruct d as [pdf|err].
    + destruct w. run_code. apply Hw.
    + destruct (catch_render_shown err w) as (e' & He' & Ht).
      cbn [afterDocument fst]. rewrite He'. intros He. injection He as <-. exact Ht.
  - rewrite Hfin. destruct g as [pg|err].
    + destruct w. run_code. apply Hw.
    + destruct (catch_render_shown err w) as (e' & He' & Ht).
      cbn [afterPage fst]. rewrite He'. intros He. injection He as <-. exact Ht.
  - rewrite Hfin. destruct u as [u|err].
    + destruct (afterRender_error_kept url page vp u w) as [-> _]. apply Hw.
    + destruct (catch_render_shown err w) as (e' & He' & Ht).
      cbn [afterRender fst]. rewrite He'. intros He. injection He as <-. exact Ht.
Qed.

Lemma fetchPdfData_error_shown (id : string) (w : World) :
  forall e, error (fst (fetchPdfData id w)) = Some e -> error_truthy e = true.
Proof.
  intros e. world_cases w; cbv [fetchPdfData]; world_norm;
    destruct (not_configured _); run_code; intros He;
    try discriminate; injection He as <-; reflexivity.
Qed.

Lemma drive_error_shown (env : Engine) (fuel : nat) :
  forall r : World * option Pending,
    (forall e, error (fst r) = Some e -> error_truthy e = true) ->
    forall e, error (fst (drive fuel env r)) = Some e -> error_truthy e = true.
Proof.
  induction fuel as [|fuel IH]; intros [w p] Hr; cbn [drive snd fst] in *.
  - destruct p; exact Hr.
  - destruct p as [p|]; [|exact Hr].
    destruct (resume p (answer env p) w) as [r'|] eqn:E; [|exact Hr].
    apply IH. exact (resume_error_shown _ _ _ _ E Hr).
Qed.

(** X17. After a load cycle that has run to its end the template shows
    exactly one of the error panel and the viewer, and never the loading
    message: the error panel when the cycle recorded an error, the viewer
    (canvas and fields) when it did not.  The fields and the "no bounding
    boxes" note belong to the viewer and are absent with it. *)
Theorem view_after_cycle (env : Engine) (id : string) (w : World) :
  let w' := fst (load_cycle env id w) in
  loading_message (render w') = false
  /\ error_panel (render w') = negb (viewer (render w'))
  /\ (error_panel (render w') = true <-> error w' <> None)
  /\ (viewer (render w') = false ->
      field_ids (render w') = [] /\ no_boxes_note (render w') = false).
Proof.
  cbv zeta.
  destruct (drive_completes env 4 (fetchPdfData id w)) as (_ & Hload).
  - unfold fetchPdfData. cbv zeta.
    destruct (not_configured _); [rewrite throw_fetch_over|]; cbn [snd remaining]; lia.
  - intros Hnone. destruct (fetchPdfData id w) as [w0 p] eqn:E. cbn [snd fst] in *.
    subst. now apply fetchPdfData_over_not_loading in E.
  - pose proof (drive_error_shown env 4 (fetchPdfData id w)
                  (fetchPdfData_error_shown id w)) as Hshown.
    fold (load_cycle env id w) in Hload, Hshown.
    destruct (fst (load_cycle env id w)) as [a b boxes d e f g h i j k l].
    cbn [isLoading error] in Hload, Hshown. subst e.
    unfold render. cbn [isLoading error boundingBoxes loading_message error_panel viewer
                        field_ids no_boxes_note negb andb].
    destruct f as [err|].
    + rewrite (Hshown err eq_refl). cbn [negb andb].
      split; [reflexivity|]. split; [reflexivity|].
      split; [split; [discriminate | reflexivity]|].
      intros _. split; reflexivity.
    + cbn [negb andb].
      split; [reflexivity|]. split; [reflexivity|].
      split; [split; [discriminate | intros H; now elim H]|].
      discriminate.
Qed.

(** X18. With an unset or placeholder API base a load attempt ends with the
    error panel and, inside it, the hint about [apiBaseUrl] in
    [nuxt.config.ts]: the text the template looks for is part of the
    message the code throws.  Neither the loading message nor the viewer is
    shown. *)
Theorem unconfigured_load_shows_hint (id : string) (w : World) :
  not_configured (apiBaseUrl w) = true ->
  render (fst (fetchPdfData id w)) = mkView false true true false [] false.
Proof.
  intros Hconf. rewrite (fetchPdfData_unconfigured id w Hconf).
  world_cases w; vm_compute; reflexivity.
Qed.

Lemma unconfigured_load_shows_hint_witness :
  config_hint (render (fst (fetchPdfData "doc1"
                              (Sample.initial nuxt_config_with_runtime_apiBaseUrl "doc1"))))
  = true.
Proof.
  rewrite (unconfigured_load_shows_hint "doc1"
             (Sample.initial nuxt_config_with_runtime_apiBaseUrl "doc1") eq_refl).
  reflexivity.
Defined.

(** An error of the rendering step does not show the hint: its text starts
    with "Failed to load PDF: " and here goes on with the engine's words. *)
Example render_error_shows_no_hint :
  let r := load_cycle engine_rejecting_document "doc1"
             (Sample.initial (Some "https://api.example.com") "doc1") in
  render (fst r) = mkView false true false false [] false.
Proof. vm_compute. reflexivity. Qed.

(** ** Normalisation, again *)

(** X20. Normalising is idempotent, and a normalised box has a usable
    (non-empty) identifier exactly when the record had a non-empty
    [element_id] or a non-empty [id]. *)
Theorem normalize_idempotent (box : BoundingBox) :
  normalize (normalize box) = normalize box
  /\ truthy (element_id (normalize box)) = truthy (element_id box) || truthy (id box).
Proof.
  destruct box as [eid i bx by_ bw bh t]. unfold normalize, js_or.
  cbn [element_id id x y width height text].
  destruct (truthy eid) eqn:E; cbn [orb].
  - rewrite E. split; reflexivity.
  - destruct (truthy i) eqn:E'; rewrite ?E'; split; reflexivity.
Qed.

(** ** Clicks while a navigation loads *)

Lemma fetchPdfData_view (id : string) (w : World) :
  pdfPageView (fst (fetchPdfData id w)) = pdfPageView w
  /\ (snd (fetchPdfData id w) = None \/ snd (fetchPdfData id w) = Some (AwaitMetadata id)).
Proof.
  world_cases w; cbv [fetchPdfData]; world_norm;
    destruct (not_configured _); run_code; split; auto.
Qed.

Lemma afterMetadata_view (id : string) (r : FetchResult) (w : World) :
  pdfPageView (fst (afterMetadata id r w)) = pdfPageView w
  /\ (snd (afterMetadata id r w) = None
      \/ exists url, snd (afterMetadata id r w) = Some (AwaitDocument url)).
Proof.
  destruct r as [[[path field]|] [fe|]]; world_cases w;
    try (split; [reflexivity | now left]);
    destruct field as [| | |boxes]; try (split; [reflexivity | now left]);
    destruct path as [url|]; try (split; [reflexivity | now left]);
    run_code; destruct (truthy (Some url)); run_code;
    (split; [reflexivity | first [now left | right; eexists; reflexivity]]).
Qed.

Lemma finally_fetch_view (r : World * option Pending) :
  pdfPageView (fst (finally_fetch r)) = pdfPageView (fst r).
Proof. destruct r as [w [p|]]; [reflexivity | destruct w; reflexivity]. Qed.

Lemma resume_view (p : Pending) (a : Answer) (w : World) (r : World * option Pending) (n : nat) :
  page_arrives (Settle n a) = false ->
  resume p a w = Some r ->
  pdfPageView (fst r) = pdfPageView w.
Proof.
  intros Ha.
  destruct p as [id | url | url pdf | url page vp], a as [m | d | g | u];
    cbn [resume]; intros H; try discriminate; injection H as <-.
  - apply afterMetadata_view.
  - rewrite finally_fetch_view.
    now destruct (afterDocument_keeps url d w) as (_ & _ & _ & _ & _ & K & _).
  - rewrite finally_fetch_view.
    destruct g as [pg | e]; [discriminate|].
    rewrite afterPage_rejected. destruct w; reflexivity.
  - rewrite finally_fetch_view.
    now destruct (afterRender_keeps url page vp u w) as (_ & _ & _ & _ & _ & K & _).
Qed.

(** Without a page that arrives, no event sets a transform. *)
Lemma step_keeps_no_view (s : System) (e : Event) :
  page_arrives e = false ->
  pdfPageView (world s) = None ->
  pdfPageView (world (step s e)) = None.
Proof.
  destruct s as [w ts]. cbn [world]. intros He Hv.
  assert (Hfetch : forall id w0, pdfPageView w0 = None ->
             pdfPageView (world (spawn (fetchPdfData id w0) ts)) = None).
  { intros id w0 H0. destruct (spawn_fields (fetchPdfData id w0) ts) as (-> & _).
    now rewrite (proj1 (fetchPdfData_view id w0)). }
  destruct e as [| newId | n a | click]; cbn [step world tasks].
  - unfold onMounted. destruct (negb (String.eqb (pdfId w) "")); [now apply Hfetch | exact Hv].
  - unfold watch_pdfId. destruct newId as [| newId | l]; try exact Hv.
    destruct (negb (String.eqb newId "") && negb (String.eqb newId (pdfId w)));
      [|exact Hv].
    apply Hfetch. world_cases w; reflexivity.
  - destruct (nth_error ts n) as [p|]; [|exact Hv].
    destruct (resume p a w) as [r|] eqn:E; [|exact Hv].
    cbn [world]. now rewrite (resume_view p a w r n He E).
  - destruct (handleCanvasClick_refs click w) as (_ & K).
    destruct (canvas w) as [c|]; [destruct (clickListener c)|]; cbn [world];
      rewrite ?K; exact Hv.
Qed.

Lemma run_keeps_no_view (events : list Event) (s : System) :
  forallb (fun e => negb (page_arrives e)) events = true ->
  pdfPageView (world s) = None ->
  pdfPageView (world (run s events)) = None.
Proof.
  revert s. induction events as [|e rest IH]; intros s Hq Hs; [exact Hs|].
  cbn [forallb] in Hq. apply andb_true_iff in Hq as [He Hrest].
  apply negb_true_iff in He.
  cbn [run fold_left]. apply IH; [exact Hrest|]. now apply step_keeps_no_view.
Qed.

(** X21. Clicks while a navigation loads.  From the moment the watcher has
    handled a new identifier until a page request is fulfilled (that of the
    new call or that of an older call that is still suspended), whatever
    else happens in between, in any order and with any number of calls in
    flight, the transform is absent and a click does nothing at all. *)
Theorem no_click_before_new_viewport (s : System) (newId : string)
        (events : list Event) (click : MouseEvent) :
  newId <> "" ->
  newId <> pdfId (world s) ->
  forallb (fun e => negb (page_arrives e)) events = true ->
  let s' := run (step s (RouteChanged (ParamString newId))) events in
  pdfPageView (world s') = None /\ step s' (Click click) = s'.
Proof.
  intros Hne Hdiff Hq. cbv zeta.
  assert (Hstart : pdfPageView (world (step s (RouteChanged (ParamString newId)))) = None).
  { destruct s as [w ts]. cbn [world] in Hdiff. cbn [step world tasks].
    unfold watch_pdfId.
    destruct (String.eqb_spec newId ""); [contradiction|].
    destruct (String.eqb_spec newId (pdfId w)); [contradiction|]. cbn [negb andb].
    destruct (spawn_fields (fetchPdfData newId (reset_for newId w)) ts) as (-> & _).
    rewrite (proj1 (fetchPdfData_view newId (reset_for newId w))).
    world_cases w; reflexivity. }
  pose proof (run_keeps_no_view events _ Hq Hstart) as Hview.
  split; [exact Hview|].
  destruct (run (step s (RouteChanged (ParamString newId))) events) as [w' ts'].
  cbn [world] in Hview. cbn [step world tasks].
  unfold handleCanvasClick. rewrite Hview.
  now destruct (canvas w') as [c|]; [destruct (clickListener c)|].
Qed.

Lemma no_click_before_new_viewport_witness :
  let s' := run (step (mkSystem ready_doc1 []) (RouteChanged (ParamString "doc2")))
                [Settle 0 (MetadataSettled (Sample.ok_metadata "https://x/doc2.pdf" [doc2_box]));
                 Click (mkMouseEvent 50 70 0 0);
                 Settle 0 (DocumentSettled (Fulfilled (mkDocument "https://x/doc2.pdf")))] in
  boundingBoxes (world s') = [doc2_box]
  /\ step s' (Click (mkMouseEvent 50 70 0 0)) = s'.
Proof.
  cbv zeta. split; [reflexivity|].
  apply (no_click_before_new_viewport (mkSystem ready_doc1 []) "doc2"
           [Settle 0 (MetadataSettled (Sample.ok_metadata "https://x/doc2.pdf" [doc2_box]));
            Click (mkMouseEvent 50 70 0 0);
            Settle 0 (DocumentSettled (Fulfilled (mkDocument "https://x/doc2.pdf")))]
           (mkMouseEvent 50 70 0 0)).
  - discriminate.
  - discriminate.
  - reflexivity.
Defined.

(** The page of an older call is such an arrival: "doc2" is loading when
    the route moves on to "doc3"; the metadata of "doc3" arrive, then the
    page of "doc2", whose transform now stands over the boxes of "doc3". *)
Example stale_page_sets_transform :
  let s' := run (mkSystem ready_doc1 [])
                [RouteChanged (ParamString "doc2");
                 Settle 0 (MetadataSettled (Sample.ok_metadata "https://x/doc2.pdf" [doc2_box]));
                 Settle 0 (DocumentSettled (Fulfilled (mkDocument "https://x/doc2.pdf")));
                 RouteChanged (ParamString "doc3");
                 Settle 1 (MetadataSettled (Sample.ok_metadata "https://x/doc3.pdf" [doc1_box]));
                 Settle 0 (PageSettled (Fulfilled doc2_page))] in
  pdfId (world s') = "doc3"
  /\ boundingBoxes (world s') = [doc1_box]
  /\ pdfPageView (world s') = Some (getViewport doc2_page 1.5).
Proof. vm_compute. repeat split. Qed.

Lemma view_after_cycle_witness :
  let w' := fst (load_cycle engine_rejecting_document "doc1"
                   (Sample.initial (Some "https://api.example.com") "doc1")) in
  viewer (render w') = false /\ field_ids (render w') = [].
Proof.
  cbv zeta. split; [reflexivity|].
  apply (proj2 (proj2 (proj2 (view_after_cycle engine_rejecting_document "doc1"
                                (Sample.initial (Some "https://api.example.com") "doc1"))))).
  reflexivity.
Defined.
